(** * EduMind-AI: the pedagogical dialogue controller

    A shallow embedding of the tutoring core of the repository:

    - [services/promptEngineering.ts]  ([constructSystemPrompt]),
    - [services/localLlmService.ts]    ([sendMessageToLocalLLM]),
    - [services/geminiService.ts]      ([initializeGemini], [sendMessageToEduMind]),
    - [App.tsx]                        ([handleSend], [handleResetSession],
                                        [loadHistory]),
    - [services/db.ts]                 (the operations of [dbService]),
    - [components/MistakeBook.tsx]     ([loadMistakes]),
    - [components/AuthPage.tsx]        ([validateEmail], [handleSubmit]),

    together with the part of the JavaScript run time these functions
    lean on (strings of UTF-16 code units, truthiness, strict equality,
    property reads, [JSON.parse], [JSON.stringify], one regular
    expression, [trim], [substring]). *)

From Stdlib Require Import List NArith ZArith Bool Lia.
From Stdlib Require Import Ascii String.
From Stdlib Require Decimal DecimalPos.
From Stdlib Require Import Sorted Permutation.
Import ListNotations.

Set Implicit Arguments.
Set Warnings "-register-all".
Set Warnings "-notation-incompatible-prefix".

(** ** JavaScript strings *)

Module JsString.

(** A JavaScript string is a finite sequence of UTF-16 code units. *)
Definition jschar := N.
Definition jsstring := list jschar.

Definition emit_code_point (cp : N) : jsstring :=
  if (cp <? 65536)%N then [cp]
  else let v := (cp - 65536)%N in [(55296 + v / 1024)%N; (56320 + v mod 1024)%N].

(** Source literals are written here as UTF-8 text; [decode_utf8] turns
    the bytes into the code units the TypeScript literal denotes. *)
Fixpoint decode_utf8 (pending : nat) (acc : N) (bytes : list N) : jsstring :=
  match bytes with
  | [] => []
  | b :: rest =>
      match pending with
      | O =>
          if (b <? 128)%N then b :: decode_utf8 0 0%N rest
          else if (b <? 224)%N then decode_utf8 1 (b mod 32)%N rest
          else if (b <? 240)%N then decode_utf8 2 (b mod 16)%N rest
          else decode_utf8 3 (b mod 8)%N rest
      | S p =>
          let acc' := (acc * 64 + b mod 64)%N in
          match p with
          | O => emit_code_point acc' ++ decode_utf8 0 0%N rest
          | S _ => decode_utf8 p acc' rest
          end
      end
  end.

Definition js (s : string) : jsstring :=
  decode_utf8 0 0%N (map N_of_ascii (list_ascii_of_string s)).

(** The double quote, written apart so that literals stay readable. *)
Definition dq : jsstring := [34%N].

Definition jschar_eqb : jschar -> jschar -> bool := N.eqb.

Fixpoint jsstring_eqb (a b : jsstring) : bool :=
  match a, b with
  | [], [] => true
  | x :: a', y :: b' => (x =? y)%N && jsstring_eqb a' b'
  | _, _ => false
  end.

(** [s.startsWith(p)] *)
Fixpoint starts_with (s p : jsstring) : bool :=
  match p, s with
  | [], _ => true
  | _ :: _, [] => false
  | a :: p', b :: s' => (a =? b)%N && starts_with s' p'
  end.

(** [s.includes(sub)] *)
Fixpoint includes (s sub : jsstring) : bool :=
  starts_with s sub ||
  match s with
  | [] => false
  | _ :: rest => includes rest sub
  end.

(** [s.substring(0, n)] for a non-negative [n]. *)
Definition substring0 (n : nat) (s : jsstring) : jsstring := firstn n s.

(** ASCII-only [toLowerCase], enough to look for a word in any case. *)
Definition lower_char (c : jschar) : jschar :=
  if ((65 <=? c) && (c <=? 90))%N then (c + 32)%N else c.
Definition toLowerCase (s : jsstring) : jsstring := map lower_char s.

(** White space and line terminators removed by [String.prototype.trim]. *)
Definition is_js_space (c : jschar) : bool :=
  ((9 <=? c) && (c <=? 13) || (c =? 32) || (c =? 160) || (c =? 5760)
   || (8192 <=? c) && (c <=? 8202) || (c =? 8232) || (c =? 8233)
   || (c =? 8239) || (c =? 8287) || (c =? 12288) || (c =? 65279))%N.

Fixpoint trim_start (s : jsstring) : jsstring :=
  match s with
  | c :: rest => if is_js_space c then trim_start rest else s
  | [] => []
  end.

Definition trim_end (s : jsstring) : jsstring := rev (trim_start (rev s)).

Definition trim (s : jsstring) : jsstring := trim_end (trim_start s).

(** Decimal digits of a natural number, as [Number.prototype.toString]
    prints an integer. *)
Fixpoint uint_chars (d : Decimal.uint) : jsstring :=
  match d with
  | Decimal.Nil => []
  | Decimal.D0 r => 48%N :: uint_chars r
  | Decimal.D1 r => 49%N :: uint_chars r
  | Decimal.D2 r => 50%N :: uint_chars r
  | Decimal.D3 r => 51%N :: uint_chars r
  | Decimal.D4 r => 52%N :: uint_chars r
  | Decimal.D5 r => 53%N :: uint_chars r
  | Decimal.D6 r => 54%N :: uint_chars r
  | Decimal.D7 r => 55%N :: uint_chars r
  | Decimal.D8 r => 56%N :: uint_chars r
  | Decimal.D9 r => 57%N :: uint_chars r
  end.

Definition N_toString (n : N) : jsstring := uint_chars (N.to_uint n).

Definition Z_toString (z : Z) : jsstring :=
  match z with
  | Zneg p => 45%N :: N_toString (Npos p)
  | _ => N_toString (Z.to_N z)
  end.

Definition is_digit (c : jschar) : bool := ((48 <=? c) && (c <=? 57))%N.

(** The global replacement [s.replace(/```json\n?|\n?```/g, '')].

    At each position the first alternative (three backticks, [json] and
    an optional line feed) is tried before the second (an optional line
    feed and three backticks); the scan resumes after a match.  [skip]
    counts the code units of the current match still to be dropped. *)
Definition fence_match_length (s : jsstring) : nat :=
  if starts_with s (js "```json") then
    match skipn 7 s with
    | 10%N :: _ => 8
    | _ => 7
    end
  else if starts_with s (10%N :: js "```") then 4
  else if starts_with s (js "```") then 3
  else 0.

Fixpoint strip_fences_from (skip : nat) (s : jsstring) : jsstring :=
  match s with
  | [] => []
  | c :: rest =>
      match skip with
      | S k => strip_fences_from k rest
      | O =>
          match fence_match_length s with
          | O => c :: strip_fences_from 0 rest
          | S k => strip_fences_from k rest
          end
      end
  end.

Definition strip_fences (s : jsstring) : jsstring := strip_fences_from 0 s.

End JsString.
Import JsString.

(** ** JavaScript values, as [JSON.parse] produces them *)

Module Json.

(** A number is kept as the exact decimal [mant * 10 ^ expo] its text
    denotes, in normal form ([mant] not divisible by ten, zero as
    [Dec 0 0]).  The engine rounds to a double; the controller never
    computes with a number, it only stores, compares and prints one. *)
Record number := Dec { mant : Z; expo : Z }.

Inductive value : Type :=
| VUndefined
| VNull
| VBool (b : bool)
| VNum (n : number)
| VStr (s : jsstring)
| VArr (items : list value)
| VObj (fields : list (jsstring * value)).

Definition number_of_Z (z : Z) : number := Dec z 0.

Fixpoint strip_tens (fuel : nat) (m e : Z) : number :=
  match fuel with
  | O => Dec m e
  | S f =>
      if (m =? 0)%Z then Dec 0 0
      else if (m mod 10 =? 0)%Z then strip_tens f (m / 10)%Z (e + 1)%Z
      else Dec m e
  end.

Definition normalize (m e : Z) : number :=
  strip_tens (S (Z.to_nat (Z.log2 (Z.abs m)))) m e.

Definition number_eqb (a b : number) : bool :=
  if (expo a <=? expo b)%Z
  then (mant a =? mant b * 10 ^ (expo b - expo a))%Z
  else (mant b =? mant a * 10 ^ (expo a - expo b))%Z.

(** [ToBoolean] *)
Definition truthy (v : value) : bool :=
  match v with
  | VUndefined | VNull => false
  | VBool b => b
  | VNum n => negb (mant n =? 0)%Z
  | VStr s => match s with [] => false | _ :: _ => true end
  | VArr _ | VObj _ => true
  end.

(** [a === b].  Objects and arrays are equal only to themselves; the
    code compares a freshly obtained response field with a value held
    from before, which are never the same object. *)
Definition strict_eq (a b : value) : bool :=
  match a, b with
  | VUndefined, VUndefined => true
  | VNull, VNull => true
  | VBool x, VBool y => Bool.eqb x y
  | VNum x, VNum y => number_eqb x y
  | VStr x, VStr y => jsstring_eqb x y
  | _, _ => false
  end.

Fixpoint lookup (k : jsstring) (fields : list (jsstring * value)) : option value :=
  match fields with
  | [] => None
  | (k', v) :: rest => if jsstring_eqb k k' then Some v else lookup k rest
  end.

(** An array index: the canonical decimal text of an integer below
    [2^32 - 1].  The engine lists the own keys of an object with the
    array indices first, in ascending order, and the other keys after
    them in order of creation.  [JSON.parse] makes the [fields] of a
    [VObj] in that order, and [JSON.stringify] prints the members of any
    [VObj] in that order, whatever the order of its [fields]. *)
Definition array_index (k : jsstring) : option N :=
  match k with
  | [] => None
  | c :: rest =>
      if forallb is_digit k && (negb (c =? 48)%N || match rest with [] => true | _ => false end)
      then let n := fold_left (fun acc d => acc * 10 + (d - 48))%N k 0%N in
           if (n <? 4294967295)%N then Some n else None
      else None
  end.

(** An existing key takes the new value and keeps its place. *)
Fixpoint replace_field (k : jsstring) (v : value) (fields : list (jsstring * value))
  : list (jsstring * value) :=
  match fields with
  | [] => []
  | (k', v') :: rest =>
      if jsstring_eqb k k' then (k', v) :: rest else (k', v') :: replace_field k v rest
  end.

(** A new array index goes before the first key that is a greater index
    or no index. *)
Fixpoint place_index (A : Type) (i : N) (k : jsstring) (a : A)
    (entries : list (jsstring * A)) : list (jsstring * A) :=
  match entries with
  | [] => [(k, a)]
  | (k', a') :: rest =>
      match array_index k' with
      | Some j => if (j <? i)%N then (k', a') :: place_index i k a rest
                  else (k, a) :: entries
      | None => (k, a) :: entries
      end
  end.

(** Entries under distinct keys, in the order the engine lists the
    keys. *)
Definition key_order (A : Type) (entries : list (jsstring * A)) : list (jsstring * A) :=
  fold_left
    (fun acc ka =>
       match array_index (fst ka) with
       | Some i => place_index i (fst ka) (snd ka) acc
       | None => acc ++ [ka]
       end)
    entries [].

(** Keys that are in that order already. *)
Fixpoint in_key_order (keys : list jsstring) : bool :=
  match keys with
  | [] => true
  | k :: rest =>
      forallb (fun k' =>
                 match array_index k, array_index k' with
                 | Some i, Some j => (i <? j)%N
                 | Some _, None => true
                 | None, Some _ => false
                 | None, None => true
                 end) rest
      && in_key_order rest
  end.

(** Defining a property: an existing key keeps its place and takes the
    new value; a new key that is an array index goes to its place among
    the indices, any other new key goes last. *)
Definition set_field (k : jsstring) (v : value) (fields : list (jsstring * value))
  : list (jsstring * value) :=
  match lookup k fields with
  | Some _ => replace_field k v fields
  | None =>
      match array_index k with
      | Some i => place_index i k v fields
      | None => fields ++ [(k, v)]
      end
  end.

Definition object_of_members (ms : list (jsstring * value)) : list (jsstring * value) :=
  fold_left (fun acc kv => set_field (fst kv) (snd kv) acc) ms [].

(** A canonical array index: decimal digits without a leading zero. *)
Definition index_of_key (k : jsstring) : option nat :=
  match k with
  | [] => None
  | c :: rest =>
      if forallb is_digit k && (negb (c =? 48)%N || match rest with [] => true | _ => false end)
      then Some (fold_left (fun acc d => acc * 10 + N.to_nat (d - 48)) k 0)
      else None
  end.

(** The property read [v.k] ([v[k]]).  [None] stands for the [TypeError]
    raised on [null] and [undefined].  None of the names the modelled
    code reads is defined on a built-in prototype, so a read that finds
    no own property yields [undefined]. *)
Definition get_prop (v : value) (k : jsstring) : option value :=
  match v with
  | VUndefined | VNull => None
  | VObj fields =>
      Some match lookup k fields with Some x => x | None => VUndefined end
  | VArr items =>
      Some (if jsstring_eqb k (js "length")
            then VNum (number_of_Z (Z.of_nat (List.length items)))
            else match index_of_key k with
                 | Some i => nth i items VUndefined
                 | None => VUndefined
                 end)
  | VStr s =>
      Some (if jsstring_eqb k (js "length")
            then VNum (number_of_Z (Z.of_nat (List.length s)))
            else match index_of_key k with
                 | Some i => match nth_error s i with
                             | Some c => VStr [c]
                             | None => VUndefined
                             end
                 | None => VUndefined
                 end)
  | VBool _ | VNum _ => Some VUndefined
  end.

(** The optional chain [v?.k]. *)
Definition opt_prop (v : value) (k : jsstring) : value :=
  match get_prop v k with
  | Some x => x
  | None => VUndefined
  end.

(** *** [JSON.parse] *)

Definition is_json_space (c : jschar) : bool :=
  ((c =? 32) || (c =? 9) || (c =? 10) || (c =? 13))%N.

Fixpoint skip_ws (s : jsstring) : jsstring :=
  match s with
  | c :: rest => if is_json_space c then skip_ws rest else s
  | [] => []
  end.

Definition hex_value (c : jschar) : option N :=
  if is_digit c then Some (c - 48)%N
  else if ((97 <=? c) && (c <=? 102))%N then Some (c - 87)%N
  else if ((65 <=? c) && (c <=? 70))%N then Some (c - 55)%N
  else None.

Definition hex4 (a b c d : jschar) : option jschar :=
  match hex_value a, hex_value b, hex_value c, hex_value d with
  | Some x, Some y, Some z, Some w => Some (((x * 16 + y) * 16 + z) * 16 + w)%N
  | _, _, _, _ => None
  end.

(** The character after a backslash, other than [u]. *)
Definition unescape (e : jschar) : option jschar :=
  if (e =? 34)%N then Some 34%N          (* quote *)
  else if (e =? 92)%N then Some 92%N     (* backslash *)
  else if (e =? 47)%N then Some 47%N     (* solidus *)
  else if (e =? 98)%N then Some 8%N      (* b *)
  else if (e =? 102)%N then Some 12%N    (* f *)
  else if (e =? 110)%N then Some 10%N    (* n *)
  else if (e =? 114)%N then Some 13%N    (* r *)
  else if (e =? 116)%N then Some 9%N     (* t *)
  else None.

Definition push_char (c : jschar) (r : option (jsstring * jsstring))
  : option (jsstring * jsstring) :=
  match r with
  | Some (str, rest) => Some (c :: str, rest)
  | None => None
  end.

(** The characters of a string literal, after its opening quote. *)
Fixpoint parse_string_chars (s : jsstring) : option (jsstring * jsstring) :=
  match s with
  | [] => None
  | c :: rest =>
      if (c =? 34)%N then Some ([], rest)
      else if (c =? 92)%N then
        match rest with
        | [] => None
        | e :: rest1 =>
            if (e =? 117)%N then
              match rest1 with
              | h1 :: h2 :: h3 :: h4 :: rest2 =>
                  match hex4 h1 h2 h3 h4 with
                  | Some u => push_char u (parse_string_chars rest2)
                  | None => None
                  end
              | _ => None
              end
            else
              match unescape e with
              | Some u => push_char u (parse_string_chars rest1)
              | None => None
              end
        end
      else if (c <? 32)%N then None
      else push_char c (parse_string_chars rest)
  end.

Fixpoint span_digits (s : jsstring) : jsstring * jsstring :=
  match s with
  | c :: rest =>
      if is_digit c
      then let '(ds, r) := span_digits rest in (c :: ds, r)
      else ([], s)
  | [] => ([], [])
  end.

Definition digits_value (ds : jsstring) : Z :=
  fold_left (fun acc c => (acc * 10 + Z.of_N (c - 48))%Z) ds 0%Z.

Definition parse_exponent (s : jsstring) : option (Z * jsstring) :=
  match s with
  | c :: rest =>
      if ((c =? 101) || (c =? 69))%N then
        let '(negative, rest1) :=
          match rest with
          | 45%N :: r => (true, r)
          | 43%N :: r => (false, r)
          | _ => (false, rest)
          end in
        match span_digits rest1 with
        | ([], _) => None
        | (ds, r) => Some (if negative then (- digits_value ds)%Z else digits_value ds, r)
        end
      else Some (0%Z, s)
  | [] => Some (0%Z, [])
  end.

Definition parse_fraction (s : jsstring) : option (jsstring * jsstring) :=
  match s with
  | 46%N :: rest =>
      match span_digits rest with
      | ([], _) => None
      | (ds, r) => Some (ds, r)
      end
  | _ => Some ([], s)
  end.

Definition parse_number (s : jsstring) : option (number * jsstring) :=
  let '(negative, s1) :=
    match s with
    | 45%N :: r => (true, r)
    | _ => (false, s)
    end in
  match span_digits s1 with
  | ([], _) => None
  | (d0 :: more, s2) =>
      if (d0 =? 48)%N && match more with [] => false | _ :: _ => true end then None
      else
        match parse_fraction s2 with
        | None => None
        | Some (fs, s3) =>
            match parse_exponent s3 with
            | None => None
            | Some (e, s4) =>
                let m := digits_value ((d0 :: more) ++ fs) in
                Some (normalize (if negative then (- m)%Z else m)
                                (e - Z.of_nat (List.length fs))%Z, s4)
            end
        end
  end.

Section Containers.
(** The parser of one value, at the nesting depth below. *)
Variable pv : jsstring -> option (value * jsstring).

Fixpoint parse_elements (fuel : nat) (s : jsstring) : option (list value * jsstring) :=
  match fuel with
  | O => None
  | S f =>
      match pv s with
      | None => None
      | Some (v, r) =>
          match skip_ws r with
          | 44%N :: r1 =>
              match parse_elements f r1 with
              | Some (vs, r2) => Some (v :: vs, r2)
              | None => None
              end
          | 93%N :: r1 => Some ([v], r1)
          | _ => None
          end
      end
  end.

Fixpoint parse_members (fuel : nat) (s : jsstring)
  : option (list (jsstring * value) * jsstring) :=
  match fuel with
  | O => None
  | S f =>
      match skip_ws s with
      | 34%N :: r =>
          match parse_string_chars r with
          | None => None
          | Some (k, r1) =>
              match skip_ws r1 with
              | 58%N :: r2 =>
                  match pv r2 with
                  | None => None
                  | Some (v, r3) =>
                      match skip_ws r3 with
                      | 44%N :: r4 =>
                          match parse_members f r4 with
                          | Some (ms, r5) => Some ((k, v) :: ms, r5)
                          | None => None
                          end
                      | 125%N :: r4 => Some ([(k, v)], r4)
                      | _ => None
                      end
                  end
              | _ => None
              end
          end
      | _ => None
      end
  end.
End Containers.

Fixpoint parse_value (fuel : nat) (s : jsstring) : option (value * jsstring) :=
  match fuel with
  | O => None
  | S f =>
      match skip_ws s with
      | [] => None
      | c :: r =>
          if (c =? 123)%N then
            match skip_ws r with
            | 125%N :: r1 => Some (VObj [], r1)
            | _ =>
                match parse_members (parse_value f) f r with
                | Some (ms, r1) => Some (VObj (object_of_members ms), r1)
                | None => None
                end
            end
          else if (c =? 91)%N then
            match skip_ws r with
            | 93%N :: r1 => Some (VArr [], r1)
            | _ =>
                match parse_elements (parse_value f) f r with
                | Some (vs, r1) => Some (VArr vs, r1)
                | None => None
                end
            end
          else if (c =? 34)%N then
            match parse_string_chars r with
            | Some (str, r1) => Some (VStr str, r1)
            | None => None
            end
          else if starts_with (c :: r) (js "true") then Some (VBool true, skipn 4 (c :: r))
          else if starts_with (c :: r) (js "false") then Some (VBool false, skipn 5 (c :: r))
          else if starts_with (c :: r) (js "null") then Some (VNull, skipn 4 (c :: r))
          else
            match parse_number (c :: r) with
            | Some (n, r1) => Some (VNum n, r1)
            | None => None
            end
      end
  end.

(** [JSON.parse(text)]; [None] stands for the [SyntaxError].  Every
    nesting level and every member consumes a code unit, so the length
    of the text bounds both. *)
Definition JSON_parse (text : jsstring) : option value :=
  match parse_value (S (List.length text)) text with
  | Some (v, rest) =>
      match skip_ws rest with
      | [] => Some v
      | _ :: _ => None
      end
  | None => None
  end.

End Json.
Import Json.

(** *** [JSON.stringify] and conversions to string *)

Module Print.

Definition backslash : jsstring := [92%N].

(** [Number::toString] on the digits of the decimal. *)
Definition number_toString (x : number) : jsstring :=
  let x0 := normalize (mant x) (expo x) in
  let m := mant x0 in
  if (m =? 0)%Z then js "0"
  else
    let sign := if (m <? 0)%Z then js "-" else [] in
    let digits := N_toString (Z.to_N (Z.abs m)) in
    let k := Z.of_nat (List.length digits) in
    let n := (k + expo x0)%Z in
    sign ++
    if ((k <=? n) && (n <=? 21))%Z then digits ++ repeat 48%N (Z.to_nat (n - k))
    else if ((0 <? n) && (n <=? 21))%Z
    then firstn (Z.to_nat n) digits ++ js "." ++ skipn (Z.to_nat n) digits
    else if ((-6 <? n) && (n <=? 0))%Z
    then js "0." ++ repeat 48%N (Z.to_nat (- n)) ++ digits
    else
      let e := (n - 1)%Z in
      let etext := (if (e <? 0)%Z then js "-" else js "+")
                   ++ N_toString (Z.to_N (Z.abs e)) in
      match digits with
      | [] => []
      | [d] => d :: js "e" ++ etext
      | d :: more => d :: js "." ++ more ++ js "e" ++ etext
      end.

Definition hex_digit (n : N) : jschar :=
  if (n <? 10)%N then (48 + n)%N else (87 + n)%N.

Definition unicode_escape (c : jschar) : jsstring :=
  backslash ++ js "u" ++
  [hex_digit (c / 4096); hex_digit ((c / 256) mod 16);
   hex_digit ((c / 16) mod 16); hex_digit (c mod 16)]%N.

Definition is_high_surrogate (c : jschar) : bool := ((55296 <=? c) && (c <=? 56319))%N.
Definition is_low_surrogate (c : jschar) : bool := ((56320 <=? c) && (c <=? 57343))%N.

(** The body of [QuoteJSONString]. *)
Fixpoint quote_chars (s : jsstring) : jsstring :=
  match s with
  | [] => []
  | c :: rest =>
      if (c =? 34)%N then backslash ++ dq ++ quote_chars rest
      else if (c =? 92)%N then backslash ++ backslash ++ quote_chars rest
      else if (c =? 8)%N then backslash ++ js "b" ++ quote_chars rest
      else if (c =? 12)%N then backslash ++ js "f" ++ quote_chars rest
      else if (c =? 10)%N then backslash ++ js "n" ++ quote_chars rest
      else if (c =? 13)%N then backslash ++ js "r" ++ quote_chars rest
      else if (c =? 9)%N then backslash ++ js "t" ++ quote_chars rest
      else if (c <? 32)%N then unicode_escape c ++ quote_chars rest
      else if is_high_surrogate c then
        match rest with
        | l :: rest1 =>
            if is_low_surrogate l then c :: l :: quote_chars rest1
            else unicode_escape c ++ quote_chars rest
        | [] => unicode_escape c
        end
      else if is_low_surrogate c then unicode_escape c ++ quote_chars rest
      else c :: quote_chars rest
  end.

Definition quote (s : jsstring) : jsstring := dq ++ quote_chars s ++ dq.

Fixpoint join_with (sep : jsstring) (parts : list jsstring) : jsstring :=
  match parts with
  | [] => []
  | [p] => p
  | p :: rest => p ++ sep ++ join_with sep rest
  end.

(** The members an object prints, from its keys in the engine's order
    and the text of each value, [None] for [undefined]. *)
Fixpoint member_lines (entries : list (jsstring * option jsstring)) : list jsstring :=
  match entries with
  | [] => []
  | (_, None) :: rest => member_lines rest
  | (k, Some text) :: rest => (quote k ++ js ":" ++ text) :: member_lines rest
  end.

(** [SerializeJSONProperty] without indentation.  An [undefined] array
    element prints as [null]; an [undefined] member is left out.
    Members print in the order the engine lists the keys in: the array
    indices first, in ascending order, then the other keys. *)
Fixpoint stringify (v : value) : jsstring :=
  match v with
  | VUndefined | VNull => js "null"
  | VBool true => js "true"
  | VBool false => js "false"
  | VNum n => number_toString n
  | VStr s => quote s
  | VArr items => js "[" ++ join_with (js ",") (map stringify items) ++ js "]"
  | VObj fields =>
      js "{" ++
      join_with (js ",")
        (member_lines
           (key_order
              ((fix printed (fs : list (jsstring * value))
                  : list (jsstring * option jsstring) :=
                  match fs with
                  | [] => []
                  | (k, VUndefined) :: rest => (k, None) :: printed rest
                  | (k, x) :: rest => (k, Some (stringify x)) :: printed rest
                  end) fields))) ++
      js "}"
  end.

(** [JSON.stringify(v)]: a string, or [undefined] for [undefined]. *)
Definition JSON_stringify (v : value) : value :=
  match v with
  | VUndefined => VUndefined
  | _ => VStr (stringify v)
  end.

End Print.
Import Print.

(** ** Exceptions *)

Module Exn.

(** What a [throw] or a rejected promise carries. *)
Inductive thrown :=
| JsError (name message : jsstring)        (* [new Error(message)], [TypeError], ... *)
| ApiError (status : Z) (message : jsstring) (* error of the GenAI client, with a status *)
| ThrownString (reason : jsstring).        (* [reject('...')] *)

Definition new_Error (message : jsstring) : thrown := JsError (js "Error") message.

(** The text a template literal gives for a thrown value. *)
Definition thrown_toString (e : thrown) : jsstring :=
  match e with
  | JsError name message =>
      match name, message with
      | _, [] => name
      | [], _ => message
      | _, _ => name ++ js ": " ++ message
      end
  | ApiError _ message =>
      match message with
      | [] => js "ApiError"
      | _ => js "ApiError: " ++ message
      end
  | ThrownString reason => reason
  end.

Definition thrown_status (e : thrown) : value :=
  match e with
  | ApiError status _ => VNum (normalize status 0)
  | _ => VUndefined
  end.

Definition thrown_message (e : thrown) : value :=
  match e with
  | JsError _ message | ApiError _ message => VStr message
  | ThrownString _ => VUndefined
  end.

(** The outcome of a computation that may throw. *)
Inductive completion (A : Type) : Type :=
| Normal (a : A)
| Throw (e : thrown).
Arguments Normal {A} a.
Arguments Throw {A} e.

Definition bind {A B : Type} (c : completion A) (k : A -> completion B) : completion B :=
  match c with
  | Normal a => k a
  | Throw e => Throw e
  end.

(** [try { c } catch (e) { handler e }] *)
Definition try_catch {A : Type} (c : completion A) (handler : thrown -> completion A)
  : completion A :=
  match c with
  | Normal a => Normal a
  | Throw e => handler e
  end.

End Exn.
Import Exn.

Notation "x <- c ;; k" := (bind c (fun x => k))
  (at level 61, c at next level, right associativity).

(** ** [types.ts] *)

Module Types.

Inductive Subject := MATH | CHINESE | ENGLISH | SCIENCE.
Inductive Grade := PRIMARY | MIDDLE.
Inductive TaskMode := MISTAKE_ANALYSIS | CONCEPT_EXPLANATION | HOMEWORK_HELP.
Inductive PedagogicalState := GUIDING | EXPLAINING | QUIZZING.
Inductive MasteryLevel := Novice | Intermediate | Advanced.

(** The string each enum member is at run time. *)
Definition Subject_text (s : Subject) : jsstring :=
  match s with
  | MATH => js "Mathematics"
  | CHINESE => js "Chinese Literature"
  | ENGLISH => js "English"
  | SCIENCE => js "Science"
  end.

Definition Grade_text (g : Grade) : jsstring :=
  match g with
  | PRIMARY => js "Primary School"
  | MIDDLE => js "Middle School"
  end.

Definition TaskMode_text (m : TaskMode) : jsstring :=
  match m with
  | MISTAKE_ANALYSIS => js "Mistake Analysis"
  | CONCEPT_EXPLANATION => js "Concept Explanation"
  | HOMEWORK_HELP => js "Homework Help"
  end.

Definition PedagogicalState_text (s : PedagogicalState) : jsstring :=
  match s with
  | GUIDING => js "GUIDING"
  | EXPLAINING => js "EXPLAINING"
  | QUIZZING => js "QUIZZING"
  end.

Definition MasteryLevel_text (m : MasteryLevel) : jsstring :=
  match m with
  | Novice => js "Novice"
  | Intermediate => js "Intermediate"
  | Advanced => js "Advanced"
  end.

Definition TaskMode_eqb (a b : TaskMode) : bool :=
  match a, b with
  | MISTAKE_ANALYSIS, MISTAKE_ANALYSIS
  | CONCEPT_EXPLANATION, CONCEPT_EXPLANATION
  | HOMEWORK_HELP, HOMEWORK_HELP => true
  | _, _ => false
  end.

(** The pedagogical state as the value held in React state and in a
    response: the enum member's string. *)
Definition state_value (s : PedagogicalState) : value := VStr (PedagogicalState_text s).

(** [age] is a whole number of years. *)
Record StudentProfile := {
  name : jsstring;
  age : N;
  grade : Grade;
  masteryLevel : MasteryLevel;
  email : jsstring;
  password : option jsstring
}.

(** The response contract, for a response that has the declared shape. *)
Record StructuredAIResponse := {
  content_for_user : jsstring;
  internal_monologue : jsstring;
  knowledge_point_id : jsstring;
  student_mastery_score : Z;
  suggested_next_state : PedagogicalState;
  is_direct_answer_attempt : bool
}.

(** The object such a response is at run time. *)
Definition response_value (r : StructuredAIResponse) : value :=
  VObj [(js "content_for_user", VStr (content_for_user r));
        (js "internal_monologue", VStr (internal_monologue r));
        (js "knowledge_point_id", VStr (knowledge_point_id r));
        (js "student_mastery_score", VNum (normalize (student_mastery_score r) 0));
        (js "suggested_next_state", state_value (suggested_next_state r));
        (js "is_direct_answer_attempt", VBool (is_direct_answer_attempt r))].

Inductive Role := user | assistant | system.

Definition Role_eqb (a b : Role) : bool :=
  match a, b with
  | user, user | assistant, assistant | system, system => true
  | _, _ => false
  end.

(** [content] and [metadata] hold whatever the response held; an absent
    [metadata] is [undefined]. *)
Record ChatMessage := {
  id : jsstring;
  role : Role;
  content : value;
  metadata : value;
  timestamp : Z
}.

End Types.
Import Types.

Module MistakeRecord.
Record t := {
  userEmail : jsstring;
  subject : Subject;
  question : jsstring;
  analysis : value;
  knowledgePoint : value;
  timestamp : Z
}.
End MistakeRecord.

(** ** [services/promptEngineering.ts] *)

Module PromptEngineering.

Definition baseIdentity (subject : Subject) : jsstring :=
  js "You are EduMind, an expert AI tutor for K-12 education specializing in "
  ++ Subject_text subject ++ js ".".

Definition audienceConstraint (student : StudentProfile) : jsstring :=
  js "Your student is in " ++ Grade_text (grade student) ++ js " (approx "
  ++ N_toString (age student) ++ js " years old). 
  Adjust your vocabulary and tone to be age-appropriate. 
  Current Mastery Level: "
  ++ MasteryLevel_text (masteryLevel student) ++ js ".".

Definition guidingDirectives : jsstring :=
  js "
      CURRENT STATE: [GUIDING/SOCRATIC]
      - DO NOT provide direct answers.
      - Ask guiding questions to help the student realize their mistake.
      - If they are stuck, provide a small hint, but not the solution.
      - Focus on the "
  ++ dq ++ js "Process" ++ dq ++ js ", not the " ++ dq ++ js "Result" ++ dq ++ js ".
      ".

Definition explainingDirectives (student : StudentProfile) : jsstring :=
  js "
      CURRENT STATE: [EXPLAINING/DEEP DIVE]
      - The student has shown confusion or explicitly asked for an explanation.
      - Provide clear, conceptual explanations using analogies suitable for a "
  ++ Grade_text (grade student) ++ js " student.
      - Link the concept to real-world examples.
      ".

Definition quizzingDirectives : jsstring :=
  js "
      CURRENT STATE: [QUIZZING/CONSOLIDATION]
      - The student seems to understand the concept.
      - Generate a NEW similar problem to test their understanding.
      - Verify if they can apply the knowledge independently.
      ".

(** The [switch] on [currentState]; there is no [default] branch. *)
Definition behavioralDirectives (student : StudentProfile) (currentState : value) : jsstring :=
  if strict_eq currentState (state_value GUIDING) then guidingDirectives
  else if strict_eq currentState (state_value EXPLAINING) then explainingDirectives student
  else if strict_eq currentState (state_value QUIZZING) then quizzingDirectives
  else [].

Definition modeDirectives (mode : TaskMode) : jsstring :=
  if TaskMode_eqb mode MISTAKE_ANALYSIS
  then js "You are analyzing a mistake. Find the root cause of the error."
  else js "You are explaining a new concept.".

Definition outputFormat : jsstring :=
  js "
  CRITICAL OUTPUT RULES:
  You must respond in strict JSON format. Do not add markdown backticks around the JSON.
  
  JSON Schema:
  {
    "
  ++ dq ++ js "content_for_user" ++ dq ++ js ": " ++ dq
  ++ js "The actual text response to the student." ++ dq ++ js ",
    " ++ dq
  ++ js "internal_monologue" ++ dq ++ js ": " ++ dq
  ++ js "Your internal reasoning about the student's state." ++ dq ++ js ",
    "
  ++ dq ++ js "knowledge_point_id" ++ dq ++ js ": " ++ dq
  ++ js "Short ID of the concept (e.g., MATH_05_FRACTIONS)" ++ dq ++ js ",
    "
  ++ dq ++ js "student_mastery_score" ++ dq ++ js ": number (0-100 estimate based on conversation),
    "
  ++ dq ++ js "suggested_next_state" ++ dq ++ js ": " ++ dq ++ js "GUIDING"
  ++ dq ++ js " | " ++ dq ++ js "EXPLAINING" ++ dq ++ js " | " ++ dq
  ++ js "QUIZZING" ++ dq ++ js ",
    " ++ dq ++ js "is_direct_answer_attempt"
  ++ dq ++ js ": boolean (true if the user just asked for the answer without trying)
  }
  ".

Definition constructSystemPrompt (subject : Subject) (student : StudentProfile)
    (mode : TaskMode) (currentState : value) : jsstring :=
  baseIdentity subject ++ js "
  " ++ audienceConstraint student ++ js "
  "
  ++ modeDirectives mode ++ js "
  "
  ++ behavioralDirectives student currentState ++ js "
  " ++ outputFormat.

End PromptEngineering.
Import PromptEngineering.

(** ** The environment of a turn *)

Module Environment.

Record Request := {
  url : jsstring;
  method : jsstring;
  headers : list (jsstring * jsstring);
  body : jsstring
}.

(** Reading the body of an HTTP response as text. *)
Inductive BodyResult :=
| BodyText (text : jsstring)
| BodyFails (e : thrown).

(** What [await fetch(...)] comes to. *)
Inductive FetchResult :=
| FetchRejects (e : thrown)
| FetchResolves (status : Z) (statusText : jsstring) (payload : BodyResult).

(** What [await genAI.models.generateContent(...)] comes to: a
    rejection with an error whose message is a string, a rejection with
    any other value ([null], [undefined], a number, an object whose
    [message] is no string, ...), or a response; [text] is the
    [response.text] of the client: a string, or [None] for
    [undefined]. *)
Inductive GenerateResult :=
| GenerateRejects (e : thrown)
| GenerateRejectsWith (reason : value)
| GenerateResolves (text : option jsstring).

(** A fault of IndexedDB during one operation of [dbService]. *)
Inductive DbFault :=
| NoFault
| OpenFails (errorCode : jsstring)
| RequestFails.

(** Everything outside the program: the HTTP endpoint, the wording of
    the errors the engine raises (for a text that is not JSON, for the
    read of a property of [null] or [undefined], for the call of what is
    not a function, named by the expression called), the clock and the
    faults of the browser database. *)
Record Env := {
  fetch : Request -> FetchResult;
  json_syntax_error : jsstring -> thrown;
  null_read_error : jsstring -> thrown;
  not_a_function_error : jsstring -> thrown;
  now : nat -> Z;
  db_fault : nat -> DbFault
}.

End Environment.
Import Environment.

(** ** [services/localLlmService.ts] *)

Module LocalLlmService.

Module ApiMessage.
Record t := { role : jsstring; content : value }.
End ApiMessage.

Definition ApiMessage_value (m : ApiMessage.t) : value :=
  VObj [(js "role", VStr (ApiMessage.role m)); (js "content", ApiMessage.content m)].

Definition historyEntry (h : ChatMessage) : ApiMessage.t :=
  {| ApiMessage.role :=
       if Role_eqb (role h) assistant then js "assistant" else js "user";
     ApiMessage.content :=
       if Role_eqb (role h) assistant && truthy (metadata h)
       then JSON_stringify (metadata h)
       else content h |}.

(** 1. Construct standard OpenAI-format messages *)
Definition apiMessages (systemPrompt : jsstring) (history : list ChatMessage)
    (userMessage : jsstring) : list ApiMessage.t :=
  [{| ApiMessage.role := js "system"; ApiMessage.content := VStr systemPrompt |}]
  ++ map historyEntry history
  ++ [{| ApiMessage.role := js "user"; ApiMessage.content := VStr userMessage |}].

Definition requestBody (modelName : jsstring) (msgs : list ApiMessage.t) : value :=
  VObj [(js "model", VStr modelName);
        (js "messages", VArr (map ApiMessage_value msgs));
        (js "temperature", VNum (Dec 7 (-1)));
        (js "max_tokens", VNum (normalize 2048 0));
        (js "response_format", VObj [(js "type", VStr (js "json_object"))])].

Definition localRequest (endpoint modelName systemPrompt : jsstring)
    (history : list ChatMessage) (userMessage : jsstring) : Request :=
  {| url := endpoint;
     method := js "POST";
     headers := [(js "Content-Type", js "application/json")];
     body := stringify (requestBody modelName (apiMessages systemPrompt history userMessage)) |}.

(** [response.ok] *)
Definition status_ok (status : Z) : bool := ((200 <=? status) && (status <=? 299))%Z.

(** [await response.json()] *)
Definition response_json (env : Env) (payload : BodyResult) : completion value :=
  match payload with
  | BodyFails e => Throw e
  | BodyText text =>
      match JSON_parse text with
      | Some data => Normal data
      | None => Throw (json_syntax_error env text)
      end
  end.

(** A property read that raises the engine's [TypeError] on [null]. *)
Definition read (env : Env) (v : value) (k : jsstring) : completion value :=
  match get_prop v k with
  | Some x => Normal x
  | None => Throw (null_read_error env k)
  end.

(** [rawContent.replace(/```json\n?|\n?```/g, '').trim()] *)
Definition cleanedJson (rawContent : jsstring) : jsstring :=
  trim (strip_fences rawContent).

(** 3. Robust JSON Parsing: the inner [try] block and its [catch]. *)
Definition parseRawContent (env : Env) (rawContent : value) : completion value :=
  try_catch
    match rawContent with
    | VStr s =>
        match JSON_parse (cleanedJson s) with
        | Some parsed => Normal parsed
        | None => Throw (json_syntax_error env (cleanedJson s))
        end
    | _ => Throw (not_a_function_error env (js "rawContent.replace"))
    end
    (fun _ => Throw (new_Error (js "Failed to parse structured output from Local LLM"))).

(** The object returned from the outer [catch]. *)
Definition fallbackResponse (endpoint : jsstring) (error : thrown) : value :=
  VObj [(js "content_for_user",
           VStr (js "⚠️ Connection Error: I cannot reach your local model. Please check if vLLM/Ollama is running on port 8000."));
        (js "internal_monologue",
           VStr (js "Connection failed to " ++ endpoint ++ js ". Error: "
                 ++ thrown_toString error));
        (js "knowledge_point_id", VStr (js "ERR_CONN"));
        (js "student_mastery_score", VNum (Dec 0 0));
        (js "suggested_next_state", state_value GUIDING);
        (js "is_direct_answer_attempt", VBool false)].

(** [choices?.[0]?.message?.content] *)
Definition firstChoiceContent (choices : value) : value :=
  opt_prop (opt_prop (opt_prop choices (js "0")) (js "message")) (js "content").

(** The outer [try] block. *)
Definition requestAndParse (env : Env) (endpoint modelName systemPrompt : jsstring)
    (history : list ChatMessage) (userMessage : jsstring) : completion value :=
  match fetch env (localRequest endpoint modelName systemPrompt history userMessage) with
  | FetchRejects e => Throw e
  | FetchResolves status statusText payload =>
      if negb (status_ok status)
      then Throw (new_Error (js "Local API Error: " ++ Z_toString status
                             ++ js " " ++ statusText))
      else
        data <- response_json env payload ;;
        choices <- read env data (js "choices") ;;
        let rawContent := firstChoiceContent choices in
        if negb (truthy rawContent)
        then Throw (new_Error (js "Empty response from local model"))
        else parseRawContent env rawContent
  end.

Definition sendMessageToLocalLLM (env : Env) (endpoint modelName systemPrompt : jsstring)
    (history : list ChatMessage) (userMessage : jsstring) : completion value :=
  try_catch
    (requestAndParse env endpoint modelName systemPrompt history userMessage)
    (fun error => Normal (fallbackResponse endpoint error)).

End LocalLlmService.
Import LocalLlmService.

(** ** [services/geminiService.ts] *)

Module GeminiService.

Module Content.
Record t := { role : jsstring; text : value }.
End Content.

Record GenerateRequest := {
  model : jsstring;
  contents : list Content.t;
  systemInstruction : jsstring;
  responseMimeType : jsstring;
  temperature : number
}.

Definition model_name : jsstring := js "gemini-3-flash-preview".

Definition chatHistory (history : list ChatMessage) : list Content.t :=
  map (fun h =>
         {| Content.role :=
              if Role_eqb (role h) assistant then js "model" else js "user";
            Content.text :=
              if Role_eqb (role h) assistant && truthy (metadata h)
              then JSON_stringify (metadata h)
              else content h |})
      history.

Definition generateRequest (systemPrompt : jsstring) (history : list ChatMessage)
    (userMessage : jsstring) : GenerateRequest :=
  {| model := model_name;
     contents := chatHistory history
                 ++ [{| Content.role := js "user"; Content.text := VStr userMessage |}];
     systemInstruction := systemPrompt;
     responseMimeType := js "application/json";
     temperature := Dec 7 (-1) |}.

(** The two nested [try] blocks around [JSON.parse]. *)
Definition parseText (text : jsstring) : completion value :=
  match JSON_parse text with
  | Some parsed => Normal parsed
  | None =>
      let cleanedText := trim (strip_fences text) in
      match JSON_parse cleanedText with
      | Some parsed => Normal parsed
      | None => Throw (new_Error (js "Failed to parse model response as JSON"))
      end
  end.

(** The outer [catch] block: the two texts and the object returned,
    from the outcome of the two tests on [error]. *)
Definition errorMessageFor (is404 is429 : bool) : jsstring :=
  if is404
  then js "Model not found (" ++ model_name
       ++ js "). Please check if the API key has access to this model."
  else if is429
  then js "I'm a bit overwhelmed right now. Please give me a moment."
  else js "I'm having trouble connecting to my knowledge base. Let's try that again.".

Definition internalLogFor (is404 is429 : bool) : jsstring :=
  if is404
  then js "API Error 404: The model '" ++ model_name ++ js "' is not available."
  else if is429 then js "Rate limit exceeded."
  else js "System Error.".

Definition fallbackFor (is404 is429 : bool) : value :=
  VObj [(js "content_for_user", VStr (errorMessageFor is404 is429));
        (js "internal_monologue", VStr (internalLogFor is404 is429));
        (js "knowledge_point_id", VStr (js "ERR_SYS"));
        (js "student_mastery_score", VNum (Dec 0 0));
        (js "suggested_next_state", state_value GUIDING);
        (js "is_direct_answer_attempt", VBool false)].

(** The block for an [error] that is an error object or a string:
    [error.status] and [error.message] are read without failure, and a
    message is a string. *)
Definition is_404 (error : thrown) : bool :=
  strict_eq (thrown_status error) (VNum (Dec 404 0))
  || match thrown_message error with
     | VStr m => truthy (VStr m) && includes m (js "404")
     | _ => false
     end.

Definition is_429 (error : thrown) : bool :=
  strict_eq (thrown_status error) (VNum (Dec 429 0)).

Definition errorMessage (error : thrown) : jsstring :=
  errorMessageFor (is_404 error) (is_429 error).

Definition internalLog (error : thrown) : jsstring :=
  internalLogFor (is_404 error) (is_429 error).

Definition fallbackResponse (error : thrown) : value :=
  fallbackFor (is_404 error) (is_429 error).

Definition catchError (error : thrown) : completion value :=
  Normal (fallbackResponse error).

(** [error.message.includes('404')] for a truthy [message]: the method
    of a string or of an array; any other value has no [includes] to
    call. *)
Definition message_includes_404 (env : Env) (message : value) : completion bool :=
  match message with
  | VStr m => Normal (includes m (js "404"))
  | VArr items => Normal (existsb (fun x => strict_eq x (VStr (js "404"))) items)
  | _ => Throw (not_a_function_error env (js "error.message.includes"))
  end.

(** The same block when what was caught is [reason], any other value.
    The block reads [error.status] first, which raises a
    [TypeError] on [null] and [undefined]; unless the status is 404 it
    then looks at [error.message] and, if that is truthy, calls its
    [includes].  A [TypeError] raised in the block leaves the function
    as a rejection. *)
Definition catchValue (env : Env) (reason : value) : completion value :=
  status <- read env reason (js "status") ;;
  is404 <-
    (if strict_eq status (VNum (Dec 404 0)) then Normal true
     else
       message <- read env reason (js "message") ;;
       if truthy message then message_includes_404 env message else Normal false) ;;
  Normal (fallbackFor is404 (strict_eq status (VNum (Dec 429 0)))).

(** [genAI] is the client once [initializeGemini] has had its chance:
    [None] when no API key is configured. *)
Definition sendMessageToEduMind (env : Env)
    (genAI : option (GenerateRequest -> GenerateResult))
    (systemPrompt : jsstring) (history : list ChatMessage) (userMessage : jsstring)
  : completion value :=
  match genAI with
  | None => Throw (new_Error (js "API Key missing"))
  | Some generateContent =>
      match generateContent (generateRequest systemPrompt history userMessage) with
      | GenerateRejects e => try_catch (Throw e) catchError
      | GenerateRejectsWith reason => catchValue env reason
      | GenerateResolves text =>
          try_catch
            match text with
            | None => Throw (new_Error (js "Empty response from model"))
            | Some text =>
                match text with
                | [] => Throw (new_Error (js "Empty response from model"))
                | _ :: _ => parseText text
                end
            end
            catchError
      end
  end.

End GeminiService.

(** ** [services/db.ts] and [App.tsx] *)

Module App.

(** The React state of the component. *)
Record AppState := {
  subject : Subject;
  mode : TaskMode;
  student : StudentProfile;
  apiUrl : jsstring;
  modelName : jsstring;
  messages : list ChatMessage;
  input : jsstring;
  isLoading : bool;
  currentState : value;
  lastMetadata : value
}.

(** The initial values given to [useState]. *)
Definition initialAppState : AppState :=
  {| subject := MATH;
     mode := MISTAKE_ANALYSIS;
     student := {| name := js "Guest Student"; age := 12; grade := MIDDLE;
                   masteryLevel := Intermediate; email := js "guest@edumind.ai";
                   password := None |};
     apiUrl := js "http://localhost:8000/v1/chat/completions";
     modelName := js "edu-32b-finetuned";
     messages := [];
     input := [];
     isLoading := false;
     currentState := state_value GUIDING;
     lastMetadata := VUndefined |}.

(** The object stores of [EduMindDB] that a turn writes: [mistakes]
    (keyed by an auto-incremented id) and [chats] (keyed by e-mail). *)
Record Database := {
  mistakes : list (Z * MistakeRecord.t);
  mistake_key : Z;
  chats : list (jsstring * (list ChatMessage * Z))
}.

(** The calls made on [dbService], in order. *)
Inductive DbCall :=
| AddMistake (record : MistakeRecord.t)
| SaveChatHistory (userEmail : jsstring) (msgs : list ChatMessage).

(** What a turn can change: the React state as the queued updates leave
    it, the database, how often the clock and the database were used,
    and the log of [dbService] calls. *)
Record World := {
  react : AppState;
  db : Database;
  clock_reads : nat;
  db_ops : nat;
  calls : list DbCall
}.

Definition M (A : Type) : Type := World -> completion A * World.

Definition ret {A : Type} (a : A) : M A := fun w => (Normal a, w).

Definition raise {A : Type} (e : thrown) : M A := fun w => (Throw e, w).

Definition bindM {A B : Type} (c : M A) (k : A -> M B) : M B :=
  fun w =>
    match c w with
    | (Normal a, w1) => k a w1
    | (Throw e, w1) => (Throw e, w1)
    end.

Definition lift {A : Type} (c : completion A) : M A := fun w => (c, w).

(** [try { c } catch (e) { handler e }] *)
Definition catchM {A : Type} (c : M A) (handler : thrown -> M A) : M A :=
  fun w =>
    match c w with
    | (Normal a, w1) => (Normal a, w1)
    | (Throw e, w1) => handler e w1
    end.

(** [try { c } finally { f }] *)
Definition finallyM {A : Type} (c : M A) (f : M unit) : M A :=
  fun w =>
    match c w with
    | (r, w1) =>
        match f w1 with
        | (Normal _, w2) => (r, w2)
        | (Throw e, w2) => (Throw e, w2)
        end
    end.

Declare Scope turn_scope.
Delimit Scope turn_scope with turn.
Notation "x <-- c ;; k" := (bindM c (fun x => k))
  (at level 61, c at next level, right associativity) : turn_scope.
Notation "c ;;; k" := (bindM c (fun _ => k))
  (at level 61, right associativity) : turn_scope.
Local Open Scope turn_scope.

Definition update_react (f : AppState -> AppState) : M unit :=
  fun w => (Normal tt,
            {| react := f (react w); db := db w; clock_reads := clock_reads w;
               db_ops := db_ops w; calls := calls w |}).

Definition setMessages (f : list ChatMessage -> list ChatMessage) : M unit :=
  update_react (fun s =>
    {| subject := subject s; mode := mode s; student := student s; apiUrl := apiUrl s;
       modelName := modelName s; messages := f (messages s); input := input s;
       isLoading := isLoading s; currentState := currentState s;
       lastMetadata := lastMetadata s |}).

Definition setInput (v : jsstring) : M unit :=
  update_react (fun s =>
    {| subject := subject s; mode := mode s; student := student s; apiUrl := apiUrl s;
       modelName := modelName s; messages := messages s; input := v;
       isLoading := isLoading s; currentState := currentState s;
       lastMetadata := lastMetadata s |}).

Definition setIsLoading (b : bool) : M unit :=
  update_react (fun s =>
    {| subject := subject s; mode := mode s; student := student s; apiUrl := apiUrl s;
       modelName := modelName s; messages := messages s; input := input s;
       isLoading := b; currentState := currentState s;
       lastMetadata := lastMetadata s |}).

Definition setCurrentState (v : value) : M unit :=
  update_react (fun s =>
    {| subject := subject s; mode := mode s; student := student s; apiUrl := apiUrl s;
       modelName := modelName s; messages := messages s; input := input s;
       isLoading := isLoading s; currentState := v;
       lastMetadata := lastMetadata s |}).

Definition setLastMetadata (v : value) : M unit :=
  update_react (fun s =>
    {| subject := subject s; mode := mode s; student := student s; apiUrl := apiUrl s;
       modelName := modelName s; messages := messages s; input := input s;
       isLoading := isLoading s; currentState := currentState s;
       lastMetadata := v |}).

(** [Date.now()] *)
Definition Date_now (env : Env) : M Z :=
  fun w => (Normal (now env (clock_reads w)),
            {| react := react w; db := db w; clock_reads := S (clock_reads w);
               db_ops := db_ops w; calls := calls w |}).

(** A property read on the response. *)
Definition readM (env : Env) (v : value) (k : jsstring) : M value :=
  lift (read env v k).

(** *** [dbService] *)

Definition log_call (c : DbCall) : M unit :=
  fun w => (Normal tt,
            {| react := react w; db := db w; clock_reads := clock_reads w;
               db_ops := db_ops w; calls := calls w ++ [c] |}).

(** The fault, if any, that strikes the next database operation. *)
Definition next_fault (env : Env) : M DbFault :=
  fun w => (Normal (db_fault env (db_ops w)),
            {| react := react w; db := db w; clock_reads := clock_reads w;
               db_ops := S (db_ops w); calls := calls w |}).

Definition update_db (f : Database -> Database) : M unit :=
  fun w => (Normal tt,
            {| react := react w; db := f (db w); clock_reads := clock_reads w;
               db_ops := db_ops w; calls := calls w |}).

(** [store.add(record)] on the [mistakes] store. *)
Definition store_add (record : MistakeRecord.t) (d : Database) : Database :=
  {| mistakes := mistakes d ++ [(mistake_key d, record)];
     mistake_key := (mistake_key d + 1)%Z;
     chats := chats d |}.

(** [store.put(entry)] on the [chats] store. *)
Definition store_put (userEmail : jsstring) (entry : list ChatMessage * Z) (d : Database)
  : Database :=
  {| mistakes := mistakes d;
     mistake_key := mistake_key d;
     chats := (userEmail, entry)
              :: filter (fun kv => negb (jsstring_eqb (fst kv) userEmail)) (chats d) |}.

Definition addMistake (env : Env) (record : MistakeRecord.t) : M unit :=
  log_call (AddMistake record) ;;;
  fault <-- next_fault env ;;
  match fault with
  | OpenFails errorCode => raise (ThrownString (js "Database error: " ++ errorCode))
  | RequestFails => raise (ThrownString (js "Failed to add mistake"))
  | NoFault => update_db (store_add record)
  end.

Definition saveChatHistory (env : Env) (userEmail : jsstring) (msgs : list ChatMessage)
  : M unit :=
  log_call (SaveChatHistory userEmail msgs) ;;;
  fault <-- next_fault env ;;
  match fault with
  | OpenFails errorCode => raise (ThrownString (js "Database error: " ++ errorCode))
  | _ =>
      updatedAt <-- Date_now env ;;
      match fault with
      | RequestFails => raise (ThrownString (js "Failed to save chat"))
      | _ => update_db (store_put userEmail (msgs, updatedAt))
      end
  end.

(** *** [handleSend] *)

Definition redirectMessage : jsstring :=
  js "I noticed you asked for the answer directly. Let's try to solve it step-by-step first. What is your first thought?".

Definition systemErrorMessage : jsstring :=
  js "System Error: Could not process logic.".

(** The condition of step 4, [mode === TaskMode.MISTAKE_ANALYSIS &&
    response.knowledge_point_id && response.internal_monologue], read
    from left to right. *)
Definition shouldRecordMistake (env : Env) (mode : TaskMode) (response : value) : M bool :=
  if TaskMode_eqb mode MISTAKE_ANALYSIS then
    knowledge_point_id <-- readM env response (js "knowledge_point_id") ;;
    if truthy knowledge_point_id then
      internal_monologue <-- readM env response (js "internal_monologue") ;;
      ret (truthy internal_monologue)
    else ret false
  else ret false.

(** The body of the [try] block.  [st] is the state the handler closed
    over when the component was rendered. *)
Definition exchange (env : Env) (st : AppState) (userMsg : ChatMessage)
    (userText : jsstring) (updatedMessages : list ChatMessage) : M unit :=
  (* 1. Dynamic System Prompt Generation *)
  let systemPrompt :=
    constructSystemPrompt (subject st) (student st) (mode st) (currentState st) in
  (* 2. Call Local API *)
  response <-- lift (sendMessageToLocalLLM env (apiUrl st) (modelName st)
                       systemPrompt (messages st) userText) ;;
  (* 3. State Management Update *)
  setLastMetadata response ;;;
  suggested <-- readM env response (js "suggested_next_state") ;;
  (if truthy suggested && negb (strict_eq suggested (currentState st))
   then setCurrentState suggested
   else ret tt) ;;;
  (* 4. Mistake Recording Logic *)
  record <-- shouldRecordMistake env (mode st) response ;;
  (if record then
     analysis <-- readM env response (js "internal_monologue") ;;
     knowledgePoint <-- readM env response (js "knowledge_point_id") ;;
     t <-- Date_now env ;;
     addMistake env
       {| MistakeRecord.userEmail := email (student st);
          MistakeRecord.subject := subject st;
          MistakeRecord.question := substring0 100 userText;
          MistakeRecord.analysis := analysis;
          MistakeRecord.knowledgePoint := knowledgePoint;
          MistakeRecord.timestamp := t |}
   else ret tt) ;;;
  (* 5. Response Construction *)
  content_for_user <-- readM env response (js "content_for_user") ;;
  is_direct_answer_attempt <-- readM env response (js "is_direct_answer_attempt") ;;
  let displayContent :=
    if truthy is_direct_answer_attempt && strict_eq (currentState st) (state_value GUIDING)
    then VStr redirectMessage
    else content_for_user in
  t_id <-- Date_now env ;;
  t_stamp <-- Date_now env ;;
  let botMsg :=
    {| id := Z_toString (t_id + 1); role := assistant; content := displayContent;
       metadata := response; timestamp := t_stamp |} in
  let finalMessages := updatedMessages ++ [botMsg] in
  setMessages (fun _ => finalMessages) ;;;
  (* Persist to DB *)
  saveChatHistory env (email (student st)) finalMessages.

(** The [catch] block. *)
Definition reportError (env : Env) : M unit :=
  t_id <-- Date_now env ;;
  t_stamp <-- Date_now env ;;
  let errorMsg :=
    {| id := Z_toString t_id; role := assistant; content := VStr systemErrorMessage;
       metadata := VUndefined; timestamp := t_stamp |} in
  setMessages (fun prev => prev ++ [errorMsg]).

Definition handleSend (env : Env) (st : AppState) : M unit :=
  if negb (truthy (VStr (trim (input st)))) || isLoading st then ret tt
  else
    t_id <-- Date_now env ;;
    t_stamp <-- Date_now env ;;
    let userMsg :=
      {| id := Z_toString t_id; role := user; content := VStr (input st);
         metadata := VUndefined; timestamp := t_stamp |} in
    let updatedMessages := messages st ++ [userMsg] in
    setMessages (fun _ => updatedMessages) ;;;
    setInput [] ;;;
    setIsLoading true ;;;
    finallyM
      (catchM (exchange env st userMsg (input st) updatedMessages)
              (fun _ => reportError env))
      (setIsLoading false).

(** The world in which a handler that closed over [st] starts to run. *)
Definition world_of (st : AppState) (d : Database) : World :=
  {| react := st; db := d; clock_reads := 0; db_ops := 0; calls := [] |}.

(** One click on the send button. *)
Definition turn (env : Env) (st : AppState) (d : Database) : World :=
  snd (handleSend env st (world_of st d)).

(** [handleResetSession] *)
Definition handleResetSession (env : Env) (st : AppState) : M unit :=
  t <-- Date_now env ;;
  let resetMsg :=
    {| id := js "reset"; role := assistant;
       content := VStr (js "Session reset. Ready for " ++ Grade_text (grade (student st))
                        ++ js " " ++ Subject_text (subject st) ++ js ".");
       metadata := VUndefined; timestamp := t |} in
  setMessages (fun _ => [resetMsg]) ;;;
  setCurrentState (state_value GUIDING) ;;;
  setLastMetadata VUndefined ;;;
  saveChatHistory env (email (student st)) [resetMsg].

End App.
Import App.

(** ** Vocabulary of the statements *)

Module Observe.

(** Steps 1 and 2 of [handleSend]: the call a turn makes on the gateway. *)
Definition inference (env : Env) (st : AppState) : completion value :=
  sendMessageToLocalLLM env (apiUrl st) (modelName st)
    (constructSystemPrompt (subject st) (student st) (mode st) (currentState st))
    (messages st) (input st).

(** The request that call sends. *)
Definition inferenceRequest (st : AppState) : Request :=
  localRequest (apiUrl st) (modelName st)
    (constructSystemPrompt (subject st) (student st) (mode st) (currentState st))
    (messages st) (input st).

(** The field [k] of a response, as a read finds it. *)
Definition field (response : value) (k : string) : value := opt_prop response (js k).

(** The ways an invocation of the gateway goes wrong: the HTTP call
    fails; the status is not a success; what comes back cannot be
    parsed, be it the body of the HTTP response or the completion
    inside it (after cleaning). *)
Definition goesWrong (env : Env) (request : Request) : Prop :=
  match fetch env request with
  | FetchRejects _ => True
  | FetchResolves status _ payload =>
      status_ok status = false \/
      match payload with
      | BodyFails _ => True
      | BodyText text =>
          match JSON_parse text with
          | None => True
          | Some data =>
              match get_prop data (js "choices") with
              | None => True
              | Some choices =>
                  match firstChoiceContent choices with
                  | VStr raw => JSON_parse (cleanedJson raw) = None
                  | _ => True
                  end
              end
          end
      end
  end.

(** The records handed to [dbService.addMistake] during a turn. *)
Definition mistakeRecords (w : World) : list MistakeRecord.t :=
  flat_map (fun c => match c with AddMistake r => [r] | SaveChatHistory _ _ => [] end)
           (calls w).

(** The messages a turn added to the transcript [st] started from. *)
Definition appended (st : AppState) (w : World) : list ChatMessage :=
  skipn (List.length (messages st)) (messages (react w)).

(** The wording of the state directives of [constructSystemPrompt], row
    by row of the directive table: no direct answers, guiding questions,
    small hints only, process over result; a clear conceptual
    explanation with analogies for the grade, linked to the real world;
    a new similar problem. *)
Definition directives (g : Grade) (s : PedagogicalState) : list jsstring :=
  match s with
  | GUIDING =>
      [js "DO NOT provide direct answers";
       js "Ask guiding questions";
       js "provide a small hint, but not the solution";
       js "Focus on the " ++ dq ++ js "Process" ++ dq ++ js ", not the " ++ dq
         ++ js "Result" ++ dq]
  | EXPLAINING =>
      [js "Provide clear, conceptual explanations using analogies suitable for a "
         ++ Grade_text g ++ js " student";
       js "Link the concept to real-world examples"]
  | QUIZZING =>
      [js "Generate a NEW similar problem";
       js "Verify if they can apply the knowledge independently"]
  end.

Definition PedagogicalState_eqb (a b : PedagogicalState) : bool :=
  match a, b with
  | GUIDING, GUIDING | EXPLAINING, EXPLAINING | QUIZZING, QUIZZING => true
  | _, _ => false
  end.

(** The recovery policy in the words of the specification: parse the
    raw text directly; only if that fails strip the code fences and
    parse again; only if that fails too, [None] (MalformedResponse). *)
Definition recoveryPolicy (rawText : jsstring) : option value :=
  match JSON_parse rawText with
  | Some record => Some record
  | None => JSON_parse (trim (strip_fences rawText))
  end.

(** The body of a successful chat completion whose only choice is
    [content]. *)
Definition completionBody (content : jsstring) : jsstring :=
  stringify
    (VObj [(js "choices",
            VArr [VObj [(js "message", VObj [(js "content", VStr content)])]])]).

(** An endpoint that answers every request with [content], a clock that
    ticks and a database without faults. *)
Definition answering (content : jsstring) : Env :=
  {| fetch := fun _ => FetchResolves 200 (js "OK") (BodyText (completionBody content));
     json_syntax_error := fun _ => JsError (js "SyntaxError") (js "Unexpected token");
     null_read_error := fun _ => JsError (js "TypeError") (js "Cannot read properties of null");
     not_a_function_error :=
       fun callee => JsError (js "TypeError") (callee ++ js " is not a function");
     now := fun k => (1700000000000 + Z.of_nat k)%Z;
     db_fault := fun _ => NoFault |}.

(** The same endpoint with a database whose first operation fails. *)
Definition answeringDbDown (content : jsstring) : Env :=
  {| fetch := fetch (answering content);
     json_syntax_error := json_syntax_error (answering content);
     null_read_error := null_read_error (answering content);
     not_a_function_error := not_a_function_error (answering content);
     now := now (answering content);
     db_fault := fun k => match k with O => RequestFails | S _ => NoFault end |}.

(** An endpoint that refuses with status 500. *)
Definition serverError : Env :=
  {| fetch := fun _ => FetchResolves 500 (js "Internal Server Error") (BodyText []);
     json_syntax_error := json_syntax_error (answering []);
     null_read_error := null_read_error (answering []);
     not_a_function_error := not_a_function_error (answering []);
     now := now (answering []);
     db_fault := fun _ => NoFault |}.

(** An endpoint nobody listens on. *)
Definition unreachable : Env :=
  {| fetch := fun _ => FetchRejects (JsError (js "TypeError") (js "Failed to fetch"));
     json_syntax_error := json_syntax_error (answering []);
     null_read_error := null_read_error (answering []);
     not_a_function_error := not_a_function_error (answering []);
     now := now (answering []);
     db_fault := fun _ => NoFault |}.

Definition emptyDatabase : Database :=
  {| mistakes := []; mistake_key := 1; chats := [] |}.

(** The initial state with a question typed in. *)
Definition asking (m : TaskMode) (cs : value) (question : jsstring) : AppState :=
  {| subject := subject initialAppState; mode := m; student := student initialAppState;
     apiUrl := apiUrl initialAppState; modelName := modelName initialAppState;
     messages := messages initialAppState; input := question; isLoading := false;
     currentState := cs; lastMetadata := VUndefined |}.

End Observe.
Import Observe.

(** ** Auxiliary definitions of the proofs and sample data *)

Module Samples.

Definition digit_free (kw : jsstring) : bool := forallb (fun c => negb (is_digit c)) kw.

(** A profile that has nothing but a grade and a mastery level. *)
Definition bare (g : Grade) (ml : MasteryLevel) : StudentProfile :=
  {| name := []; age := 0; grade := g; masteryLevel := ml; email := [];
     password := None |}.

(** The instruction text before and after the learner's age. *)
Definition promptPrefix (subject : Subject) (g : Grade) : jsstring :=
  baseIdentity subject ++ js "
  " ++ js "Your student is in " ++ Grade_text g ++ js " (approx ".

Definition promptSuffix (g : Grade) (ml : MasteryLevel) (mode : TaskMode)
    (currentState : value) : jsstring :=
  js " years old). 
  Adjust your vocabulary and tone to be age-appropriate. 
  Current Mastery Level: "
  ++ MasteryLevel_text ml ++ js "." ++ js "
  " ++ modeDirectives mode ++ js "
  " ++ behavioralDirectives (bare g ml) currentState ++ js "
  " ++ outputFormat.

Definition plain (kw : jsstring) : bool :=
  digit_free kw && match kw with [] => false | _ :: _ => true end.

Definition styleWords : list jsstring :=
  [js "concrete"; js "definition"; js "formal"; js "everyday"; js "daily life";
   js "simple analogies"].

(** The record the outer [catch] returns, as a well-shaped response. *)
Definition fallbackRecord (endpoint diagnostic : jsstring) : StructuredAIResponse :=
  {| content_for_user :=
       js "⚠️ Connection Error: I cannot reach your local model. Please check if vLLM/Ollama is running on port 8000.";
     internal_monologue :=
       js "Connection failed to " ++ endpoint ++ js ". Error: " ++ diagnostic;
     knowledge_point_id := js "ERR_CONN";
     student_mastery_score := 0;
     suggested_next_state := GUIDING;
     is_direct_answer_attempt := false |}.

Definition systemEntry (systemPrompt : jsstring) : ApiMessage.t :=
  {| ApiMessage.role := js "system"; ApiMessage.content := VStr systemPrompt |}.

Definition userEntry (userMessage : jsstring) : ApiMessage.t :=
  {| ApiMessage.role := js "user"; ApiMessage.content := VStr userMessage |}.

Definition isSystemEntry (m : ApiMessage.t) : bool :=
  jsstring_eqb (ApiMessage.role m) (js "system").

(** A valid response whose visible text shows inline code between
    backticks, and the JSON text the model sends for it. *)
Definition codeAnswer : StructuredAIResponse :=
  {| content_for_user := js "Type ```x``` to mark x as code.";
     internal_monologue := js "The student asked how to format code.";
     knowledge_point_id := js "CS_01_MARKDOWN";
     student_mastery_score := 40;
     suggested_next_state := EXPLAINING;
     is_direct_answer_attempt := false |}.

Definition codeAnswerText : jsstring := stringify (response_value codeAnswer).

(** The same response with the backticks gone. *)
Definition codeAnswerStripped : StructuredAIResponse :=
  {| content_for_user := js "Type x to mark x as code.";
     internal_monologue := internal_monologue codeAnswer;
     knowledge_point_id := knowledge_point_id codeAnswer;
     student_mastery_score := student_mastery_score codeAnswer;
     suggested_next_state := suggested_next_state codeAnswer;
     is_direct_answer_attempt := is_direct_answer_attempt codeAnswer |}.

(** A valid response that talks about code fences. *)
Definition fenceAnswer : StructuredAIResponse :=
  {| content_for_user := js "Open the block with ```json and close it with ```.";
     internal_monologue := js "Explaining fenced blocks.";
     knowledge_point_id := js "CS_02_FENCES";
     student_mastery_score := 55;
     suggested_next_state := GUIDING;
     is_direct_answer_attempt := false |}.

Definition fenceAnswerText : jsstring := stringify (response_value fenceAnswer).

Definition fenced (payload : jsstring) : jsstring :=
  js "```json
" ++ payload ++ js "
```".

Definition geminiAnswering (text : jsstring)
  : option (GeminiService.GenerateRequest -> GenerateResult) :=
  Some (fun _ => GenerateResolves (Some text)).

(** A model answer that gives the result away. *)
Definition directAnswer : StructuredAIResponse :=
  {| content_for_user := js "The answer is 5/6.";
     internal_monologue := js "The student asked for the result without trying.";
     knowledge_point_id := js "MATH_05_FRACTIONS";
     student_mastery_score := 20;
     suggested_next_state := EXPLAINING;
     is_direct_answer_attempt := true |}.

Definition question : jsstring := js "Just tell me what 1/2 + 1/3 is.".

Definition tutor : Env := answering (stringify (response_value directAnswer)).

(** The turn of the counterexample to the guardrail claim: the question
    asked in mistake-analysis mode and state GUIDING, answered by
    [directAnswer], with a database that rejects its first operation. *)
Definition guidingTurn : AppState :=
  asking MISTAKE_ANALYSIS (state_value GUIDING) question.

Definition failingStore : Env :=
  answeringDbDown (stringify (response_value directAnswer)).

(** A transcript of three turns, the last an assistant turn that
    displays the redirect message and carries [directAnswer]. *)
Definition welcomeMsg : ChatMessage :=
  {| id := js "welcome"; role := assistant;
     content := VStr (js "Welcome! I'm ready to help you with Middle School Mathematics.");
     metadata := VUndefined; timestamp := 1700000000000 |}.

Definition redirectedMsg : ChatMessage :=
  {| id := js "1700000000003"; role := assistant; content := VStr redirectMessage;
     metadata := response_value directAnswer; timestamp := 1700000000003 |}.

Definition sampleHistory : list ChatMessage :=
  [ welcomeMsg;
    {| id := js "1700000000001"; role := user; content := VStr question;
       metadata := VUndefined; timestamp := 1700000000001 |};
    redirectedMsg ].

End Samples.
Import Samples.

(** ** Values that survive a round trip through JSON text *)

Module JsonText.

(** Induction on values, with the hypothesis on every item of an array
    and on every member of an object. *)
Section ValueInduction.
Variable P : value -> Prop.
Hypothesis Hundefined : P VUndefined.
Hypothesis Hnull : P VNull.
Hypothesis Hbool : forall b, P (VBool b).
Hypothesis Hnum : forall n, P (VNum n).
Hypothesis Hstr : forall s, P (VStr s).
Hypothesis Harr : forall items, Forall P items -> P (VArr items).
Hypothesis Hobj : forall fields, Forall (fun kv => P (snd kv)) fields -> P (VObj fields).

Fixpoint value_induction (v : value) : P v :=
  match v with
  | VUndefined => Hundefined
  | VNull => Hnull
  | VBool b => Hbool b
  | VNum n => Hnum n
  | VStr s => Hstr s
  | VArr items =>
      Harr ((fix all (l : list value) : Forall P l :=
               match l with
               | [] => Forall_nil P
               | x :: l' => Forall_cons x (value_induction x) (all l')
               end) items)
  | VObj fields =>
      Hobj ((fix all (l : list (jsstring * value)) : Forall (fun kv => P (snd kv)) l :=
               match l with
               | [] => Forall_nil _
               | kv :: l' =>
                   Forall_cons (P := fun kv => P (snd kv)) kv
                     (value_induction (snd kv)) (all l')
               end) fields)
  end.
End ValueInduction.

(** A number that prints to a text [JSON.parse] reads back as the same
    decimal. *)
Definition number_ok (n : number) : bool :=
  match parse_number (number_toString n) with
  | Some (n', []) => (mant n' =? mant n)%Z && (expo n' =? expo n)%Z
  | _ => false
  end.

Fixpoint distinct (keys : list jsstring) : bool :=
  match keys with
  | [] => true
  | k :: rest => negb (existsb (jsstring_eqb k) rest) && distinct rest
  end.

(** The keys an object can have: no key twice, in the engine's order. *)
Definition well_keyed (keys : list jsstring) : bool :=
  distinct keys && in_key_order keys.

(** The values [JSON.stringify] prints in full and [JSON.parse] reads
    back: no [undefined] inside, the keys of every object distinct and
    in the engine's order. *)
Fixpoint clean (v : value) : bool :=
  match v with
  | VUndefined => false
  | VNull | VBool _ | VStr _ => true
  | VNum n => number_ok n
  | VArr items => forallb clean items
  | VObj fields =>
      well_keyed (map fst fields) && forallb (fun kv => clean (snd kv)) fields
  end.

(** The nesting and the number of members [parse_value] has to have fuel
    for. *)
Fixpoint need (v : value) : nat :=
  match v with
  | VArr items => S (Nat.max (List.length items) (list_max (map need items)))
  | VObj fields =>
      S (Nat.max (List.length fields) (list_max (map (fun kv => need (snd kv)) fields)))
  | _ => 1
  end.

(** What may follow a number in a JSON text. *)
Definition ends_number (rest : jsstring) : bool :=
  match rest with
  | [] => true
  | c :: _ => negb (is_digit c || (c =? 46) || (c =? 101) || (c =? 69))%N
  end.

(** The code units a printed value can start with. *)
Definition opens_value (c : jschar) : bool :=
  existsb (N.eqb c)
    [110; 116; 102; 34; 91; 123; 45; 48; 49; 50; 51; 52; 53; 54; 55; 56; 57]%N.

Definition member_text (kv : jsstring * value) : jsstring :=
  quote (fst kv) ++ js ":" ++ stringify (snd kv).

End JsonText.
Import JsonText.

(** ** Completions as the model sends them *)

Module Completions.

(** A text without a run of three backticks. *)
Definition fence_free (text : jsstring) : bool := negb (includes text (js "```")).

(** The ways a model fences its answer: the opening fence with or
    without the [json] tag, each fence on a line of its own or not. *)
Definition fence_open (tagged newline : bool) : jsstring :=
  js "```" ++ (if tagged then js "json" else []) ++ (if newline then [10%N] else []).

Definition fence_close (newline : bool) : jsstring :=
  (if newline then [10%N] else []) ++ js "```".

Definition wrapped (tagged newline_after newline_before : bool) (payload : jsstring)
  : jsstring :=
  fence_open tagged newline_after ++ payload ++ fence_close newline_before.

(** The score is an integer of the range the contract gives. *)
Definition well_scored (r : StructuredAIResponse) : bool :=
  ((0 <=? student_mastery_score r) && (student_mastery_score r <=? 100))%Z.

(** The object a chat-completion body denotes when its only choice is
    [content]. *)
Definition completionData (content : jsstring) : value :=
  VObj [(js "choices",
         VArr [VObj [(js "message", VObj [(js "content", VStr content)])]])].

(** What the model delivers for a payload: the payload itself, or the
    payload inside code fences. *)
Inductive delivers (payload : jsstring) : jsstring -> Prop :=
| delivers_bare : delivers payload payload
| delivers_fenced (tagged newline_after newline_before : bool) :
    delivers payload (wrapped tagged newline_after newline_before payload).

(** A prior turn whose entry in the request carries a string: an
    assistant turn with a response attached, or any turn whose content
    is a string. *)
Definition sendable (h : ChatMessage) : bool :=
  Role_eqb (role h) assistant && truthy (metadata h)
  || match content h with VStr _ => true | _ => false end.

End Completions.
Import Completions.

(** ** The text of a request *)

Module RequestText.

(** The JSON text of one message: its role, then its content unless
    that is [undefined]. *)
Definition entryText (m : ApiMessage.t) : jsstring :=
  js "{" ++ quote (js "role") ++ js ":" ++ quote (ApiMessage.role m)
  ++ match ApiMessage.content m with
     | VUndefined => []
     | c => js "," ++ quote (js "content") ++ js ":" ++ stringify c
     end
  ++ js "}".

(** The JSON text of a request for the model [modelName] that carries
    the messages [msgs]. *)
Definition requestText (modelName : jsstring) (msgs : list ApiMessage.t) : jsstring :=
  js "{" ++ quote (js "model") ++ js ":" ++ quote modelName
  ++ js "," ++ quote (js "messages") ++ js ":"
  ++ js "[" ++ join_with (js ",") (map entryText msgs) ++ js "]"
  ++ js "," ++ quote (js "temperature") ++ js ":" ++ js "0.7"
  ++ js "," ++ quote (js "max_tokens") ++ js ":" ++ js "2048"
  ++ js "," ++ quote (js "response_format") ++ js ":"
  ++ js "{" ++ quote (js "type") ++ js ":" ++ quote (js "json_object") ++ js "}"
  ++ js "}".

End RequestText.
Import RequestText.

(** ** [services/db.ts]: reading the stores *)

Module DbReads.

Local Open Scope turn_scope.

Definition read_db : M Database := fun w => (Normal (db w), w).

(** [store.get(key)] on a store keyed by a string. *)
Fixpoint store_get (A : Type) (key : jsstring) (store : list (jsstring * A)) : option A :=
  match store with
  | [] => None
  | (k, a) :: rest => if jsstring_eqb k key then Some a else store_get key rest
  end.

(** [getChatHistory]: a failure to open the database rejects (the
    [await this.openDB()] stands outside the promise); a failed request
    resolves to the empty array. *)
Definition getChatHistory (env : Env) (userEmail : jsstring) : M (list ChatMessage) :=
  fault <-- next_fault env ;;
  match fault with
  | OpenFails errorCode => raise (ThrownString (js "Database error: " ++ errorCode))
  | RequestFails => ret []
  | NoFault =>
      d <-- read_db ;;
      ret match store_get userEmail (chats d) with
          | Some (msgs, _) => msgs
          | None => []
          end
  end.

(** [index.getAll(userEmail)] on the index [userEmail] of the
    [mistakes] store: the records of that user with their keys, in key
    order ([mistakes d] lists the store in key order). *)
Definition index_getAll (userEmail : jsstring) (store : list (Z * MistakeRecord.t))
  : list (Z * MistakeRecord.t) :=
  filter (fun kv => jsstring_eqb (MistakeRecord.userEmail (snd kv)) userEmail) store.

Definition getUserMistakes (env : Env) (userEmail : jsstring)
  : M (list (Z * MistakeRecord.t)) :=
  fault <-- next_fault env ;;
  match fault with
  | OpenFails errorCode => raise (ThrownString (js "Database error: " ++ errorCode))
  | RequestFails => ret []
  | NoFault =>
      d <-- read_db ;;
      ret (index_getAll userEmail (mistakes d))
  end.

(** The keys of the [mistakes] store grow along the list and stay below
    the next key of the generator. *)
Definition keys_in_order (d : Database) : Prop :=
  StronglySorted Z.lt (map fst (mistakes d))
  /\ Forall (fun k => (k < mistake_key d)%Z) (map fst (mistakes d)).

End DbReads.
Import DbReads.

(** ** [App.tsx]: loading the history when the component mounts *)

Module AppMount.

Local Open Scope turn_scope.

Definition welcomeMessage (st : AppState) (t : Z) : ChatMessage :=
  {| id := js "welcome"; role := assistant;
     content := VStr (js "Welcome! I'm ready to help you with "
                      ++ Grade_text (grade (student st)) ++ js " "
                      ++ Subject_text (subject st) ++ js ".");
     metadata := VUndefined; timestamp := t |}.

Definition loadHistory (env : Env) (st : AppState) : M unit :=
  if truthy (VStr (email (student st))) then
    history <-- getChatHistory env (email (student st)) ;;
    match history with
    | _ :: _ => setMessages (fun _ => history)
    | [] =>
        t <-- Date_now env ;;
        setMessages (fun _ => [welcomeMessage st t])
    end
  else ret tt.

(** The effect run from the state [st] over the database [d]. *)
Definition mount (env : Env) (st : AppState) (d : Database) : World :=
  snd (loadHistory env st (world_of st d)).

(** One click on the reset button. *)
Definition reset (env : Env) (st : AppState) (d : Database) : completion unit * World :=
  handleResetSession env st (world_of st d).

End AppMount.
Import AppMount.

(** ** [Array.prototype.sort] *)

Module JsArray.

(** The place of [x] in a list sorted by [compare]: before the first
    element it does not come after. *)
Fixpoint insert_sorted (A : Type) (compare : A -> A -> Z) (x : A) (l : list A) : list A :=
  match l with
  | [] => [x]
  | y :: rest =>
      if (compare x y <=? 0)%Z then x :: l else y :: insert_sorted compare x rest
  end.

(** [l.sort(compare)].  The sort is stable; with a comparator that is a
    consistent order the outcome does not depend on the algorithm of the
    engine, so an insertion sort stands for it. *)
Definition sort (A : Type) (compare : A -> A -> Z) (l : list A) : list A :=
  fold_right (insert_sorted compare) [] l.

End JsArray.

(** ** [components/MistakeBook.tsx] *)

Module MistakeBook.

(** The state of the component; a record read from the store carries
    its key as [id]. *)
Record State := {
  mistakes : list (Z * MistakeRecord.t);
  loading : bool
}.

Definition initialState : State := {| mistakes := []; loading := true |}.

(** [(a, b) => b.timestamp - a.timestamp] *)
Definition newestFirst (a b : Z * MistakeRecord.t) : Z :=
  (MistakeRecord.timestamp (snd b) - MistakeRecord.timestamp (snd a))%Z.

(** [loadMistakes]: the [try] sets the sorted records, the [catch] only
    logs, the [finally] clears [loading]. *)
Definition loadMistakes (env : Env) (userEmail : jsstring) (s : State) : M State :=
  fun w =>
    match getUserMistakes env userEmail w with
    | (Normal data, w1) =>
        (Normal {| mistakes := JsArray.sort newestFirst data; loading := false |}, w1)
    | (Throw _, w1) =>
        (Normal {| mistakes := mistakes s; loading := false |}, w1)
    end.

(** The book as it shows for [userEmail] over the database [d]. *)
Definition shown (env : Env) (userEmail : jsstring) (d : Database) : State :=
  match loadMistakes env userEmail initialState
          {| react := initialAppState; db := d; clock_reads := 0; db_ops := 0; calls := [] |}
  with
  | (Normal s, _) => s
  | (Throw _, _) => initialState
  end.

End MistakeBook.

(** ** Vocabulary for the turns of a well-shaped response *)

Module Turns.

(** Step 4 of [handleSend] for a well-shaped response: the mode is
    MISTAKE_ANALYSIS and both strings are non-empty. *)
Definition archives (st : AppState) (r : StructuredAIResponse) : bool :=
  TaskMode_eqb (mode st) MISTAKE_ANALYSIS
  && truthy (VStr (knowledge_point_id r))
  && truthy (VStr (internal_monologue r)).

(** The record step 4 builds. *)
Definition archivedRecord (env : Env) (st : AppState) (r : StructuredAIResponse)
  : MistakeRecord.t :=
  {| MistakeRecord.userEmail := email (student st);
     MistakeRecord.subject := subject st;
     MistakeRecord.question := substring0 100 (input st);
     MistakeRecord.analysis := VStr (internal_monologue r);
     MistakeRecord.knowledgePoint := VStr (knowledge_point_id r);
     MistakeRecord.timestamp := now env 2 |}.

(** The text step 5 displays. *)
Definition displayed (st : AppState) (r : StructuredAIResponse) : value :=
  if is_direct_answer_attempt r && strict_eq (currentState st) (state_value GUIDING)
  then VStr redirectMessage
  else VStr (content_for_user r).

(** The index, among the database operations of a turn, of the write of
    the transcript. *)
Definition saveOperation (st : AppState) (r : StructuredAIResponse) : nat :=
  if archives st r then 1 else 0.

End Turns.
Import Turns.

(** ** More sample data *)

Module MoreSamples.

(** The question asked in state EXPLAINING. *)
Definition explainingTurn : AppState :=
  asking MISTAKE_ANALYSIS (state_value EXPLAINING) question.

(** An input of white space only. *)
Definition blankTurn : AppState :=
  asking MISTAKE_ANALYSIS (state_value GUIDING) (js "  	 ").

(** A model that answers with the JSON text [null]. *)
Definition nullModel : Env := answering (js "null").

(** The tutor with a database whose second operation fails. *)
Definition failingSave : Env :=
  {| fetch := fetch tutor;
     json_syntax_error := json_syntax_error tutor;
     null_read_error := null_read_error tutor;
     not_a_function_error := not_a_function_error tutor;
     now := now tutor;
     db_fault := fun k => match k with 1 => RequestFails | _ => NoFault end |}.

End MoreSamples.
Import MoreSamples.

(** ** [services/geminiService.ts]: the client *)

Module GeminiClient.

(** What the module depends on: [process.env.API_KEY] (absent, or a
    string) and the service a client made with a key talks to. *)
Record Runtime := {
  API_KEY : option jsstring;
  connect : jsstring -> GeminiService.GenerateRequest -> GenerateResult
}.

(** [initializeGemini]: the module variable [genAI] after the call. *)
Definition initializeGemini (rt : Runtime)
    (genAI : option (GeminiService.GenerateRequest -> GenerateResult))
  : option (GeminiService.GenerateRequest -> GenerateResult) :=
  match API_KEY rt with
  | Some (c :: key) => Some (connect rt (c :: key))
  | _ => genAI
  end.

(** [sendMessageToEduMind] from the state [genAI] of the module: the
    outcome, and [genAI] afterwards. *)
Definition send (env : Env) (rt : Runtime)
    (genAI : option (GeminiService.GenerateRequest -> GenerateResult))
    (systemPrompt : jsstring) (history : list ChatMessage) (userMessage : jsstring)
  : completion value * option (GeminiService.GenerateRequest -> GenerateResult) :=
  let genAI1 :=
    match genAI with
    | None => initializeGemini rt genAI
    | Some _ => genAI
    end in
  (GeminiService.sendMessageToEduMind env genAI1 systemPrompt history userMessage, genAI1).

End GeminiClient.

(** ** What is observed of the Gemini gateway *)

Module GeminiObserve.

(** A rejection value the [catch] block cannot examine: [null] or
    [undefined], or a value whose status is not 404 and whose message
    is truthy without being a string or an array. *)
Definition unexaminable (reason : value) : bool :=
  match reason with
  | VUndefined | VNull => true
  | _ =>
      negb (strict_eq (opt_prop reason (js "status")) (VNum (Dec 404 0)))
      && truthy (opt_prop reason (js "message"))
      && match opt_prop reason (js "message") with
         | VStr _ | VArr _ => false
         | _ => true
         end
  end.

End GeminiObserve.
Import GeminiObserve.

(** ** [services/db.ts]: the [users] store *)

Module Users.

(** The [users] object store, keyed by e-mail, and the number of
    operations made on the database so far. *)
Record Store := {
  users : list (jsstring * StudentProfile);
  operations : nat
}.

Definition U (A : Type) : Type := Store -> completion A * Store.

Definition unit_ (A : Type) (a : A) : U A := fun s => (Normal a, s).
Arguments unit_ {A} a.

Definition fail (A : Type) (e : thrown) : U A := fun s => (Throw e, s).
Arguments fail {A} e.

Definition then_ (A B : Type) (c : U A) (k : A -> U B) : U B :=
  fun s =>
    match c s with
    | (Normal a, s1) => k a s1
    | (Throw e, s1) => (Throw e, s1)
    end.

(** [try { c } catch (e) { handler e }] *)
Definition catch (A : Type) (c : U A) (handler : thrown -> U A) : U A :=
  fun s =>
    match c s with
    | (Normal a, s1) => (Normal a, s1)
    | (Throw e, s1) => handler e s1
    end.

Definition next_fault (env : Env) : U DbFault :=
  fun s => (Normal (db_fault env (operations s)),
            {| users := users s; operations := S (operations s) |}).

(** [store.put(user)]: the entry of the same e-mail is replaced. *)
Definition put (profile : StudentProfile) (store : list (jsstring * StudentProfile))
  : list (jsstring * StudentProfile) :=
  (email profile, profile)
  :: filter (fun kv => negb (jsstring_eqb (fst kv) (email profile))) store.

Definition createUser (env : Env) (profile : StudentProfile) : U unit :=
  then_ (next_fault env) (fun fault =>
  match fault with
  | OpenFails errorCode => fail (ThrownString (js "Database error: " ++ errorCode))
  | RequestFails => fail (ThrownString (js "Failed to create user"))
  | NoFault =>
      fun s => (Normal tt, {| users := put profile (users s); operations := operations s |})
  end).

Definition getUser (env : Env) (email : jsstring) : U (option StudentProfile) :=
  then_ (next_fault env) (fun fault =>
  match fault with
  | OpenFails errorCode => fail (ThrownString (js "Database error: " ++ errorCode))
  | RequestFails => fail (ThrownString (js "Failed to fetch user"))
  | NoFault => fun s => (Normal (store_get email (users s)), s)
  end).

End Users.

(** ** [components/AuthPage.tsx] *)

Module AuthPage.

(** The form state of the component. *)
Module Form.
Record t := {
  isLogin : bool;
  email : jsstring;
  password : jsstring;
  name : jsstring;
  grade : Grade
}.
End Form.

(** What the page does once its timers have run: [onLogin(profile)],
    or [setError(message)]. *)
Inductive Outcome :=
| LoggedIn (profile : StudentProfile)
| Refused (message : jsstring).

(** [\S+] followed by what [k] accepts. *)
Fixpoint nonspaces_then (k : jsstring -> bool) (s : jsstring) : bool :=
  match s with
  | [] => false
  | c :: rest => negb (is_js_space c) && (nonspaces_then k rest || k rest)
  end.

(** The pattern [\S+@\S+\.\S+], matched from the start of [s]. *)
Definition email_pattern (s : jsstring) : bool :=
  nonspaces_then
    (fun s1 =>
       match s1 with
       | c :: s2 =>
           (c =? 64)%N
           && nonspaces_then
                (fun s3 =>
                   match s3 with
                   | c' :: s4 => (c' =? 46)%N && nonspaces_then (fun _ => true) s4
                   | [] => false
                   end) s2
       | [] => false
       end) s.

(** [pattern.test(s)]: a match starting anywhere in [s]. *)
Fixpoint test (pattern : jsstring -> bool) (s : jsstring) : bool :=
  pattern s ||
  match s with
  | [] => false
  | _ :: rest => test pattern rest
  end.

Definition validateEmail (email : jsstring) : bool := test email_pattern email.

Definition demoEmail : jsstring := js "student@edumind.ai".

Definition demoUser (email : jsstring) : StudentProfile :=
  {| Types.name := js "Demo Student"; age := 13; Types.grade := MIDDLE;
     masteryLevel := Intermediate; Types.email := email;
     Types.password := Some (js "password123") |}.

Definition newProfile (form : Form.t) : StudentProfile :=
  {| Types.name := Form.name form;
     age := match Form.grade form with PRIMARY => 10 | MIDDLE => 14 end;
     Types.grade := if Form.isLogin form then PRIMARY else Form.grade form;
     masteryLevel := Novice;
     Types.email := Form.email form;
     Types.password := Some (Form.password form) |}.

Definition blank (s : jsstring) : bool := negb (truthy (VStr (trim s))).

(** [user.password !== password] *)
Definition password_differs (account : StudentProfile) (password : jsstring) : bool :=
  match Types.password account with
  | Some p => negb (jsstring_eqb p password)
  | None => true
  end.

(** The [try] block of [handleSubmit]; it ends with the profile handed
    to [onLogin]. *)
Definition submit (env : Env) (form : Form.t) : Users.U StudentProfile :=
  (* 1. Basic Field Validation *)
  if blank (Form.email form) || blank (Form.password form)
  then Users.fail (new_Error (js "Please fill in all required fields."))
  else if List.length (Form.password form) <? 6
  then Users.fail (new_Error (js "Password must be at least 6 characters long."))
  else if negb (validateEmail (Form.email form))
  then Users.fail (new_Error (js "Please enter a valid email address."))
  (* 2. Database Operations *)
  else if Form.isLogin form then
    Users.then_
      (if jsstring_eqb (Form.email form) demoEmail then
         Users.then_ (Users.getUser env (Form.email form)) (fun found =>
         match found with
         | None => Users.createUser env (demoUser (Form.email form))
         | Some _ => Users.unit_ tt
         end)
       else Users.unit_ tt)
      (fun _ =>
    Users.then_ (Users.getUser env (Form.email form)) (fun found =>
    match found with
    | None => Users.fail (new_Error (js "Account not found. Please register first."))
    | Some account =>
        if password_differs account (Form.password form)
        then Users.fail (new_Error (js "Incorrect password."))
        else Users.unit_ account
    end))
  else
    if blank (Form.name form)
    then Users.fail (new_Error (js "Please enter your full name for registration."))
    else
      Users.then_ (Users.getUser env (Form.email form)) (fun existingUser =>
      match existingUser with
      | Some _ => Users.fail (new_Error (js "This email is already registered."))
      | None =>
          Users.then_ (Users.createUser env (newProfile form)) (fun _ =>
          Users.unit_ (newProfile form))
      end).

(** [err.message || 'An unexpected error occurred.'] *)
Definition errorText (err : thrown) : jsstring :=
  match thrown_message err with
  | VStr (c :: message) => c :: message
  | _ => js "An unexpected error occurred."
  end.

Definition handleSubmit (env : Env) (form : Form.t) : Users.U Outcome :=
  Users.catch
    (Users.then_ (submit env form) (fun profile => Users.unit_ (LoggedIn profile)))
    (fun err => Users.unit_ (Refused (errorText err))).

(** A submission over the [users] store [store], on a database not yet
    used. *)
Definition submitted (env : Env) (form : Form.t) (store : list (jsstring * StudentProfile))
  : Outcome * list (jsstring * StudentProfile) :=
  match handleSubmit env form {| Users.users := store; Users.operations := 0 |} with
  | (Normal outcome, s) => (outcome, Users.users s)
  | (Throw err, s) => (Refused (errorText err), Users.users s)
  end.

End AuthPage.

(** ** Sample data for the gateways and the sign-in page *)

Module GatewaySamples.

(** A completion that is prose, not JSON. *)
Definition proseText : jsstring := js "Let me think about that.".

(** A GenAI service that answers every call with [text]. *)
Definition replying (text : option jsstring)
  : GeminiService.GenerateRequest -> GenerateResult :=
  fun _ => GenerateResolves text.

(** A GenAI service that rejects every call with the value [reason]. *)
Definition rejectingWith (reason : value)
  : GeminiService.GenerateRequest -> GenerateResult :=
  fun _ => GenerateRejectsWith reason.

(** A runtime with no API key. *)
Definition keyless : GeminiClient.Runtime :=
  {| GeminiClient.API_KEY := None;
     GeminiClient.connect := fun _ => replying (Some proseText) |}.

(** A runtime with a key whose service answers with prose. *)
Definition keyed : GeminiClient.Runtime :=
  {| GeminiClient.API_KEY := Some (js "AIza-demo");
     GeminiClient.connect := fun _ => replying (Some proseText) |}.

End GatewaySamples.
Import GatewaySamples.

Module AuthSamples.

(** A registration form filled in by a new student. *)
Definition registration : AuthPage.Form.t :=
  {| AuthPage.Form.isLogin := false;
     AuthPage.Form.email := js "ada@school.org";
     AuthPage.Form.password := js "lovelace";
     AuthPage.Form.name := js "Ada";
     AuthPage.Form.grade := PRIMARY |}.

(** The sign-in form of the same student. *)
Definition signIn : AuthPage.Form.t :=
  {| AuthPage.Form.isLogin := true;
     AuthPage.Form.email := js "ada@school.org";
     AuthPage.Form.password := js "lovelace";
     AuthPage.Form.name := [];
     AuthPage.Form.grade := PRIMARY |}.

(** The sign-in form of the demo account. *)
Definition demoSignIn : AuthPage.Form.t :=
  {| AuthPage.Form.isLogin := true;
     AuthPage.Form.email := js "student@edumind.ai";
     AuthPage.Form.password := js "password123";
     AuthPage.Form.name := [];
     AuthPage.Form.grade := PRIMARY |}.

(** A sign-in form with an address that has no dot after the at sign. *)
Definition badAddress : AuthPage.Form.t :=
  {| AuthPage.Form.isLogin := true;
     AuthPage.Form.email := js "ada@school";
     AuthPage.Form.password := js "lovelace";
     AuthPage.Form.name := [];
     AuthPage.Form.grade := PRIMARY |}.

(** A database without faults, and one that cannot be opened. *)
Definition healthy : Env := answering [].

Definition closedDatabase : Env :=
  {| fetch := fetch (answering []);
     json_syntax_error := json_syntax_error (answering []);
     null_read_error := null_read_error (answering []);
     not_a_function_error := not_a_function_error (answering []);
     now := now (answering []);
     db_fault := fun _ => OpenFails (js "undefined") |}.

End AuthSamples.
Import AuthSamples.

(** ** What is observed of the sign-in page *)

Module AuthObserve.

Definition space_free (s : jsstring) : bool :=
  forallb (fun c => negb (is_js_space c)) s.

(** [s] holds, somewhere, a non-empty part, an at sign, a non-empty
    part, a dot and a non-empty part, none of the parts with white
    space. *)
Definition address_like (s : jsstring) : Prop :=
  exists before user_part domain_part top_part rest,
    s = before ++ user_part ++ [64%N] ++ domain_part ++ [46%N] ++ top_part ++ rest
    /\ user_part <> [] /\ domain_part <> [] /\ top_part <> []
    /\ space_free user_part = true
    /\ space_free domain_part = true
    /\ space_free top_part = true.

(** The three checks of the form that come before any use of the
    database. *)
Definition passes_validation (form : AuthPage.Form.t) : bool :=
  negb (AuthPage.blank (AuthPage.Form.email form))
  && negb (AuthPage.blank (AuthPage.Form.password form))
  && negb (List.length (AuthPage.Form.password form) <? 6)
  && AuthPage.validateEmail (AuthPage.Form.email form).

(** The sign-in form with the address and password of [form]. *)
Definition signing_in (form : AuthPage.Form.t) : AuthPage.Form.t :=
  {| AuthPage.Form.isLogin := true;
     AuthPage.Form.email := AuthPage.Form.email form;
     AuthPage.Form.password := AuthPage.Form.password form;
     AuthPage.Form.name := [];
     AuthPage.Form.grade := PRIMARY |}.

End AuthObserve.
Import AuthObserve.

(** * Properties *)

Unset Implicit Arguments.

(** ** Sanity checks of the run-time model *)

Example strip_fences_wrapped :
  strip_fences (js "```json
{}
```") = js "{}".
Proof. vm_compute. reflexivity. Qed.

Example JSON_parse_object :
  JSON_parse (js "{ ") = None /\
  JSON_parse (js " [1, 2.50, -3e2, true, null, {}] ") =
    Some (VArr [VNum (Dec 1 0); VNum (Dec 25 (-1)); VNum (Dec (-3) 2);
                VBool true; VNull; VObj []]).
Proof. vm_compute. split; reflexivity. Qed.

Example JSON_stringify_sample :
  JSON_stringify (VObj [(js "a", VArr [VNum (Dec 25 (-1)); VNull; VBool true]);
                        (js "b", VStr (js "x
y" ++ dq))])
  = VStr (js "{" ++ dq ++ js "a" ++ dq ++ js ":[2.5,null,true]," ++ dq ++ js "b" ++ dq
          ++ js ":" ++ dq ++ js "x" ++ backslash ++ js "ny" ++ backslash ++ dq ++ dq ++ js "}").
Proof. vm_compute. reflexivity. Qed.

(** An object lists its array indices first, in ascending order, then
    its other keys in order of creation; a key given twice keeps its
    first place and takes the last value.  An object made with the keys
    in another order prints in the engine's order all the same. *)
Example JSON_parse_key_order :
  JSON_parse (js "{" ++ quote (js "b") ++ js ":1," ++ quote (js "10") ++ js ":2,"
              ++ quote (js "9") ++ js ":3," ++ quote (js "b") ++ js ":4,"
              ++ quote (js "01") ++ js ":5}")
  = Some (VObj [(js "9", VNum (Dec 3 0)); (js "10", VNum (Dec 2 0));
                (js "b", VNum (Dec 4 0)); (js "01", VNum (Dec 5 0))])
  /\ stringify (VObj [(js "b", VNum (Dec 4 0)); (js "10", VNum (Dec 2 0));
                      (js "9", VNum (Dec 3 0)); (js "01", VNum (Dec 5 0))])
     = js "{" ++ quote (js "9") ++ js ":3," ++ quote (js "10") ++ js ":2,"
       ++ quote (js "b") ++ js ":4," ++ quote (js "01") ++ js ":5}".
Proof. vm_compute. split; reflexivity. Qed.

(** ** Strings *)

Section StringFacts.

Lemma place_index_last_entry {A} i k (a : A) acc :
  array_index k = Some i ->
  in_key_order (map fst acc ++ [k]) = true ->
  place_index i k a acc = acc ++ [(k, a)].
Proof.
  intros Hi. induction acc as [|[k' a'] acc IH]; [reflexivity|].
  cbn [map fst app in_key_order place_index]. intros H.
  apply andb_prop in H as [Hk H].
  rewrite forallb_app in Hk. apply andb_prop in Hk as [_ Hk].
  cbn [forallb] in Hk. rewrite andb_true_r, Hi in Hk.
  destruct (array_index k') as [j|]; [|discriminate Hk].
  rewrite Hk, IH by exact H. reflexivity.
Qed.

Lemma in_key_order_front a b :
  in_key_order (a ++ b) = true -> in_key_order a = true.
Proof.
  induction a as [|k a IH]; [reflexivity|].
  cbn [app in_key_order]. intros H. apply andb_prop in H as [Hk H].
  rewrite forallb_app in Hk. apply andb_prop in Hk as [Hk _].
  rewrite Hk, IH by exact H. reflexivity.
Qed.

Lemma key_order_from {A} (entries : list (jsstring * A)) :
  forall acc, in_key_order (map fst (acc ++ entries)) = true ->
  fold_left
    (fun acc ka =>
       match array_index (fst ka) with
       | Some i => place_index i (fst ka) (snd ka) acc
       | None => acc ++ [ka]
       end)
    entries acc = acc ++ entries.
Proof.
  induction entries as [|[k a] entries IH]; intros acc H; cbn [fold_left fst snd].
  - rewrite app_nil_r. reflexivity.
  - assert (Hstep : match array_index k with
                    | Some i => place_index i k a acc
                    | None => acc ++ [(k, a)]
                    end = acc ++ [(k, a)]).
    { destruct (array_index k) as [i|] eqn:Hi; [|reflexivity].
      apply place_index_last_entry; [exact Hi|].
      rewrite map_app in H. cbn [map fst] in H.
      apply (in_key_order_front (map fst acc ++ [k]) (map fst entries)).
      rewrite <- app_assoc. exact H. }
    rewrite Hstep, IH; rewrite <- app_assoc; [reflexivity|exact H].
Qed.

(** Entries whose keys are in the engine's order stay as they are. *)
Lemma key_order_ordered {A} (entries : list (jsstring * A)) :
  in_key_order (map fst entries) = true -> key_order entries = entries.
Proof. intros H. apply (key_order_from entries []). exact H. Qed.

(** An object whose keys are in the engine's order prints its members
    in the order of its fields. *)
Lemma stringify_ordered fields :
  in_key_order (map fst fields) = true ->
  stringify (VObj fields) =
  js "{" ++
  join_with (js ",")
    ((fix members (fs : list (jsstring * value)) : list jsstring :=
        match fs with
        | [] => []
        | (_, VUndefined) :: rest => members rest
        | (k, x) :: rest => (quote k ++ js ":" ++ stringify x) :: members rest
        end) fields) ++
  js "}".
Proof.
  intros H. cbn [stringify]. do 3 f_equal.
  rewrite key_order_ordered.
  - induction fields as [|[k x] fields IH]; [reflexivity|].
    cbn [map fst in_key_order] in H. apply andb_prop in H as [_ H].
    destruct x; cbn [member_lines]; rewrite IH by exact H; reflexivity.
  - assert (Hkeys : forall fs,
              map fst ((fix printed (fs : list (jsstring * value))
                          : list (jsstring * option jsstring) :=
                          match fs with
                          | [] => []
                          | (k, VUndefined) :: rest => (k, None) :: printed rest
                          | (k, x) :: rest => (k, Some (stringify x)) :: printed rest
                          end) fs) = map fst fs).
    { induction fs as [|[k x] fs IHfs]; [reflexivity|].
      destruct x; cbn [map fst]; rewrite IHfs; reflexivity. }
    rewrite Hkeys. exact H.
Qed.

Lemma uint_chars_digits d : forallb is_digit (uint_chars d) = true.
Proof. induction d; simpl; auto. Qed.

Lemma uint_chars_nil d : uint_chars d = [] -> d = Decimal.Nil.
Proof. destruct d; simpl; intros H; try discriminate; reflexivity. Qed.

Lemma N_toString_digits n : forallb is_digit (N_toString n) = true.
Proof. apply uint_chars_digits. Qed.

Lemma N_toString_nonempty n : N_toString n <> [].
Proof.
  unfold N_toString. destruct n as [|p]; simpl.
  - discriminate.
  - intros H. apply uint_chars_nil in H.
    exact (DecimalPos.Unsigned.to_uint_nonnil p H).
Qed.

Lemma starts_with_barrier a d r kw :
  is_digit d = true -> digit_free kw = true ->
  starts_with (a ++ d :: r) kw = starts_with a kw.
Proof.
  intros Hd. revert kw.
  induction a as [|x a IH]; intros [|k kw] Hkw; simpl; try reflexivity.
  - simpl in Hkw. apply andb_prop in Hkw as [Hk _].
    destruct (N.eqb_spec k d) as [->|]; [|reflexivity].
    rewrite Hd in Hk. discriminate.
  - simpl in Hkw. apply andb_prop in Hkw as [_ Hkw].
    rewrite IH by exact Hkw. reflexivity.
Qed.

Lemma includes_barrier a d r kw :
  is_digit d = true -> digit_free kw = true ->
  includes (a ++ d :: r) kw = includes a kw || includes (d :: r) kw.
Proof.
  intros Hd Hkw. induction a as [|x a IH].
  - destruct kw; reflexivity.
  - change (includes ((x :: a) ++ d :: r) kw)
      with (starts_with ((x :: a) ++ d :: r) kw || includes (a ++ d :: r) kw).
    rewrite starts_with_barrier, IH by assumption.
    simpl. rewrite orb_assoc. reflexivity.
Qed.

Lemma includes_after_digits ds b kw :
  forallb is_digit ds = true -> digit_free kw = true -> kw <> [] ->
  includes (ds ++ b) kw = includes b kw.
Proof.
  intros Hds Hkw Hne. induction ds as [|d ds IH]; [reflexivity|].
  simpl in Hds. apply andb_prop in Hds as [Hd Hds].
  destruct kw as [|k kw]; [contradiction|].
  change (includes ((d :: ds) ++ b) (k :: kw))
    with ((k =? d)%N && starts_with (ds ++ b) kw || includes (ds ++ b) (k :: kw)).
  rewrite IH by assumption.
  simpl in Hkw. apply andb_prop in Hkw as [Hk _].
  destruct (N.eqb_spec k d) as [->|]; [|reflexivity].
  rewrite Hd in Hk. discriminate.
Qed.

(** A word without digits cannot straddle a run of digits. *)
Lemma includes_around_digits a ds b kw :
  forallb is_digit ds = true -> ds <> [] -> digit_free kw = true -> kw <> [] ->
  includes (a ++ ds ++ b) kw = includes a kw || includes b kw.
Proof.
  intros Hds Hne Hkw Hk. destruct ds as [|d ds]; [contradiction|].
  pose proof Hds as Hall. simpl in Hds. apply andb_prop in Hds as [Hd _].
  change (a ++ (d :: ds) ++ b) with (a ++ d :: (ds ++ b)).
  rewrite includes_barrier by assumption.
  change (d :: ds ++ b) with ((d :: ds) ++ b).
  rewrite includes_after_digits by assumption. reflexivity.
Qed.

Lemma lower_digits ds : forallb is_digit ds = true -> toLowerCase ds = ds.
Proof.
  induction ds as [|d ds IH]; simpl; intros H; [reflexivity|].
  apply andb_prop in H as [Hd Hds]. rewrite IH by exact Hds.
  f_equal. unfold lower_char, is_digit in *.
  apply andb_prop in Hd as [_ H1]. apply N.leb_le in H1.
  destruct (N.leb_spec 65 d); [lia|reflexivity].
Qed.

Lemma truthy_nonempty s : s <> [] -> truthy (VStr s) = true.
Proof. destruct s; [contradiction|reflexivity]. Qed.

End StringFacts.

(** ** The instruction builder *)

Section InstructionBuilder.

Lemma behavioralDirectives_bare student currentState :
  behavioralDirectives student currentState =
  behavioralDirectives (bare (grade student) (masteryLevel student)) currentState.
Proof.
  unfold behavioralDirectives, explainingDirectives, bare. cbn [grade]. reflexivity.
Qed.

Lemma prompt_split subject student mode currentState :
  constructSystemPrompt subject student mode currentState =
  promptPrefix subject (grade student) ++ N_toString (age student)
  ++ promptSuffix (grade student) (masteryLevel student) mode currentState.
Proof.
  unfold constructSystemPrompt, audienceConstraint, promptPrefix, promptSuffix.
  rewrite behavioralDirectives_bare.
  repeat rewrite <- app_assoc. reflexivity.
Qed.

Lemma includes_prompt subject student mode currentState kw :
  digit_free kw = true -> kw <> [] ->
  includes (constructSystemPrompt subject student mode currentState) kw =
  includes (promptPrefix subject (grade student)) kw
  || includes (promptSuffix (grade student) (masteryLevel student) mode currentState) kw.
Proof.
  intros Hkw Hne. rewrite prompt_split.
  apply includes_around_digits; auto using N_toString_digits, N_toString_nonempty.
Qed.

Lemma includes_lower_prompt subject student mode currentState kw :
  digit_free kw = true -> kw <> [] ->
  includes (toLowerCase (constructSystemPrompt subject student mode currentState)) kw =
  includes (toLowerCase (promptPrefix subject (grade student))) kw
  || includes (toLowerCase (promptSuffix (grade student) (masteryLevel student)
                              mode currentState)) kw.
Proof.
  intros Hkw Hne. rewrite prompt_split. unfold toLowerCase.
  rewrite !map_app.
  change (map lower_char (N_toString (age student)))
    with (toLowerCase (N_toString (age student))).
  rewrite (lower_digits (N_toString (age student))) by apply N_toString_digits.
  apply includes_around_digits; auto using N_toString_digits, N_toString_nonempty.
Qed.

Lemma plain_spec kw : plain kw = true -> digit_free kw = true /\ kw <> [].
Proof.
  unfold plain. intros H. apply andb_prop in H as [H1 H2].
  split; [exact H1|]. destruct kw; [discriminate H2|discriminate].
Qed.

Lemma directives_plain g s : forallb plain (directives g s) = true.
Proof. destruct g, s; vm_compute; reflexivity. Qed.

Lemma prefix_has_no_directive subject g g' s' :
  forallb (fun kw => negb (includes (promptPrefix subject g) kw)) (directives g' s') = true.
Proof. destruct subject, g, g', s'; vm_compute; reflexivity. Qed.

Lemma suffix_has_own_directives g ml mode s :
  forallb (includes (promptSuffix g ml mode (state_value s))) (directives g s) = true.
Proof. destruct g, ml, mode, s; vm_compute; reflexivity. Qed.

Lemma suffix_has_no_other_directive g ml mode s g' s' :
  s' <> s ->
  forallb (fun kw => negb (includes (promptSuffix g ml mode (state_value s)) kw))
          (directives g' s') = true.
Proof.
  intros Hne. destruct s, s'; try congruence;
    destruct g, ml, mode, g'; vm_compute; reflexivity.
Qed.

End InstructionBuilder.

(** C6.  For each of the three pedagogical states, the instruction text
    built for that state contains every directive of the state's own row
    of the table (for EXPLAINING with the analogies worded for the
    learner's grade), and contains no directive of another state's row,
    whatever the subject, the profile and the task mode. *)
Theorem instruction_has_own_directives_only :
  forall (subject : Subject) (student : StudentProfile) (mode : TaskMode)
         (s : PedagogicalState),
    let p := constructSystemPrompt subject student mode (state_value s) in
    forallb (includes p) (directives (grade student) s) = true /\
    forall (s' : PedagogicalState) (g' : Grade),
      s' <> s ->
      forallb (fun kw => negb (includes p kw)) (directives g' s') = true.
Proof.
  intros subject student mode s p. subst p. split.
  - apply forallb_forall. intros kw Hin.
    destruct (plain_spec kw) as [Hd Hne].
    { exact (proj1 (forallb_forall _ _) (directives_plain _ _) kw Hin). }
    rewrite includes_prompt by assumption.
    rewrite (proj1 (forallb_forall _ _) (suffix_has_own_directives _ _ _ _) kw Hin).
    apply orb_true_r.
  - intros s' g' Hs. apply forallb_forall. intros kw Hin.
    destruct (plain_spec kw) as [Hd Hne].
    { exact (proj1 (forallb_forall _ _) (directives_plain _ _) kw Hin). }
    rewrite includes_prompt by assumption.
    pose proof (proj1 (forallb_forall _ _)
                  (prefix_has_no_directive subject (grade student) g' s') kw Hin) as Hp.
    pose proof (proj1 (forallb_forall _ _)
                  (suffix_has_no_other_directive (grade student) (masteryLevel student)
                     mode s g' s' Hs) kw Hin) as Hsuf.
    cbv beta in Hp, Hsuf.
    apply negb_true_iff in Hp. apply negb_true_iff in Hsuf.
    rewrite Hp, Hsuf. reflexivity.
Qed.

Section GradeStyle.

Lemma styleWords_plain : forallb plain (js "analog" :: styleWords) = true.
Proof. vm_compute. reflexivity. Qed.

Lemma prefix_has_no_style subject g :
  forallb (fun kw => negb (includes (toLowerCase (promptPrefix subject g)) kw))
          (js "analog" :: styleWords) = true.
Proof. destruct subject, g; vm_compute; reflexivity. Qed.

Lemma suffix_has_no_style g ml mode s :
  forallb (fun kw => negb (includes (toLowerCase (promptSuffix g ml mode (state_value s))) kw))
          styleWords = true.
Proof. destruct g, ml, mode, s; vm_compute; reflexivity. Qed.

Lemma suffix_analogies g ml mode s :
  includes (toLowerCase (promptSuffix g ml mode (state_value s))) (js "analog")
  = PedagogicalState_eqb s EXPLAINING.
Proof. destruct g, ml, mode, s; vm_compute; reflexivity. Qed.

End GradeStyle.

(** C7 (what the code does).  Whatever the grade, the
    instruction text, read in any letter case, holds none of the words
    of a grade-specific style directive (concrete, definition, formal,
    everyday, daily life, simple analogies); analogies are mentioned
    exactly when the state is EXPLAINING, for PRIMARY and MIDDLE alike.
    The grade only shows as its name. *)
Theorem instruction_has_no_grade_style :
  forall (subject : Subject) (student : StudentProfile) (mode : TaskMode)
         (s : PedagogicalState),
    let p := constructSystemPrompt subject student mode (state_value s) in
    forallb (fun kw => negb (includes (toLowerCase p) kw)) styleWords = true
    /\ includes (toLowerCase p) (js "analog") = PedagogicalState_eqb s EXPLAINING
    /\ includes p (js "Your student is in " ++ Grade_text (grade student) ++ js " (approx ")
       = true.
Proof.
  intros subject student mode s p. subst p.
  pose proof styleWords_plain as Hplain. cbn [forallb] in Hplain.
  apply andb_prop in Hplain as [Ha Hplain].
  pose proof (prefix_has_no_style subject (grade student)) as Hpre.
  cbn [forallb] in Hpre. apply andb_prop in Hpre as [Hpa Hpre].
  repeat apply conj.
  - apply forallb_forall. intros kw Hin.
    destruct (plain_spec kw) as [Hd Hne].
    { exact (proj1 (forallb_forall _ _) Hplain kw Hin). }
    rewrite includes_lower_prompt by assumption.
    pose proof (proj1 (forallb_forall _ _) Hpre kw Hin) as H1.
    pose proof (proj1 (forallb_forall _ _)
                  (suffix_has_no_style (grade student) (masteryLevel student) mode s)
                  kw Hin) as H2.
    cbv beta in H1, H2. apply negb_true_iff in H1. apply negb_true_iff in H2.
    rewrite H1, H2. reflexivity.
  - destruct (plain_spec (js "analog") Ha) as [Hd Hne].
    rewrite includes_lower_prompt by assumption.
    apply negb_true_iff in Hpa. rewrite Hpa. apply suffix_analogies.
  - destruct student as [nm ag g ml em pw]. cbn [grade].
    rewrite includes_prompt by (destruct g; vm_compute; first [reflexivity|discriminate]).
    cbn [grade]. destruct subject, g; vm_compute; reflexivity.
Qed.

(** ** The inference gateway *)

Section Gateway.

Variable env : Env.
Variables endpoint modelName systemPrompt : jsstring.
Variable history : list ChatMessage.
Variable userMessage : jsstring.

Lemma fallback_is_record error :
  fallbackResponse endpoint error
  = response_value (fallbackRecord endpoint (thrown_toString error)).
Proof.
  unfold fallbackResponse, response_value, fallbackRecord.
  cbn [content_for_user internal_monologue knowledge_point_id student_mastery_score
       suggested_next_state is_direct_answer_attempt].
  reflexivity.
Qed.

Lemma fallback_content_nonempty diagnostic :
  content_for_user (fallbackRecord endpoint diagnostic) <> [].
Proof. vm_compute. discriminate. Qed.

(** The gateway never throws: whatever the environment does, the
    caller gets a value. *)
Lemma gateway_returns :
  exists v, sendMessageToLocalLLM env endpoint modelName systemPrompt history userMessage
            = Normal v.
Proof.
  unfold sendMessageToLocalLLM, try_catch.
  destruct (requestAndParse _ _ _ _ _ _); eauto.
Qed.

Lemma gateway_catches error :
  requestAndParse env endpoint modelName systemPrompt history userMessage = Throw error ->
  sendMessageToLocalLLM env endpoint modelName systemPrompt history userMessage
  = Normal (fallbackResponse endpoint error).
Proof. unfold sendMessageToLocalLLM. intros ->. reflexivity. Qed.

Lemma parseRawContent_fails raw :
  JSON_parse (cleanedJson raw) = None ->
  parseRawContent env (VStr raw)
  = Throw (new_Error (js "Failed to parse structured output from Local LLM")).
Proof. unfold parseRawContent. intros ->. reflexivity. Qed.

Lemma failure_throws :
  goesWrong env (localRequest endpoint modelName systemPrompt history userMessage) ->
  exists error,
    requestAndParse env endpoint modelName systemPrompt history userMessage = Throw error.
Proof.
  unfold goesWrong, requestAndParse.
  destruct (fetch env _) as [e|status statusText payload]; [eauto|].
  intros [Hstatus|Hparse].
  - rewrite Hstatus. cbn [negb]. eauto.
  - destruct (status_ok status); cbn [negb]; [|eauto].
    destruct payload as [text|e]; cbn [response_json bind]; [|eauto].
    destruct (JSON_parse text) as [data|]; cbn [bind]; [|eauto].
    unfold read. destruct (get_prop data (js "choices")) as [choices|]; cbn [bind]; [|eauto].
    destruct (firstChoiceContent choices) as [| |b|n|raw|items|fields] eqn:Hc.
    + cbn [truthy negb]. eauto.
    + cbn [truthy negb]. eauto.
    + destruct b; cbn [truthy negb]; eexists; reflexivity.
    + destruct (truthy (VNum n)); cbn [negb]; eexists; reflexivity.
    + destruct raw as [|c raw]; cbn [truthy negb]; [eauto|].
      rewrite parseRawContent_fails by exact Hparse. eauto.
    + cbn [truthy negb]. eexists; reflexivity.
    + cbn [truthy negb]. eexists; reflexivity.
Qed.

End Gateway.

(** C3.  Whenever the HTTP call fails, the status is not a success, or
    what comes back cannot be parsed, [sendMessageToLocalLLM] returns
    normally (no exception reaches the caller) a fallback record whose
    [knowledge_point_id] is ERR_CONN, whose score is 0, whose suggested
    state is GUIDING, whose guardrail flag is false, whose
    [content_for_user] is not empty and whose [internal_monologue] is the
    diagnostic naming the endpoint. *)
Theorem gateway_failure_yields_fallback :
  forall (env : Env) (endpoint modelName systemPrompt : jsstring)
         (history : list ChatMessage) (userMessage : jsstring),
    goesWrong env (localRequest endpoint modelName systemPrompt history userMessage) ->
    exists (diagnostic : jsstring) (r : StructuredAIResponse),
      sendMessageToLocalLLM env endpoint modelName systemPrompt history userMessage
        = Normal (response_value r)
      /\ knowledge_point_id r = js "ERR_CONN"
      /\ student_mastery_score r = 0%Z
      /\ suggested_next_state r = GUIDING
      /\ is_direct_answer_attempt r = false
      /\ content_for_user r <> []
      /\ internal_monologue r
         = js "Connection failed to " ++ endpoint ++ js ". Error: " ++ diagnostic.
Proof.
  intros env endpoint modelName systemPrompt history userMessage Hwrong.
  destruct (failure_throws _ _ _ _ _ _ Hwrong) as [error Herr].
  exists (thrown_toString error), (fallbackRecord endpoint (thrown_toString error)).
  rewrite (gateway_catches _ _ _ _ _ _ _ Herr), fallback_is_record.
  repeat apply conj; try reflexivity.
  apply fallback_content_nonempty.
Qed.

(** An unreachable endpoint is such a failure. *)
Lemma gateway_failure_yields_fallback_witness :
  exists (diagnostic : jsstring) (r : StructuredAIResponse),
    sendMessageToLocalLLM unreachable (js "http://localhost:8000/v1/chat/completions")
      (js "edu-32b-finetuned") (js "You are EduMind") [] (js "What is 1/2 + 1/3?")
      = Normal (response_value r)
    /\ knowledge_point_id r = js "ERR_CONN"
    /\ student_mastery_score r = 0%Z
    /\ suggested_next_state r = GUIDING
    /\ is_direct_answer_attempt r = false
    /\ content_for_user r <> []
    /\ internal_monologue r
       = js "Connection failed to " ++ js "http://localhost:8000/v1/chat/completions"
         ++ js ". Error: " ++ diagnostic.
Proof.
  apply (gateway_failure_yields_fallback unreachable). exact I.
Defined.

(** A refused request and a completion that is not JSON, run through
    the gateway. *)
Example gateway_on_server_error :
  field (match sendMessageToLocalLLM serverError (js "http://localhost:8000") (js "edu-32b")
                 (js "You are EduMind") [] (js "Hi") with
         | Normal v => v
         | Throw _ => VUndefined
         end) "internal_monologue"
  = VStr (js "Connection failed to http://localhost:8000. Error: Error: Local API Error: 500 Internal Server Error").
Proof. vm_compute. reflexivity. Qed.

Example gateway_on_prose :
  sendMessageToLocalLLM (answering (js "Sure! The answer is 5/6.")) (js "http://localhost:8000")
    (js "edu-32b") (js "You are EduMind") [] (js "Hi")
  = Normal (fallbackResponse (js "http://localhost:8000")
              (new_Error (js "Failed to parse structured output from Local LLM"))).
Proof. vm_compute. reflexivity. Qed.

(** ** The outbound message sequence *)

Section Outbound.

Lemma historyEntry_not_system h : isSystemEntry (historyEntry h) = false.
Proof.
  unfold isSystemEntry, historyEntry. cbn [ApiMessage.role].
  destruct (Role_eqb (role h) assistant); vm_compute; reflexivity.
Qed.

Lemma history_has_no_system history :
  filter isSystemEntry (map historyEntry history) = [].
Proof.
  induction history as [|h history IH]; [reflexivity|].
  cbn [map filter]. rewrite historyEntry_not_system. exact IH.
Qed.

(** A prior assistant turn that carries a response goes out as the JSON
    text of the whole response, whatever text was displayed. *)
Lemma historyEntry_structured h r :
  role h = assistant -> metadata h = response_value r ->
  historyEntry h =
  {| ApiMessage.role := js "assistant";
     ApiMessage.content := VStr (stringify (response_value r)) |}.
Proof.
  intros Hrole Hmeta. unfold historyEntry. rewrite Hrole, Hmeta. reflexivity.
Qed.

Lemma historyEntry_plain h :
  role h <> assistant \/ truthy (metadata h) = false ->
  ApiMessage.content (historyEntry h) = content h.
Proof.
  unfold historyEntry. cbn [ApiMessage.content].
  intros [Hrole|Hmeta].
  - destruct (role h); try reflexivity. contradiction.
  - rewrite Hmeta, andb_false_r. reflexivity.
Qed.

(** The JSON text of a response spells out all six fields. *)
Lemma stringify_response r :
  stringify (response_value r) =
  js "{" ++ quote (js "content_for_user") ++ js ":" ++ quote (content_for_user r)
  ++ js "," ++ quote (js "internal_monologue") ++ js ":" ++ quote (internal_monologue r)
  ++ js "," ++ quote (js "knowledge_point_id") ++ js ":" ++ quote (knowledge_point_id r)
  ++ js "," ++ quote (js "student_mastery_score") ++ js ":"
            ++ number_toString (normalize (student_mastery_score r) 0)
  ++ js "," ++ quote (js "suggested_next_state") ++ js ":"
            ++ quote (PedagogicalState_text (suggested_next_state r))
  ++ js "," ++ quote (js "is_direct_answer_attempt") ++ js ":"
            ++ (if is_direct_answer_attempt r then js "true" else js "false")
  ++ js "}".
Proof.
  unfold response_value, state_value.
  rewrite stringify_ordered by (vm_compute; reflexivity).
  cbn [stringify join_with map].
  destruct (is_direct_answer_attempt r);
    repeat rewrite <- app_assoc; reflexivity.
Qed.

End Outbound.

(** ** Cleaning before parsing *)

Section Cleaning.

Variable env : Env.
Variables endpoint modelName systemPrompt : jsstring.
Variable history : list ChatMessage.
Variable userMessage : jsstring.

(** On a completion that is the non-empty text [raw], the local gateway
    parses the cleaned text, once; it never parses [raw] itself. *)
Lemma local_gateway_parses_cleaned_text status statusText text data choices c raw :
  fetch env (localRequest endpoint modelName systemPrompt history userMessage)
    = FetchResolves status statusText (BodyText text) ->
  status_ok status = true ->
  JSON_parse text = Some data ->
  get_prop data (js "choices") = Some choices ->
  firstChoiceContent choices = VStr (c :: raw) ->
  sendMessageToLocalLLM env endpoint modelName systemPrompt history userMessage
  = Normal match JSON_parse (cleanedJson (c :: raw)) with
           | Some parsed => parsed
           | None =>
               fallbackResponse endpoint
                 (new_Error (js "Failed to parse structured output from Local LLM"))
           end.
Proof.
  intros Hfetch Hok Hbody Hchoices Hcontent.
  unfold sendMessageToLocalLLM, requestAndParse.
  rewrite Hfetch, Hok. cbn [negb response_json bind].
  rewrite Hbody. cbn [bind]. unfold read. rewrite Hchoices. cbn [bind].
  rewrite Hcontent. cbn [truthy negb]. unfold parseRawContent.
  destruct (JSON_parse (cleanedJson (c :: raw))); reflexivity.
Qed.

(** The sibling gateway follows the recovery policy: the direct parse,
    the parse of the cleaned text only when that fails, the fallback only
    when both fail. *)
Lemma gemini_gateway_follows_recovery_policy c raw :
  GeminiService.sendMessageToEduMind env (geminiAnswering (c :: raw))
    systemPrompt history userMessage
  = Normal match recoveryPolicy (c :: raw) with
           | Some parsed => parsed
           | None =>
               GeminiService.fallbackResponse
                 (new_Error (js "Failed to parse model response as JSON"))
           end.
Proof.
  unfold GeminiService.sendMessageToEduMind, geminiAnswering, recoveryPolicy,
    GeminiService.parseText.
  destruct (JSON_parse (c :: raw)); [reflexivity|].
  destruct (JSON_parse (trim (strip_fences (c :: raw)))); reflexivity.
Qed.

(** The sibling gateway sends the same entries for the prior turns, and
    carries the instruction text apart from the sequence. *)
Lemma gemini_request_history :
  GeminiService.systemInstruction
    (GeminiService.generateRequest systemPrompt history userMessage) = systemPrompt
  /\ map GeminiService.Content.text
       (GeminiService.contents
          (GeminiService.generateRequest systemPrompt history userMessage))
     = map ApiMessage.content
         (tl (apiMessages systemPrompt history userMessage)).
Proof.
  split; [reflexivity|].
  unfold GeminiService.generateRequest, apiMessages.
  cbn [GeminiService.contents app tl].
  rewrite !map_app. unfold GeminiService.chatHistory. rewrite !map_map.
  reflexivity.
Qed.

End Cleaning.

(** C4 (failing input).  On the JSON text of [codeAnswer] the order the
    claim gives (direct parse first) yields [codeAnswer], and so does the
    sibling gateway [sendMessageToEduMind]; [sendMessageToLocalLLM]
    strips the backticks before its only parse and yields another
    record. *)
Theorem local_gateway_cleans_before_parsing :
  recoveryPolicy codeAnswerText = Some (response_value codeAnswer)
  /\ GeminiService.sendMessageToEduMind (answering codeAnswerText)
       (geminiAnswering codeAnswerText) (js "You are EduMind") []
       (js "How do I show code?")
     = Normal (response_value codeAnswer)
  /\ sendMessageToLocalLLM (answering codeAnswerText) (js "http://localhost:8000")
       (js "edu-32b-finetuned") (js "You are EduMind") [] (js "How do I show code?")
     = Normal (response_value codeAnswerStripped)
  /\ response_value codeAnswerStripped <> response_value codeAnswer.
Proof.
  repeat apply conj.
  - vm_compute. reflexivity.
  - vm_compute. reflexivity.
  - vm_compute. reflexivity.
  - vm_compute. discriminate.
Qed.

(** C5 (failing input).  The JSON text of [fenceAnswer] is valid and
    denotes [fenceAnswer], yet [sendMessageToLocalLLM] returns a record
    whose [content_for_user] has lost the fence markers; wrapped in code
    fences the same text gives that same altered record. *)
Theorem local_gateway_alters_valid_json :
  JSON_parse fenceAnswerText = Some (response_value fenceAnswer)
  /\ (exists altered,
        sendMessageToLocalLLM (answering fenceAnswerText) (js "http://localhost:8000")
          (js "edu-32b-finetuned") (js "You are EduMind") [] (js "What is a fence?")
        = Normal altered
        /\ sendMessageToLocalLLM (answering (fenced fenceAnswerText))
             (js "http://localhost:8000") (js "edu-32b-finetuned")
             (js "You are EduMind") [] (js "What is a fence?")
           = Normal altered
        /\ field altered "content_for_user"
           = VStr (js "Open the block with  and close it with .")
        /\ altered <> response_value fenceAnswer).
Proof.
  split.
  - vm_compute. reflexivity.
  - eexists. repeat apply conj.
    + vm_compute. reflexivity.
    + vm_compute. reflexivity.
    + vm_compute. reflexivity.
    + vm_compute. discriminate.
Qed.

(** ** One turn of the controller *)

Section Turn.

Lemma read_total env response k0 x :
  get_prop response k0 = Some x ->
  forall k, read env response k = Normal (opt_prop response k).
Proof.
  intros H k. unfold read, opt_prop.
  destruct response; try discriminate H; reflexivity.
Qed.

Lemma skipn_transcript {A} (l a b : list A) :
  skipn (List.length l) ((l ++ a) ++ b) = a ++ b.
Proof. rewrite <- app_assoc. induction l; simpl; auto. Qed.

Lemma skipn_transcript3 {A} (l a b c : list A) :
  skipn (List.length l) (((l ++ a) ++ b) ++ c) = a ++ b ++ c.
Proof. rewrite <- !app_assoc. induction l; simpl; auto. Qed.

End Turn.

(** Symbolic execution of [handleSend]: unfold the monad, then split on
    the next condition or database fault the handler looks at. *)
Ltac exec :=
  cbv beta iota delta
    [turn handleSend exchange reportError shouldRecordMistake addMistake saveChatHistory
     bindM ret raise lift catchM finallyM readM setMessages setInput setIsLoading
     setCurrentState setLastMetadata update_react update_db Date_now log_call next_fault
     world_of inference mistakeRecords appended store_add store_put field];
  cbn [snd fst react db clock_reads db_ops calls mistakes mistake_key chats
     subject mode student apiUrl modelName messages input isLoading currentState lastMetadata
     negb orb andb flat_map app].

Ltac crunch :=
  repeat (exec;
    match goal with
    | |- context [if ?c then _ else _] => destruct c eqn:?
    | |- context [match db_fault ?e ?k with _ => _ end] => destruct (db_fault e k) eqn:?
    end);
  exec.

Ltac close_outcome :=
  lazymatch goal with
  | |- _ /\ _ -> _ =>
      let H1 := fresh in let H2 := fresh in
      intros [H1 H2];
      first [ discriminate H1
            | exfalso; apply H2; reflexivity
            | rewrite ?skipn_transcript; do 2 eexists; repeat apply conj; reflexivity ]
  | |- (_ -> _) -> _ =>
      let H := fresh in
      intros H;
      first [ specialize (H eq_refl); discriminate H
            | rewrite ?skipn_transcript, ?skipn_transcript3;
              do 3 eexists; repeat apply conj; reflexivity ]
  | |- _ = _ -> _ =>
      let H := fresh in
      intros H;
      first [ discriminate H | reflexivity | rewrite app_nil_r; reflexivity ]
  end.

(** What a turn leaves behind when the gateway returned [response] and
    [response] is not [null]: the next state, the stored response, the
    records passed to [addMistake], the mistake store and the
    transcript. *)
Lemma turn_outcome env st d response x :
  trim (input st) <> [] -> isLoading st = false ->
  inference env st = Normal response ->
  get_prop response (js "suggested_next_state") = Some x ->
  let w := turn env st d in
  let recording :=
    if TaskMode_eqb (mode st) MISTAKE_ANALYSIS
    then if truthy (field response "knowledge_point_id")
         then truthy (field response "internal_monologue") else false
    else false in
  let record :=
    {| MistakeRecord.userEmail := email (student st);
       MistakeRecord.subject := subject st;
       MistakeRecord.question := substring0 100 (input st);
       MistakeRecord.analysis := field response "internal_monologue";
       MistakeRecord.knowledgePoint := field response "knowledge_point_id";
       MistakeRecord.timestamp := now env 2 |} in
  let display :=
    if truthy (field response "is_direct_answer_attempt")
       && strict_eq (currentState st) (state_value GUIDING)
    then VStr redirectMessage else field response "content_for_user" in
  currentState (react w) =
    (if truthy (field response "suggested_next_state")
        && negb (strict_eq (field response "suggested_next_state") (currentState st))
     then field response "suggested_next_state" else currentState st)
  /\ lastMetadata (react w) = response
  /\ isLoading (react w) = false
  /\ mistakeRecords w = (if recording then [record] else [])
  /\ (db_fault env 0 = NoFault ->
      mistakes (db w) =
      mistakes d ++ (if recording then [(mistake_key d, record)] else []))
  /\ ((recording = true -> db_fault env 0 = NoFault) ->
      exists userMsg botMsg rest,
        appended st w = userMsg :: botMsg :: rest
        /\ role userMsg = user /\ content userMsg = VStr (input st)
        /\ role botMsg = assistant /\ content botMsg = display
        /\ metadata botMsg = response)
  /\ (recording = true /\ db_fault env 0 <> NoFault ->
      exists userMsg errorMsg,
        appended st w = [userMsg; errorMsg]
        /\ role errorMsg = assistant
        /\ content errorMsg = VStr systemErrorMessage
        /\ metadata errorMsg = VUndefined).
Proof.
  intros Hin Hload Hsend Hs w.
  assert (Hw : w = turn env st d) by reflexivity. clearbody w. revert Hw.
  pose proof (@read_total env _ _ _ Hs) as Hread.
  unfold inference in Hsend.
  exec. rewrite (@truthy_nonempty _ Hin), Hload. exec. rewrite Hsend. exec.
  rewrite !Hread.
  crunch.
  all: intros ->; unfold mistakeRecords, appended;
    cbn [snd fst react db clock_reads db_ops calls mistakes mistake_key chats
         subject mode student apiUrl modelName messages input isLoading currentState
         lastMetadata flat_map app];
    repeat apply conj; try reflexivity.
  all: close_outcome.
Qed.

Section TypedResponses.

Variable r : StructuredAIResponse.

Lemma response_not_null :
  get_prop (response_value r) (js "suggested_next_state")
  = Some (state_value (suggested_next_state r)).
Proof. reflexivity. Qed.

Lemma field_content : field (response_value r) "content_for_user" = VStr (content_for_user r).
Proof. reflexivity. Qed.

Lemma field_monologue :
  field (response_value r) "internal_monologue" = VStr (internal_monologue r).
Proof. reflexivity. Qed.

Lemma field_knowledge_point :
  field (response_value r) "knowledge_point_id" = VStr (knowledge_point_id r).
Proof. reflexivity. Qed.

Lemma field_next_state :
  field (response_value r) "suggested_next_state" = state_value (suggested_next_state r).
Proof. reflexivity. Qed.

Lemma field_flag :
  field (response_value r) "is_direct_answer_attempt" = VBool (is_direct_answer_attempt r).
Proof. reflexivity. Qed.

End TypedResponses.

Lemma truthy_string s : truthy (VStr s) = true <-> s <> [].
Proof. destruct s; simpl; split; intros H; congruence. Qed.

Lemma TaskMode_eqb_eq a b : TaskMode_eqb a b = true <-> a = b.
Proof. destruct a, b; simpl; split; intros H; congruence. Qed.

Lemma tutor_replies m s :
  inference tutor (asking m (state_value s) question) = Normal (response_value directAnswer).
Proof. destruct m, s; vm_compute; reflexivity. Qed.

(** C2.  The controller starts in GUIDING.  Whenever the response of a
    turn carries a [suggested_next_state] that is present (truthy) and
    differs from the current state, that value becomes the current
    state, with no check on which transition it is; so GUIDING with a
    suggestion of EXPLAINING ends in EXPLAINING. *)
Theorem state_follows_suggestion :
  currentState initialAppState = state_value GUIDING
  /\ (forall (env : Env) (st : AppState) (d : Database) (response suggested : value),
        trim (input st) <> [] -> isLoading st = false ->
        inference env st = Normal response ->
        get_prop response (js "suggested_next_state") = Some suggested ->
        truthy suggested = true ->
        strict_eq suggested (currentState st) = false ->
        currentState (react (turn env st d)) = suggested)
  /\ (forall (env : Env) (st : AppState) (d : Database) (r : StructuredAIResponse),
        trim (input st) <> [] -> isLoading st = false ->
        inference env st = Normal (response_value r) ->
        currentState st = state_value GUIDING ->
        suggested_next_state r = EXPLAINING ->
        currentState (react (turn env st d)) = state_value EXPLAINING).
Proof.
  assert (Hgen : forall env st d response suggested,
             trim (input st) <> [] -> isLoading st = false ->
             inference env st = Normal response ->
             get_prop response (js "suggested_next_state") = Some suggested ->
             truthy suggested = true ->
             strict_eq suggested (currentState st) = false ->
             currentState (react (turn env st d)) = suggested).
  { intros env st d response suggested Hin Hload Hsend Hs Ht Hne.
    destruct (turn_outcome env st d response suggested Hin Hload Hsend Hs)
      as (Hstate & _).
    rewrite Hstate. unfold field, opt_prop. rewrite Hs, Ht, Hne. reflexivity. }
  repeat apply conj.
  - reflexivity.
  - exact Hgen.
  - intros env st d r Hin Hload Hsend Hcur Hsug.
    rewrite (Hgen env st d _ _ Hin Hload Hsend (response_not_null r));
      rewrite ?Hcur, Hsug; reflexivity.
Qed.

(** Without a suggestion, or with the current state suggested again,
    the state stays as it is. *)
Lemma state_kept_otherwise env st d response suggested :
  trim (input st) <> [] -> isLoading st = false ->
  inference env st = Normal response ->
  get_prop response (js "suggested_next_state") = Some suggested ->
  truthy suggested = false \/ strict_eq suggested (currentState st) = true ->
  currentState (react (turn env st d)) = currentState st.
Proof.
  intros Hin Hload Hsend Hs Hno.
  destruct (turn_outcome env st d response suggested Hin Hload Hsend Hs)
    as (Hstate & _).
  rewrite Hstate. unfold field, opt_prop. rewrite Hs.
  destruct Hno as [H|H]; rewrite H; [|rewrite andb_false_r]; reflexivity.
Qed.

Lemma state_follows_suggestion_witness :
  currentState
    (react (turn tutor (asking MISTAKE_ANALYSIS (state_value GUIDING) question)
                 emptyDatabase))
  = state_value EXPLAINING.
Proof.
  destruct state_follows_suggestion as (_ & _ & Hturn).
  apply (Hturn tutor _ emptyDatabase directAnswer).
  - vm_compute. discriminate.
  - reflexivity.
  - apply tutor_replies.
  - reflexivity.
  - reflexivity.
Defined.

(** A suggestion outside the three states is adopted like any other,
    and the next instruction then carries no state directive at all. *)
Example unknown_state_is_adopted :
  currentState
    (react (turn (answering (stringify (VObj [(js "content_for_user", VStr (js "Break time!"));
                                              (js "suggested_next_state", VStr (js "RECESS"))])))
                 (asking HOMEWORK_HELP (state_value GUIDING) question) emptyDatabase))
  = VStr (js "RECESS")
  /\ behavioralDirectives (student initialAppState) (VStr (js "RECESS")) = [].
Proof. split; vm_compute; reflexivity. Qed.

(** C1 (as amended).  In a turn whose write to the mistake book, if
    the turn makes one, does not fail: when the response has
    [is_direct_answer_attempt = true] and the turn was requested in state
    GUIDING, the assistant turn appended to the transcript displays the
    fixed redirect message, whatever [content_for_user] says, and carries
    the whole response as metadata; requested in state EXPLAINING or
    QUIZZING, it displays [content_for_user] unchanged. *)
Theorem guardrail_overrides_display :
  forall (env : Env) (st : AppState) (d : Database) (r : StructuredAIResponse),
    trim (input st) <> [] -> isLoading st = false ->
    inference env st = Normal (response_value r) ->
    (mode st = MISTAKE_ANALYSIS -> knowledge_point_id r <> [] ->
     internal_monologue r <> [] -> db_fault env 0 = NoFault) ->
    exists userMsg botMsg rest,
      appended st (turn env st d) = userMsg :: botMsg :: rest
      /\ role botMsg = assistant
      /\ metadata botMsg = response_value r
      /\ field (metadata botMsg) "content_for_user" = VStr (content_for_user r)
      /\ (is_direct_answer_attempt r = true ->
          currentState st = state_value GUIDING ->
          content botMsg = VStr redirectMessage)
      /\ (currentState st = state_value EXPLAINING
          \/ currentState st = state_value QUIZZING ->
          content botMsg = VStr (content_for_user r)).
Proof.
  intros env st d r Hin Hload Hsend Hdb.
  destruct (turn_outcome env st d _ _ Hin Hload Hsend (response_not_null r))
    as (_ & _ & _ & _ & _ & Htranscript & _).
  destruct Htranscript as (userMsg & botMsg & rest & Happ & _ & _ & Hrole & Hcontent & Hmeta).
  { rewrite field_knowledge_point, field_monologue.
    intros Hrec.
    destruct (TaskMode_eqb (mode st) MISTAKE_ANALYSIS) eqn:Hmode; [|discriminate].
    destruct (truthy (VStr (knowledge_point_id r))) eqn:Hkp; [|discriminate].
    apply Hdb.
    - apply TaskMode_eqb_eq. exact Hmode.
    - apply truthy_string. exact Hkp.
    - apply truthy_string. exact Hrec. }
  exists userMsg, botMsg, rest.
  rewrite Hcontent, Hmeta, field_flag, field_content.
  repeat apply conj; try assumption; try reflexivity.
  - intros Hflag Hcur. rewrite Hflag, Hcur. reflexivity.
  - intros [Hcur|Hcur]; rewrite Hcur;
      destruct (is_direct_answer_attempt r); reflexivity.
Qed.

Lemma guardrail_overrides_display_witness :
  exists botMsg,
    nth_error (appended (asking MISTAKE_ANALYSIS (state_value GUIDING) question)
                 (turn tutor (asking MISTAKE_ANALYSIS (state_value GUIDING) question)
                       emptyDatabase)) 1 = Some botMsg
    /\ content botMsg = VStr redirectMessage
    /\ metadata botMsg = response_value directAnswer.
Proof.
  destruct (guardrail_overrides_display tutor
              (asking MISTAKE_ANALYSIS (state_value GUIDING) question)
              emptyDatabase directAnswer)
    as (userMsg & botMsg & rest & Happ & _ & Hmeta & _ & Hguiding & _).
  - vm_compute. discriminate.
  - reflexivity.
  - apply tutor_replies.
  - intros _ _ _. reflexivity.
  - exists botMsg. rewrite Happ. repeat apply conj.
    + reflexivity.
    + apply Hguiding; reflexivity.
    + exact Hmeta.
Defined.

(** When the write to the mistake book fails, the turn ends in the
    [catch] block: the transcript gains the user turn and the
    system-error turn, and no turn that carries the response. *)
Lemma failed_mistake_write_reports_error :
  forall (env : Env) (st : AppState) (d : Database) (r : StructuredAIResponse),
    trim (input st) <> [] -> isLoading st = false ->
    inference env st = Normal (response_value r) ->
    mode st = MISTAKE_ANALYSIS ->
    knowledge_point_id r <> [] -> internal_monologue r <> [] ->
    db_fault env 0 <> NoFault ->
    exists userMsg errorMsg,
      appended st (turn env st d) = [userMsg; errorMsg]
      /\ role errorMsg = assistant
      /\ content errorMsg = VStr systemErrorMessage
      /\ metadata errorMsg = VUndefined.
Proof.
  intros env st d r Hin Hload Hsend Hmode Hkp Hmono Hfault.
  destruct (turn_outcome env st d _ _ Hin Hload Hsend (response_not_null r))
    as (_ & _ & _ & _ & _ & _ & Herror).
  apply Herror. split; [|exact Hfault].
  rewrite field_knowledge_point, field_monologue, Hmode.
  apply truthy_string in Hkp. apply truthy_string in Hmono.
  rewrite Hkp, Hmono. reflexivity.
Qed.

(** C1 (as stated) fails when the database rejects the write to the
    mistake book: the response gives the answer away and the state is
    GUIDING, yet the transcript gains the user turn and the system-error
    turn only; nothing displays the redirect message and nothing carries
    the response. *)
Lemma guardrail_display_counterexample :
  inference failingStore guidingTurn = Normal (response_value directAnswer)
  /\ is_direct_answer_attempt directAnswer = true
  /\ currentState guidingTurn = state_value GUIDING
  /\ map content (appended guidingTurn (turn failingStore guidingTurn emptyDatabase))
     = [VStr question; VStr systemErrorMessage]
  /\ map metadata (appended guidingTurn (turn failingStore guidingTurn emptyDatabase))
     = [VUndefined; VUndefined]
  /\ ~ (exists botMsg,
          In botMsg (appended guidingTurn (turn failingStore guidingTurn emptyDatabase))
          /\ content botMsg = VStr redirectMessage).
Proof.
  assert (Hcontents :
            map content (appended guidingTurn (turn failingStore guidingTurn emptyDatabase))
            = [VStr question; VStr systemErrorMessage])
    by (vm_compute; reflexivity).
  repeat apply conj.
  - vm_compute. reflexivity.
  - reflexivity.
  - reflexivity.
  - exact Hcontents.
  - vm_compute. reflexivity.
  - intros (botMsg & Hin & Hc).
    apply (in_map content) in Hin. rewrite Hcontents, Hc in Hin.
    destruct Hin as [H|[H|[]]]; revert H; vm_compute; discriminate.
Qed.

(** C9.  In a turn, [addMistake] is called once if the task mode is
    MISTAKE_ANALYSIS and the response carries a non-empty
    [knowledge_point_id] and a non-empty [internal_monologue], with a
    record made of the learner's e-mail, the subject, the first hundred
    code units of the question, the monologue as analysis and the
    knowledge point; in every other case it is not called at all. *)
Theorem mistake_archive_trigger :
  forall (env : Env) (st : AppState) (d : Database) (r : StructuredAIResponse),
    trim (input st) <> [] -> isLoading st = false ->
    inference env st = Normal (response_value r) ->
    let triggered :=
      mode st = MISTAKE_ANALYSIS /\ knowledge_point_id r <> []
      /\ internal_monologue r <> [] in
    let record :=
      {| MistakeRecord.userEmail := email (student st);
         MistakeRecord.subject := subject st;
         MistakeRecord.question := substring0 100 (input st);
         MistakeRecord.analysis := VStr (internal_monologue r);
         MistakeRecord.knowledgePoint := VStr (knowledge_point_id r);
         MistakeRecord.timestamp := now env 2 |} in
    (triggered -> mistakeRecords (turn env st d) = [record])
    /\ (~ triggered -> mistakeRecords (turn env st d) = [])
    /\ (List.length (mistakeRecords (turn env st d)) = 1 <-> triggered).
Proof.
  intros env st d r Hin Hload Hsend triggered record.
  destruct (turn_outcome env st d _ _ Hin Hload Hsend (response_not_null r))
    as (_ & _ & _ & Hcalls & _).
  rewrite field_monologue, field_knowledge_point in Hcalls.
  fold record in Hcalls.
  assert (Hiff : (if TaskMode_eqb (mode st) MISTAKE_ANALYSIS
                  then if truthy (VStr (knowledge_point_id r))
                       then truthy (VStr (internal_monologue r)) else false
                  else false) = true <-> triggered).
  { unfold triggered. rewrite <- TaskMode_eqb_eq, <- !truthy_string.
    destruct (TaskMode_eqb (mode st) MISTAKE_ANALYSIS),
             (truthy (VStr (knowledge_point_id r))),
             (truthy (VStr (internal_monologue r))); intuition congruence. }
  destruct (if TaskMode_eqb (mode st) MISTAKE_ANALYSIS
            then if truthy (VStr (knowledge_point_id r))
                 then truthy (VStr (internal_monologue r)) else false
            else false); rewrite Hcalls.
  - split; [|split].
    + reflexivity.
    + intros Hn. exfalso. apply Hn, Hiff. reflexivity.
    + split; intros _; [apply Hiff|]; reflexivity.
  - split; [|split].
    + intros Ht. apply Hiff in Ht. discriminate Ht.
    + reflexivity.
    + split; [discriminate|]. intros Ht. apply Hiff in Ht. discriminate Ht.
Qed.

Lemma mistake_archive_trigger_witness :
  List.length
    (mistakeRecords (turn tutor (asking MISTAKE_ANALYSIS (state_value GUIDING) question)
                          emptyDatabase)) = 1
  /\ mistakeRecords (turn tutor (asking HOMEWORK_HELP (state_value GUIDING) question)
                          emptyDatabase) = [].
Proof.
  split.
  - apply (mistake_archive_trigger tutor
             (asking MISTAKE_ANALYSIS (state_value GUIDING) question)
             emptyDatabase directAnswer).
    + vm_compute. discriminate.
    + reflexivity.
    + apply tutor_replies.
    + repeat split; vm_compute; discriminate.
  - apply (mistake_archive_trigger tutor
             (asking HOMEWORK_HELP (state_value GUIDING) question)
             emptyDatabase directAnswer).
    + vm_compute. discriminate.
    + reflexivity.
    + apply tutor_replies.
    + intros [Hmode _]. discriminate Hmode.
Defined.

Lemma fallback_truthy endpoint diagnostic :
  truthy (field (response_value (fallbackRecord endpoint diagnostic)) "knowledge_point_id")
  = true
  /\ truthy (field (response_value (fallbackRecord endpoint diagnostic))
               "internal_monologue") = true.
Proof. split; vm_compute; reflexivity. Qed.

Lemma fallback_monologue endpoint diagnostic :
  internal_monologue (fallbackRecord endpoint diagnostic)
  = js "Connection failed to " ++ endpoint ++ js ". Error: " ++ diagnostic.
Proof. unfold fallbackRecord. cbn [internal_monologue]. reflexivity. Qed.

Lemma fallback_knowledge_point endpoint diagnostic :
  knowledge_point_id (fallbackRecord endpoint diagnostic) = js "ERR_CONN".
Proof. unfold fallbackRecord. cbn [knowledge_point_id]. reflexivity. Qed.

(** C10.  When the inference call of a turn in mode MISTAKE_ANALYSIS
    goes wrong, the turn still hands [addMistake] one record: its
    knowledge point is ERR_CONN and its analysis is the text of the
    connection diagnostic; a database without fault stores it in the
    mistake book. *)
Theorem failed_inference_is_archived :
  forall (env : Env) (st : AppState) (d : Database),
    trim (input st) <> [] -> isLoading st = false ->
    mode st = MISTAKE_ANALYSIS ->
    goesWrong env (inferenceRequest st) ->
    exists diagnostic : jsstring,
      let record :=
        {| MistakeRecord.userEmail := email (student st);
           MistakeRecord.subject := subject st;
           MistakeRecord.question := substring0 100 (input st);
           MistakeRecord.analysis :=
             VStr (js "Connection failed to " ++ apiUrl st ++ js ". Error: " ++ diagnostic);
           MistakeRecord.knowledgePoint := VStr (js "ERR_CONN");
           MistakeRecord.timestamp := now env 2 |} in
      mistakeRecords (turn env st d) = [record]
      /\ (db_fault env 0 = NoFault ->
          mistakes (db (turn env st d)) = mistakes d ++ [(mistake_key d, record)]).
Proof.
  intros env st d Hin Hload Hmode Hwrong.
  destruct (failure_throws _ _ _ _ _ _ Hwrong) as [error Herr].
  pose proof (gateway_catches _ _ _ _ _ _ _ Herr) as Hsend.
  rewrite fallback_is_record in Hsend.
  exists (thrown_toString error).
  pose proof (fallback_truthy (apiUrl st) (thrown_toString error)) as [Hkp Hmono].
  destruct (turn_outcome env st d _ _ Hin Hload Hsend
              (response_not_null (fallbackRecord (apiUrl st) (thrown_toString error))))
    as (_ & _ & _ & Hcalls & Hdb & _).
  rewrite Hkp, Hmono, Hmode in Hcalls, Hdb.
  cbn [TaskMode_eqb] in Hcalls, Hdb.
  rewrite field_monologue, field_knowledge_point in Hcalls, Hdb.
  rewrite fallback_monologue, fallback_knowledge_point in Hcalls, Hdb.
  split; [exact Hcalls|exact Hdb].
Qed.

Lemma failed_inference_is_archived_witness :
  exists record,
    mistakes (db (turn unreachable (asking MISTAKE_ANALYSIS (state_value GUIDING) question)
                       emptyDatabase)) = [(1%Z, record)]
    /\ MistakeRecord.knowledgePoint record = VStr (js "ERR_CONN").
Proof.
  destruct (failed_inference_is_archived unreachable
              (asking MISTAKE_ANALYSIS (state_value GUIDING) question) emptyDatabase)
    as (diagnostic & _ & Hdb).
  - vm_compute. discriminate.
  - reflexivity.
  - reflexivity.
  - exact I.
  - eexists. split.
    + apply Hdb. reflexivity.
    + reflexivity.
Defined.

Lemma instruction_has_own_directives_only_witness :
  forallb (includes (constructSystemPrompt MATH (student initialAppState)
                       MISTAKE_ANALYSIS (state_value GUIDING)))
          (directives MIDDLE GUIDING) = true
  /\ forallb (fun kw => negb (includes (constructSystemPrompt MATH (student initialAppState)
                                          MISTAKE_ANALYSIS (state_value GUIDING)) kw))
             (directives MIDDLE EXPLAINING) = true.
Proof.
  destruct (instruction_has_own_directives_only MATH (student initialAppState)
              MISTAKE_ANALYSIS GUIDING) as [Hown Hother].
  split.
  - exact Hown.
  - apply Hother. discriminate.
Defined.

(** * Further properties *)

(** ** Printing and parsing JSON text *)

Section JsonStrings.

Lemma jsstring_eqb_eq a b : jsstring_eqb a b = true <-> a = b.
Proof.
  revert b. induction a as [|x a IH]; intros [|y b]; simpl; split; intros H;
    try reflexivity; try discriminate.
  - apply andb_prop in H as [Hx Hab]. apply N.eqb_eq in Hx. apply IH in Hab. congruence.
  - injection H as -> ->. rewrite N.eqb_refl. apply IH. reflexivity.
Qed.

Lemma jsstring_eqb_refl a : jsstring_eqb a a = true.
Proof. apply jsstring_eqb_eq. reflexivity. Qed.

Lemma jsstring_eqb_neq a b : a <> b -> jsstring_eqb a b = false.
Proof.
  intros H. destruct (jsstring_eqb a b) eqn:E; [|reflexivity].
  apply jsstring_eqb_eq in E. contradiction.
Qed.

Lemma hex_value_digit n : (n < 16)%N -> hex_value (hex_digit n) = Some n.
Proof.
  intros H.
  assert (Hcases : In n (map N.of_nat (seq 0 16))).
  { rewrite <- (N2Nat.id n). apply in_map. apply in_seq. lia. }
  simpl in Hcases.
  repeat (destruct Hcases as [<-|Hcases]; [reflexivity|]). contradiction.
Qed.

Lemma hex4_escape c :
  (c < 65536)%N ->
  hex4 (hex_digit (c / 4096)) (hex_digit ((c / 256) mod 16))
       (hex_digit ((c / 16) mod 16)) (hex_digit (c mod 16)) = Some c.
Proof.
  intros Hc. unfold hex4.
  rewrite !hex_value_digit.
  - f_equal.
    pose proof (N.div_mod c 16 ltac:(lia)) as H0.
    pose proof (N.div_mod (c / 16) 16 ltac:(lia)) as H1.
    pose proof (N.div_mod (c / 256) 16 ltac:(lia)) as H2.
    rewrite N.Div0.div_div in H1. change (16 * 16)%N with 256%N in H1.
    rewrite N.Div0.div_div in H2. change (256 * 16)%N with 4096%N in H2.
    lia.
  - apply N.mod_lt. lia.
  - apply N.mod_lt. lia.
  - apply N.mod_lt. lia.
  - apply N.Div0.div_lt_upper_bound. lia.
Qed.

End JsonStrings.

Section Quoting.

Lemma parse_unicode_escape c t :
  (c < 65536)%N ->
  parse_string_chars (unicode_escape c ++ t) = push_char c (parse_string_chars t).
Proof.
  intros Hc. unfold unicode_escape, backslash.
  change (js "u") with [117%N]. cbn [app].
  cbn [parse_string_chars]. cbn [N.eqb Pos.eqb].
  rewrite hex4_escape by exact Hc. reflexivity.
Qed.

Lemma parse_plain_char c t :
  c <> 34%N -> c <> 92%N -> (32 <= c)%N ->
  parse_string_chars (c :: t) = push_char c (parse_string_chars t).
Proof.
  intros H1 H2 H3. cbn [parse_string_chars].
  destruct (N.eqb_spec c 34); [contradiction|].
  destruct (N.eqb_spec c 92); [contradiction|].
  destruct (N.ltb_spec c 32); [lia|]. reflexivity.
Qed.

Lemma surrogate_bounds c :
  is_high_surrogate c = true \/ is_low_surrogate c = true ->
  (55296 <= c < 57344)%N.
Proof.
  unfold is_high_surrogate, is_low_surrogate.
  intros [H|H]; apply andb_prop in H as [H1 H2];
    apply N.leb_le in H1; apply N.leb_le in H2; lia.
Qed.

Lemma parse_quoted_upto n :
  forall s, List.length s <= n ->
  forall tail, parse_string_chars (quote_chars s ++ 34%N :: tail) = Some (s, tail).
Proof.
  induction n as [|n IH]; intros s Hlen tail.
  - destruct s; [|simpl in Hlen; lia]. reflexivity.
  - destruct s as [|c rest]; [reflexivity|].
    simpl in Hlen.
    assert (Hrest : parse_string_chars (quote_chars rest ++ 34%N :: tail) = Some (rest, tail))
      by (apply IH; lia).
    cbn [quote_chars]. unfold backslash, dq.
    destruct (N.eqb_spec c 34) as [->|H34].
    { cbn [app]. cbn [parse_string_chars N.eqb Pos.eqb unescape].
      rewrite Hrest. reflexivity. }
    destruct (N.eqb_spec c 92) as [->|H92].
    { cbn [app]. cbn [parse_string_chars N.eqb Pos.eqb unescape].
      rewrite Hrest. reflexivity. }
    destruct (N.eqb_spec c 8) as [->|H8].
    { change (js "b") with [98%N]. cbn [app].
      cbn [parse_string_chars N.eqb Pos.eqb unescape].
      rewrite Hrest. reflexivity. }
    destruct (N.eqb_spec c 12) as [->|H12].
    { change (js "f") with [102%N]. cbn [app].
      cbn [parse_string_chars N.eqb Pos.eqb unescape].
      rewrite Hrest. reflexivity. }
    destruct (N.eqb_spec c 10) as [->|H10].
    { change (js "n") with [110%N]. cbn [app].
      cbn [parse_string_chars N.eqb Pos.eqb unescape].
      rewrite Hrest. reflexivity. }
    destruct (N.eqb_spec c 13) as [->|H13].
    { change (js "r") with [114%N]. cbn [app].
      cbn [parse_string_chars N.eqb Pos.eqb unescape].
      rewrite Hrest. reflexivity. }
    destruct (N.eqb_spec c 9) as [->|H9].
    { change (js "t") with [116%N]. cbn [app].
      cbn [parse_string_chars N.eqb Pos.eqb unescape].
      rewrite Hrest. reflexivity. }
    destruct (N.ltb_spec c 32) as [Hlow|Hge].
    { rewrite <- app_assoc, parse_unicode_escape by lia.
      rewrite Hrest. reflexivity. }
    destruct (is_high_surrogate c) eqn:Hhigh.
    { pose proof (surrogate_bounds c (or_introl Hhigh)) as Hb.
      destruct rest as [|l rest1].
      - rewrite parse_unicode_escape by lia. reflexivity.
      - destruct (is_low_surrogate l) eqn:Hl.
        + pose proof (surrogate_bounds l (or_intror Hl)) as Hbl.
          cbn [app].
          rewrite parse_plain_char by lia.
          rewrite parse_plain_char by lia.
          rewrite (IH rest1) by (simpl in Hlen; lia). reflexivity.
        + rewrite <- app_assoc, parse_unicode_escape by lia.
          rewrite Hrest. reflexivity. }
    destruct (is_low_surrogate c) eqn:Hlo.
    { pose proof (surrogate_bounds c (or_intror Hlo)) as Hb.
      rewrite <- app_assoc, parse_unicode_escape by lia.
      rewrite Hrest. reflexivity. }
    cbn [app]. rewrite parse_plain_char by lia. rewrite Hrest. reflexivity.
Qed.

(** A quoted string reads back as the string, whatever it holds. *)
Lemma parse_quoted s tail :
  parse_string_chars (quote_chars s ++ 34%N :: tail) = Some (s, tail).
Proof. apply (parse_quoted_upto (List.length s)). lia. Qed.

End Quoting.

(** Splits a code unit into its bits until a [match] on it reduces. *)
Ltac split_char c :=
  destruct c as [|c]; [try reflexivity|];
  repeat (destruct c as [c|c|]; try reflexivity; try congruence).

Section JsonNumbers.

Lemma ends_number_spec c t :
  ends_number (c :: t) = true ->
  is_digit c = false /\ c <> 46%N /\ c <> 101%N /\ c <> 69%N.
Proof.
  unfold ends_number. intros H. apply negb_true_iff in H.
  apply orb_false_elim in H as [H H69]. apply orb_false_elim in H as [H H101].
  apply orb_false_elim in H as [Hd H46].
  apply N.eqb_neq in H69, H101, H46. auto.
Qed.

Lemma span_digits_frame s t :
  ends_number t = true ->
  forall ds r, span_digits s = (ds, r) -> span_digits (s ++ t) = (ds, r ++ t).
Proof.
  intros Ht. induction s as [|c s IH]; intros ds r H.
  - simpl in H. injection H as <- <-. destruct t as [|c t]; [reflexivity|].
    apply ends_number_spec in Ht as [Hd _]. simpl. rewrite Hd. reflexivity.
  - simpl in H |- *. destruct (is_digit c).
    + destruct (span_digits s) as [ds' r'] eqn:E. injection H as <- <-.
      rewrite (IH ds' r' eq_refl). reflexivity.
    + injection H as <- <-. reflexivity.
Qed.

Lemma parse_fraction_cons c rest :
  parse_fraction (c :: rest) =
  if (c =? 46)%N
  then match span_digits rest with
       | ([], _) => None
       | (ds, r) => Some (ds, r)
       end
  else Some ([], c :: rest).
Proof.
  destruct (N.eqb_spec c 46) as [->|H]; [reflexivity|].
  unfold parse_fraction. split_char c.
Qed.

Lemma parse_fraction_frame s t :
  ends_number t = true ->
  forall fs r, parse_fraction s = Some (fs, r) -> parse_fraction (s ++ t) = Some (fs, r ++ t).
Proof.
  intros Ht fs r H. destruct s as [|c s].
  - simpl in H. injection H as <- <-. destruct t as [|c t]; [reflexivity|].
    apply ends_number_spec in Ht as (_ & H46 & _).
    cbn [app]. rewrite parse_fraction_cons.
    destruct (N.eqb_spec c 46); [contradiction|reflexivity].
  - cbn [app]. rewrite parse_fraction_cons in H |- *.
    destruct (c =? 46)%N.
    + destruct (span_digits s) as [ds r'] eqn:E.
      rewrite (span_digits_frame s t Ht ds r' E).
      destruct ds; [discriminate|]. injection H as <- <-. reflexivity.
    + injection H as <- <-. reflexivity.
Qed.

Lemma parse_exponent_cons c rest :
  parse_exponent (c :: rest) =
  if ((c =? 101) || (c =? 69))%N then
    match rest with
    | [] => None
    | c2 :: s2 =>
        if (c2 =? 45)%N then
          match span_digits s2 with
          | ([], _) => None
          | (ds, r) => Some ((- digits_value ds)%Z, r)
          end
        else
          match span_digits (if (c2 =? 43)%N then s2 else c2 :: s2) with
          | ([], _) => None
          | (ds, r) => Some (digits_value ds, r)
          end
    end
  else Some (0%Z, c :: rest).
Proof.
  unfold parse_exponent. destruct ((c =? 101) || (c =? 69))%N; [|reflexivity].
  destruct rest as [|c2 s2]; [reflexivity|].
  destruct (N.eqb_spec c2 45) as [->|H45]; [reflexivity|].
  destruct (N.eqb_spec c2 43) as [->|H43]; [reflexivity|].
  split_char c2.
Qed.

Lemma parse_exponent_frame s t :
  ends_number t = true ->
  forall e r, parse_exponent s = Some (e, r) -> parse_exponent (s ++ t) = Some (e, r ++ t).
Proof.
  intros Ht e r H. destruct s as [|c s].
  - simpl in H. injection H as <- <-. destruct t as [|c t]; [reflexivity|].
    apply ends_number_spec in Ht as (_ & _ & H101 & H69).
    cbn [app]. rewrite parse_exponent_cons.
    destruct (N.eqb_spec c 101); [contradiction|].
    destruct (N.eqb_spec c 69); [contradiction|]. reflexivity.
  - cbn [app]. rewrite parse_exponent_cons in H |- *.
    destruct ((c =? 101) || (c =? 69))%N.
    + destruct s as [|c2 s2]; [discriminate|]. cbn [app].
      destruct (c2 =? 45)%N.
      * destruct (span_digits s2) as [ds r'] eqn:E.
        rewrite (span_digits_frame s2 t Ht ds r' E).
        destruct ds; [discriminate|]. injection H as <- <-. reflexivity.
      * destruct (c2 =? 43)%N.
        -- destruct (span_digits s2) as [ds r'] eqn:E.
           rewrite (span_digits_frame s2 t Ht ds r' E).
           destruct ds; [discriminate|]. injection H as <- <-. reflexivity.
        -- destruct (span_digits (c2 :: s2)) as [ds r'] eqn:E.
           change (c2 :: s2 ++ t) with ((c2 :: s2) ++ t).
           rewrite (span_digits_frame (c2 :: s2) t Ht ds r' E).
           destruct ds; [discriminate|]. injection H as <- <-. reflexivity.
    + injection H as <- <-. reflexivity.
Qed.

Lemma parse_number_cons c s :
  parse_number (c :: s) =
  let '(negative, s1) := if (c =? 45)%N then (true, s) else (false, c :: s) in
  match span_digits s1 with
  | ([], _) => None
  | (d0 :: more, s2) =>
      if (d0 =? 48)%N && match more with [] => false | _ :: _ => true end then None
      else
        match parse_fraction s2 with
        | None => None
        | Some (fs, s3) =>
            match parse_exponent s3 with
            | None => None
            | Some (e, s4) =>
                let m := digits_value ((d0 :: more) ++ fs) in
                Some (normalize (if negative then (- m)%Z else m)
                                (e - Z.of_nat (List.length fs))%Z, s4)
            end
        end
  end.
Proof.
  destruct (N.eqb_spec c 45) as [->|H]; [reflexivity|].
  unfold parse_number. split_char c.
Qed.

Lemma parse_number_head s n r :
  parse_number s = Some (n, r) ->
  exists c s', s = c :: s' /\ (c = 45%N \/ is_digit c = true).
Proof.
  destruct s as [|c s]; [discriminate|].
  intros H. exists c, s. split; [reflexivity|].
  rewrite parse_number_cons in H.
  destruct (N.eqb_spec c 45) as [->|Hc]; [left; reflexivity|right].
  cbn [span_digits] in H. destruct (is_digit c); [reflexivity|discriminate].
Qed.

Lemma parse_number_frame s t :
  ends_number t = true ->
  forall n r, parse_number s = Some (n, r) -> parse_number (s ++ t) = Some (n, r ++ t).
Proof.
  intros Ht n r H. destruct s as [|c s]; [discriminate|].
  cbn [app]. rewrite parse_number_cons in H |- *.
  destruct (c =? 45)%N.
  - destruct (span_digits s) as [ds s2] eqn:E.
    rewrite (span_digits_frame s t Ht ds s2 E).
    destruct ds as [|d0 more]; [discriminate|].
    destruct ((d0 =? 48)%N && match more with [] => false | _ :: _ => true end);
      [discriminate|].
    destruct (parse_fraction s2) as [[fs s3]|] eqn:Ef; [|discriminate].
    rewrite (parse_fraction_frame s2 t Ht fs s3 Ef).
    destruct (parse_exponent s3) as [[e s4]|] eqn:Ee; [|discriminate].
    rewrite (parse_exponent_frame s3 t Ht e s4 Ee).
    injection H as <- <-. reflexivity.
  - destruct (span_digits (c :: s)) as [ds s2] eqn:E.
    change (c :: s ++ t) with ((c :: s) ++ t).
    rewrite (span_digits_frame (c :: s) t Ht ds s2 E).
    destruct ds as [|d0 more]; [discriminate|].
    destruct ((d0 =? 48)%N && match more with [] => false | _ :: _ => true end);
      [discriminate|].
    destruct (parse_fraction s2) as [[fs s3]|] eqn:Ef; [|discriminate].
    rewrite (parse_fraction_frame s2 t Ht fs s3 Ef).
    destruct (parse_exponent s3) as [[e s4]|] eqn:Ee; [|discriminate].
    rewrite (parse_exponent_frame s3 t Ht e s4 Ee).
    injection H as <- <-. reflexivity.
Qed.

Lemma number_ok_spec n :
  number_ok n = true -> parse_number (number_toString n) = Some (n, []).
Proof.
  unfold number_ok. destruct (parse_number (number_toString n)) as [[n' r]|]; [|discriminate].
  destruct r; [|discriminate]. intros H. apply andb_prop in H as [Hm He].
  apply Z.eqb_eq in Hm, He. destruct n, n'. simpl in Hm, He. subst. reflexivity.
Qed.

(** A number that prints well reads back, whatever follows it in the
    text. *)
Lemma parse_printed_number n t :
  number_ok n = true -> ends_number t = true ->
  parse_number (number_toString n ++ t) = Some (n, t).
Proof.
  intros Hn Ht. apply number_ok_spec in Hn.
  apply (parse_number_frame _ t Ht) in Hn. exact Hn.
Qed.

Lemma parse_value_number f c r :
  c = 45%N \/ is_digit c = true ->
  parse_value (S f) (c :: r) =
  match parse_number (c :: r) with
  | Some (n, r1) => Some (VNum n, r1)
  | None => None
  end.
Proof.
  intros Hc.
  assert (Hrange : (c = 45 \/ 48 <= c <= 57)%N).
  { destruct Hc as [->|H]; [left; reflexivity|right].
    unfold is_digit in H. apply andb_prop in H as [H1 H2].
    apply N.leb_le in H1. apply N.leb_le in H2. lia. }
  cbn [parse_value skip_ws]. unfold is_json_space.
  destruct (N.eqb_spec c 32); [lia|].
  destruct (N.eqb_spec c 9); [lia|].
  destruct (N.eqb_spec c 10); [lia|].
  destruct (N.eqb_spec c 13); [lia|].
  cbn [orb].
  destruct (N.eqb_spec c 123); [lia|].
  destruct (N.eqb_spec c 91); [lia|].
  destruct (N.eqb_spec c 34); [lia|].
  change (js "true") with [116; 114; 117; 101]%N.
  change (js "false") with [102; 97; 108; 115; 101]%N.
  change (js "null") with [110; 117; 108; 108]%N.
  cbn [starts_with].
  destruct (N.eqb_spec 116 c); [lia|].
  destruct (N.eqb_spec 102 c); [lia|].
  destruct (N.eqb_spec 110 c); [lia|].
  cbn [andb]. reflexivity.
Qed.

End JsonNumbers.

Section JsonObjects.

Lemma lookup_fresh k acc :
  existsb (jsstring_eqb k) (map fst acc) = false -> lookup k acc = None.
Proof.
  induction acc as [|[k' v'] acc IH]; simpl; intros H; [reflexivity|].
  apply orb_false_elim in H as [Hk H]. rewrite Hk. apply IH, H.
Qed.

Lemma set_field_fresh k v acc :
  existsb (jsstring_eqb k) (map fst acc) = false ->
  in_key_order (map fst acc ++ [k]) = true ->
  set_field k v acc = acc ++ [(k, v)].
Proof.
  intros Hfresh Horder. unfold set_field. rewrite (lookup_fresh _ _ Hfresh).
  destruct (array_index k) as [i|] eqn:Hi; [|reflexivity].
  apply place_index_last_entry; assumption.
Qed.

Lemma distinct_fresh a k m :
  distinct (a ++ k :: m) = true -> existsb (jsstring_eqb k) a = false.
Proof.
  induction a as [|x a IH]; simpl; intros H; [reflexivity|].
  apply andb_prop in H as [Hx H]. rewrite IH by exact H.
  apply negb_true_iff in Hx. rewrite existsb_app in Hx.
  apply orb_false_elim in Hx as [_ Hx]. simpl in Hx.
  apply orb_false_elim in Hx as [Hx _].
  destruct (jsstring_eqb k x) eqn:E; [|reflexivity].
  apply jsstring_eqb_eq in E. subst. rewrite jsstring_eqb_refl in Hx. discriminate.
Qed.

Lemma object_of_distinct_members_from ms :
  forall acc, well_keyed (map fst (acc ++ ms)) = true ->
  fold_left (fun acc kv => set_field (fst kv) (snd kv) acc) ms acc = acc ++ ms.
Proof.
  induction ms as [|[k v] ms IH]; intros acc H; simpl.
  - rewrite app_nil_r. reflexivity.
  - apply andb_prop in H as [Hd Ho]. rewrite set_field_fresh.
    + rewrite IH; rewrite <- app_assoc; [reflexivity|].
      apply andb_true_intro. split; assumption.
    + rewrite map_app in Hd. simpl in Hd. apply distinct_fresh in Hd. exact Hd.
    + rewrite map_app in Ho. cbn [map fst] in Ho.
      apply (in_key_order_front (map fst acc ++ [k]) (map fst ms)).
      rewrite <- app_assoc. exact Ho.
Qed.

(** Members with distinct keys in the engine's order make the object
    that lists them. *)
Lemma object_of_distinct_members ms :
  well_keyed (map fst ms) = true -> object_of_members ms = ms.
Proof. intros H. apply (object_of_distinct_members_from ms []). exact H. Qed.

Lemma stringify_object fields :
  clean (VObj fields) = true ->
  stringify (VObj fields) =
  js "{" ++ join_with (js ",") (map member_text fields) ++ js "}".
Proof.
  intros H. cbn [clean] in H. apply andb_prop in H as [Hkeys H].
  apply andb_prop in Hkeys as [_ Hkeys].
  rewrite stringify_ordered by exact Hkeys. clear Hkeys. do 3 f_equal.
  induction fields as [|[k x] fields IH]; [reflexivity|].
  cbn [forallb snd] in H. apply andb_prop in H as [Hx H].
  cbn [map]. rewrite <- IH by exact H.
  destruct x; try reflexivity. discriminate Hx.
Qed.

Lemma opens_value_cases c :
  opens_value c = true ->
  In c [110; 116; 102; 34; 91; 123; 45; 48; 49; 50; 51; 52; 53; 54; 55; 56; 57]%N.
Proof.
  unfold opens_value. intros H. apply existsb_exists in H as (x & Hin & Hx).
  apply N.eqb_eq in Hx. subst. exact Hin.
Qed.

Lemma stringify_head v :
  clean v = true -> exists c t, stringify v = c :: t /\ opens_value c = true.
Proof.
  destruct v as [| |b|n|s|items|fields]; intros H; try discriminate H.
  - eexists _, _. split; reflexivity.
  - destruct b; eexists _, _; split; reflexivity.
  - cbn [clean] in H. apply number_ok_spec in H.
    destruct (parse_number_head _ _ _ H) as (c & t & Hs & Hc).
    exists c, t. cbn [stringify]. split; [exact Hs|].
    destruct Hc as [->|Hc]; [reflexivity|].
    unfold is_digit in Hc. apply andb_prop in Hc as [H1 H2].
    apply N.leb_le in H1. apply N.leb_le in H2.
    assert (Hin : In c (map N.of_nat (seq 48 10))).
    { rewrite <- (N2Nat.id c). apply in_map. apply in_seq. lia. }
    simpl in Hin.
    repeat (destruct Hin as [<-|Hin]; [reflexivity|]). contradiction.
  - eexists _, _. split; reflexivity.
  - eexists _, _. split; reflexivity.
  - eexists _, _. split; reflexivity.
Qed.

End JsonObjects.

Section JsonRoundTrip.

Lemma parse_value_string f s rest :
  parse_value (S f) (quote s ++ rest) = Some (VStr s, rest).
Proof.
  unfold quote, dq. rewrite <- !app_assoc. cbn [app].
  change (parse_value (S f) (34%N :: quote_chars s ++ 34%N :: rest))
    with (match parse_string_chars (quote_chars s ++ 34%N :: rest) with
          | Some (str, r1) => Some (VStr str, r1)
          | None => None
          end).
  rewrite parse_quoted. reflexivity.
Qed.

Lemma parse_value_array_open f h r :
  opens_value h = true ->
  parse_value (S f) (91%N :: h :: r) =
  match parse_elements (parse_value f) f (h :: r) with
  | Some (vs, r1) => Some (VArr vs, r1)
  | None => None
  end.
Proof.
  intros H. apply opens_value_cases in H. simpl in H.
  repeat (destruct H as [<-|H]; [reflexivity|]). contradiction.
Qed.

Lemma parse_value_object_open f r :
  parse_value (S f) (123%N :: 34%N :: r) =
  match parse_members (parse_value f) f (34%N :: r) with
  | Some (ms, r1) => Some (VObj (object_of_members ms), r1)
  | None => None
  end.
Proof. reflexivity. Qed.

Lemma comma_app (t : jsstring) : js "," ++ t = 44%N :: t.
Proof. reflexivity. Qed.

Lemma colon_app (t : jsstring) : js ":" ++ t = 58%N :: t.
Proof. reflexivity. Qed.

Lemma ends_number_after_value c rest :
  In c [44; 93; 125]%N -> ends_number (c :: rest) = true.
Proof. simpl. intros [<-|[<-|[<-|[]]]]; reflexivity. Qed.

(** The elements of an array, printed and read back. *)
Lemma parse_printed_elements f items :
  items <> [] ->
  Forall (fun x => forall rest, ends_number rest = true ->
                   parse_value f (stringify x ++ rest) = Some (x, rest)) items ->
  forall fe rest, List.length items <= fe ->
    parse_elements (parse_value f) fe
      (join_with (js ",") (map stringify items) ++ 93%N :: rest) = Some (items, rest).
Proof.
  induction items as [|x items IH]; [contradiction|].
  intros _ Hall fe rest Hfe. inversion Hall as [|? ? Hx Hitems]; subst.
  destruct fe as [|fe]; [simpl in Hfe; lia|]. simpl in Hfe.
  destruct items as [|y items].
  - cbn [map join_with parse_elements].
    rewrite Hx by (apply ends_number_after_value; simpl; auto).
    reflexivity.
  - cbn [map join_with]. cbn [map] in IH.
    rewrite <- !app_assoc, comma_app.
    cbn [parse_elements].
    rewrite Hx by (apply ends_number_after_value; simpl; auto).
    cbn [skip_ws]. change (is_json_space 44%N) with false. cbv iota.
    rewrite IH; [reflexivity|discriminate|exact Hitems|simpl in *; lia].
Qed.

(** The members of an object, printed and read back. *)
Lemma parse_printed_members f fields :
  fields <> [] ->
  Forall (fun kv => forall rest, ends_number rest = true ->
                    parse_value f (stringify (snd kv) ++ rest) = Some (snd kv, rest)) fields ->
  forall fe rest, List.length fields <= fe ->
    parse_members (parse_value f) fe
      (join_with (js ",") (map member_text fields) ++ 125%N :: rest) = Some (fields, rest).
Proof.
  induction fields as [|[k x] fields IH]; [contradiction|].
  intros _ Hall fe rest Hfe. inversion Hall as [|? ? Hx Hfields]; subst.
  cbn [snd] in Hx.
  destruct fe as [|fe]; [simpl in Hfe; lia|]. simpl in Hfe.
  destruct fields as [|kv fields].
  - cbn [map join_with]. unfold member_text, quote, dq. cbn [fst snd].
    rewrite <- !app_assoc, colon_app. cbn [app].
    cbn [parse_members skip_ws]. change (is_json_space 34%N) with false. cbv iota.
    rewrite parse_quoted.
    cbn [skip_ws]. change (is_json_space 58%N) with false. cbv iota.
    rewrite Hx by (apply ends_number_after_value; simpl; auto).
    reflexivity.
  - cbn [map join_with]. cbn [map] in IH.
    unfold member_text at 1. unfold quote, dq. cbn [fst snd].
    rewrite <- !app_assoc, colon_app, comma_app. cbn [app].
    cbn [parse_members skip_ws]. change (is_json_space 34%N) with false. cbv iota.
    rewrite parse_quoted.
    cbn [skip_ws]. change (is_json_space 58%N) with false. cbv iota.
    rewrite Hx by (apply ends_number_after_value; simpl; auto).
    cbn [skip_ws]. change (is_json_space 44%N) with false. cbv iota.
    rewrite IH; [reflexivity|discriminate|exact Hfields|simpl in *; lia].
Qed.

Lemma starts_with_nil s : starts_with s [] = true.
Proof. destruct s; reflexivity. Qed.

Lemma parse_value_literal f rest :
  parse_value (S f) (js "null" ++ rest) = Some (VNull, rest)
  /\ parse_value (S f) (js "true" ++ rest) = Some (VBool true, rest)
  /\ parse_value (S f) (js "false" ++ rest) = Some (VBool false, rest).
Proof. repeat split; cbn; rewrite starts_with_nil; reflexivity. Qed.

Lemma parse_value_array_nonempty f x items rest :
  clean x = true ->
  parse_value (S f)
    (91%N :: join_with (js ",") (map stringify (x :: items)) ++ 93%N :: rest) =
  match parse_elements (parse_value f) f
          (join_with (js ",") (map stringify (x :: items)) ++ 93%N :: rest) with
  | Some (vs, r1) => Some (VArr vs, r1)
  | None => None
  end.
Proof.
  intros Hx. destruct (stringify_head x Hx) as (c & t & Hs & Hc).
  cbn [map]. destruct (map stringify items); cbn [join_with]; rewrite Hs; cbn [app];
    apply parse_value_array_open; exact Hc.
Qed.

Lemma parse_value_object_nonempty f kv fields rest :
  parse_value (S f)
    (123%N :: join_with (js ",") (map member_text (kv :: fields)) ++ 125%N :: rest) =
  match parse_members (parse_value f) f
          (join_with (js ",") (map member_text (kv :: fields)) ++ 125%N :: rest) with
  | Some (ms, r1) => Some (VObj (object_of_members ms), r1)
  | None => None
  end.
Proof.
  cbn [map]. destruct (map member_text fields); cbn [join_with];
    unfold member_text, quote, dq; rewrite <- !app_assoc; cbn [app];
    apply parse_value_object_open.
Qed.

(** Every clean value is read back from its text, with fuel for its
    nesting, whatever follows it. *)
Lemma parse_stringified v :
  clean v = true ->
  forall fuel rest, need v <= fuel -> ends_number rest = true ->
    parse_value fuel (stringify v ++ rest) = Some (v, rest).
Proof.
  induction v as [| |b|n|s|items IH|fields IH] using value_induction;
    intros Hclean fuel rest Hfuel Hrest;
    (destruct fuel as [|f]; [simpl in Hfuel; lia|]).
  - discriminate.
  - apply parse_value_literal.
  - destruct b; apply parse_value_literal.
  - cbn [clean] in Hclean. cbn [stringify].
    pose proof (parse_printed_number n rest Hclean Hrest) as Hparse.
    destruct (parse_number_head _ _ _ Hparse) as (c & t & Hs & Hc).
    rewrite Hs in *. rewrite parse_value_number by exact Hc.
    match goal with
    | |- match ?p with _ => _ end = _ =>
        replace p with (Some (n, rest)) by (symmetry; exact Hparse)
    end.
    reflexivity.
  - cbn [stringify]. apply parse_value_string.
  - cbn [clean] in Hclean. cbn [need] in Hfuel.
    assert (Hlen : List.length items <= f) by lia.
    assert (Hneed : Forall (fun k => k <= f) (map need items))
      by (apply list_max_le; lia).
    assert (Hitems : Forall (fun x => forall rest, ends_number rest = true ->
                       parse_value f (stringify x ++ rest) = Some (x, rest)) items).
    { apply Forall_forall. intros x Hin rest' Hrest'.
      apply (proj1 (Forall_forall _ _) IH x Hin).
      - exact (proj1 (forallb_forall _ _) Hclean x Hin).
      - apply (proj1 (Forall_forall _ _) Hneed). apply in_map. exact Hin.
      - exact Hrest'. }
    cbn [stringify]. change (js "[") with [91%N]. change (js "]") with [93%N].
    rewrite <- !app_assoc. cbn [app].
    destruct items as [|x items]; [reflexivity|].
    rewrite parse_value_array_nonempty
      by (cbn [forallb] in Hclean; apply andb_prop in Hclean as [H _]; exact H).
    rewrite parse_printed_elements; [reflexivity|discriminate|exact Hitems|exact Hlen].
  - cbn [clean] in Hclean. apply andb_prop in Hclean as [Hkeys Hclean].
    cbn [need] in Hfuel.
    assert (Hlen : List.length fields <= f) by lia.
    assert (Hneed : Forall (fun k => k <= f) (map (fun kv => need (snd kv)) fields))
      by (apply list_max_le; lia).
    assert (Hfields : Forall (fun kv => forall rest, ends_number rest = true ->
                        parse_value f (stringify (snd kv) ++ rest) = Some (snd kv, rest))
                        fields).
    { apply Forall_forall. intros kv Hin rest' Hrest'.
      apply (proj1 (Forall_forall _ _) IH kv Hin).
      - exact (proj1 (forallb_forall _ _) Hclean kv Hin).
      - apply (proj1 (Forall_forall _ _) Hneed).
        apply (in_map (fun kv => need (snd kv))). exact Hin.
      - exact Hrest'. }
    rewrite stringify_object by (cbn [clean]; rewrite Hkeys, Hclean; reflexivity).
    change (js "{") with [123%N]. change (js "}") with [125%N].
    rewrite <- !app_assoc. cbn [app].
    destruct fields as [|kv fields]; [reflexivity|].
    rewrite parse_value_object_nonempty.
    rewrite parse_printed_members; [|discriminate|exact Hfields|exact Hlen].
    rewrite object_of_distinct_members by exact Hkeys. reflexivity.
Qed.

End JsonRoundTrip.

Section JsonFuel.

Lemma join_bounds sep parts :
  Forall (fun p : jsstring => 1 <= List.length p) parts ->
  List.length parts <= List.length (join_with sep parts)
  /\ Forall (fun p : jsstring => List.length p <= List.length (join_with sep parts)) parts.
Proof.
  induction parts as [|p parts IH]; intros H; [split; [simpl; lia|constructor]|].
  inversion H as [|? ? Hp Hparts]; subst. cbv beta in Hp.
  destruct (IH Hparts) as [Hn Hall].
  destruct parts as [|q parts].
  - cbn [join_with]. split; [simpl; lia|]. constructor; [lia|constructor].
  - cbn [join_with] in *. rewrite !length_app. split.
    + simpl in *. lia.
    + constructor; [lia|].
      apply Forall_forall. intros y Hy.
      pose proof (proj1 (Forall_forall _ _) Hall y Hy) as Hy'. cbv beta in Hy'. lia.
Qed.

Lemma need_le_length v : clean v = true -> need v <= List.length (stringify v).
Proof.
  induction v as [| |b|n|s|items IH|fields IH] using value_induction; intros Hclean.
  - discriminate.
  - simpl. lia.
  - destruct b; simpl; lia.
  - cbn [clean] in Hclean. apply number_ok_spec in Hclean.
    destruct (parse_number_head _ _ _ Hclean) as (c & t & Hs & _).
    cbn [stringify need]. rewrite Hs. simpl. lia.
  - cbn [stringify need]. unfold quote, dq. rewrite !length_app. simpl. lia.
  - cbn [clean] in Hclean. cbn [stringify need].
    assert (Hparts : Forall (fun x => need x <= List.length (stringify x)) items).
    { apply Forall_forall. intros x Hin.
      apply (proj1 (Forall_forall _ _) IH x Hin).
      exact (proj1 (forallb_forall _ _) Hclean x Hin). }
    assert (Hpos : Forall (fun p : jsstring => 1 <= List.length p) (map stringify items)).
    { apply Forall_forall. intros p Hin. apply in_map_iff in Hin as (x & <- & Hin).
      destruct (stringify_head x (proj1 (forallb_forall _ _) Hclean x Hin))
        as (c & t & -> & _). simpl. lia. }
    destruct (join_bounds (js ",") _ Hpos) as [Hn Hall].
    rewrite length_map in Hn. rewrite !length_app.
    assert (Hmax : list_max (map need items)
                   <= List.length (join_with (js ",") (map stringify items))).
    { apply list_max_le. apply Forall_forall. intros k Hk.
      apply in_map_iff in Hk as (x & <- & Hin).
      pose proof (proj1 (Forall_forall _ _) Hparts x Hin).
      pose proof (proj1 (Forall_forall _ _) Hall (stringify x) (in_map _ _ _ Hin)). cbv beta in *. lia. }
    simpl. lia.
  - rewrite stringify_object by exact Hclean.
    cbn [clean] in Hclean. apply andb_prop in Hclean as [_ Hclean]. cbn [need].
    assert (Hparts : Forall (fun kv => need (snd kv) <= List.length (member_text kv)) fields).
    { apply Forall_forall. intros kv Hin.
      pose proof (proj1 (Forall_forall _ _) IH kv Hin
                    (proj1 (forallb_forall _ _) Hclean kv Hin)) as H.
      unfold member_text. rewrite !length_app. cbv beta in *. lia. }
    assert (Hpos : Forall (fun p : jsstring => 1 <= List.length p) (map member_text fields)).
    { apply Forall_forall. intros p Hin. apply in_map_iff in Hin as (kv & <- & Hin).
      unfold member_text, quote, dq. rewrite !length_app. simpl. lia. }
    destruct (join_bounds (js ",") _ Hpos) as [Hn Hall].
    rewrite length_map in Hn. rewrite !length_app.
    assert (Hmax : list_max (map (fun kv => need (snd kv)) fields)
                   <= List.length (join_with (js ",") (map member_text fields))).
    { apply list_max_le. apply Forall_forall. intros k Hk.
      apply in_map_iff in Hk as (kv & <- & Hin).
      pose proof (proj1 (Forall_forall _ _) Hparts kv Hin).
      pose proof (proj1 (Forall_forall _ _) Hall (member_text kv) (in_map _ _ _ Hin)). cbv beta in *. lia. }
    simpl. lia.
Qed.

(** [JSON.parse(JSON.stringify(v))] gives [v] back, for every clean
    value. *)
Lemma JSON_parse_stringify v : clean v = true -> JSON_parse (stringify v) = Some v.
Proof.
  intros Hclean. unfold JSON_parse.
  pose proof (parse_stringified v Hclean (S (List.length (stringify v))) []) as H.
  rewrite app_nil_r in H. rewrite H.
  - reflexivity.
  - pose proof (need_le_length v Hclean). lia.
  - reflexivity.
Qed.

End JsonFuel.

(** ** Code fences and trimming *)

Section Fences.

Lemma starts_with_stop a x r p :
  forallb (fun c => negb (c =? x)%N) p = true ->
  p <> [] ->
  starts_with (a ++ x :: r) p = starts_with (a ++ [x]) p.
Proof.
  revert p. induction a as [|y a IH]; intros [|c p] Hp Hne; try contradiction.
  - simpl in Hp |- *. apply andb_prop in Hp as [Hc _]. apply negb_true_iff in Hc.
    rewrite Hc. reflexivity.
  - simpl in Hp |- *. apply andb_prop in Hp as [_ Hp].
    destruct p as [|c' p]; [destruct a; reflexivity|].
    rewrite IH by (auto; discriminate). reflexivity.
Qed.

Lemma starts_with_prefix s p q :
  starts_with s (p ++ q) = true -> starts_with s p = true.
Proof.
  revert s. induction p as [|c p IH]; intros s H; [destruct s; reflexivity|].
  destruct s as [|x s]; [discriminate|]. simpl in H |- *.
  apply andb_prop in H as [Hc H]. rewrite Hc. apply IH. exact H.
Qed.

Lemma fence_match_length_zero s :
  starts_with s (js "```") = false ->
  starts_with s (10%N :: js "```") = false ->
  fence_match_length s = 0.
Proof.
  intros H1 H2. unfold fence_match_length.
  destruct (starts_with s (js "```json")) eqn:E.
  - change (js "```json") with (js "```" ++ js "json") in E.
    apply starts_with_prefix in E. congruence.
  - rewrite H2, H1. reflexivity.
Qed.

Lemma includes_cons c s p :
  includes (c :: s) p = false ->
  starts_with (c :: s) p = false /\ includes s p = false.
Proof. cbn [includes]. intros H. apply orb_false_elim in H. exact H. Qed.

Lemma includes_starts s p : includes s p = false -> starts_with s p = false.
Proof. destruct s; cbn [includes]; intros H; apply orb_false_elim in H; tauto. Qed.

(** The fence removal leaves a text alone that has no fence marker and
    ends in a code unit no marker holds, whatever follows. *)
Lemma strip_keeps t x rest :
  includes (t ++ [x]) (js "```") = false -> x <> 96%N -> x <> 10%N ->
  strip_fences_from 0 ((t ++ [x]) ++ rest) = (t ++ [x]) ++ strip_fences_from 0 rest.
Proof.
  intros Hfree H96 H10.
  assert (E96 : (96 =? x)%N = false) by (apply N.eqb_neq; congruence).
  assert (E10 : (10 =? x)%N = false) by (apply N.eqb_neq; congruence).
  assert (Hstop3 : forallb (fun c => negb (c =? x)%N) (js "```") = true).
  { change (js "```") with [96; 96; 96]%N. cbn [forallb]. rewrite E96. reflexivity. }
  assert (Hstop4 : forallb (fun c => negb (c =? x)%N) (10%N :: js "```") = true).
  { change (js "```") with [96; 96; 96]%N. cbn [forallb]. rewrite E96, E10. reflexivity. }
  induction t as [|c t IH].
  - cbn [app]. cbn [strip_fences_from].
    rewrite fence_match_length_zero; [reflexivity| |].
    + rewrite (starts_with_stop [] x rest) by (auto; discriminate).
      apply includes_starts. exact Hfree.
    + rewrite (starts_with_stop [] x rest) by (auto; discriminate).
      cbn [app starts_with]. rewrite E10. reflexivity.
  - cbn [app] in Hfree |- *. apply includes_cons in Hfree as [Hhere Hfree].
    cbn [strip_fences_from].
    rewrite <- app_assoc. cbn [app].
    rewrite fence_match_length_zero.
    + rewrite <- IH by exact Hfree. rewrite <- app_assoc. reflexivity.
    + rewrite (starts_with_stop (c :: t) x rest) by (auto; discriminate). exact Hhere.
    + rewrite (starts_with_stop (c :: t) x rest) by (auto; discriminate).
      cbn [app starts_with].
      destruct (N.eqb_spec 10 c); [|reflexivity]. cbn [andb].
      apply includes_starts. exact Hfree.
Qed.

Lemma strip_fences_close newline : strip_fences_from 0 (fence_close newline) = [].
Proof. destruct newline; reflexivity. Qed.

Lemma strip_fences_open tagged newline rest :
  strip_fences_from 0 (fence_open tagged newline ++ 123%N :: rest) =
  (if negb tagged && newline then [10%N] else []) ++ strip_fences_from 0 (123%N :: rest).
Proof. destruct tagged, newline; reflexivity. Qed.

(** A text without fence markers passes the removal unchanged. *)
Lemma strip_fence_free s : fence_free s = true -> strip_fences s = s.
Proof.
  unfold fence_free, strip_fences. intros H. apply negb_true_iff in H.
  induction s as [|c s IH]; [reflexivity|].
  apply includes_cons in H as [Hhere H].
  cbn [strip_fences_from]. rewrite fence_match_length_zero.
  - rewrite IH by exact H. reflexivity.
  - exact Hhere.
  - cbn [starts_with]. destruct (N.eqb_spec 10 c); [|reflexivity]. cbn [andb].
    apply includes_starts. exact H.
Qed.

Lemma trim_braced body :
  trim (123%N :: body ++ [125%N]) = 123%N :: body ++ [125%N]
  /\ trim (10%N :: 123%N :: body ++ [125%N]) = 123%N :: body ++ [125%N].
Proof.
  assert (H : trim_end (123%N :: body ++ [125%N]) = 123%N :: body ++ [125%N]).
  { unfold trim_end. change (123%N :: body ++ [125%N]) with ((123%N :: body) ++ [125%N]).
    rewrite rev_unit. cbn [trim_start]. change (is_js_space 125%N) with false. cbv iota.
    change (125%N :: rev (123%N :: body)) with ([125%N] ++ rev (123%N :: body)).
    rewrite rev_app_distr, rev_involutive. reflexivity. }
  split; unfold trim; cbn [trim_start];
    change (is_js_space 10%N) with true; change (is_js_space 123%N) with false;
    cbv iota; exact H.
Qed.

(** Cleaning gives back a brace-delimited text that has no fence
    marker, bare or fenced in any of the usual ways. *)
Lemma cleaned_payload body :
  fence_free (123%N :: body ++ [125%N]) = true ->
  cleanedJson (123%N :: body ++ [125%N]) = 123%N :: body ++ [125%N]
  /\ forall tagged newline_after newline_before,
       cleanedJson (wrapped tagged newline_after newline_before (123%N :: body ++ [125%N]))
       = 123%N :: body ++ [125%N].
Proof.
  intros Hfree. destruct (trim_braced body) as [Htrim Htrim'].
  split.
  - unfold cleanedJson. rewrite strip_fence_free by exact Hfree. exact Htrim.
  - intros tagged newline_after newline_before.
    assert (Hkeep : strip_fences_from 0
                      ((123%N :: body ++ [125%N]) ++ fence_close newline_before)
                    = 123%N :: body ++ [125%N]).
    { change (123%N :: body ++ [125%N]) with ((123%N :: body) ++ [125%N]).
      rewrite strip_keeps.
      - rewrite strip_fences_close, app_nil_r. reflexivity.
      - unfold fence_free in Hfree. apply negb_true_iff in Hfree. exact Hfree.
      - discriminate.
      - discriminate. }
    unfold cleanedJson, strip_fences, wrapped.
    change (fence_open tagged newline_after
            ++ (123%N :: body ++ [125%N]) ++ fence_close newline_before)
      with (fence_open tagged newline_after
            ++ 123%N :: ((body ++ [125%N]) ++ fence_close newline_before)).
    rewrite strip_fences_open.
    change (123%N :: (body ++ [125%N]) ++ fence_close newline_before)
      with ((123%N :: body ++ [125%N]) ++ fence_close newline_before).
    rewrite Hkeep.
    destruct (negb tagged && newline_after); cbn [app]; assumption.
Qed.

End Fences.

(** ** Responses through the gateways *)

Section TypedRoundTrip.

Lemma score_table :
  forallb (fun k => number_ok (normalize (Z.of_nat k) 0)) (seq 0 101) = true.
Proof. vm_compute. reflexivity. Qed.

Lemma score_prints z : (0 <= z <= 100)%Z -> number_ok (normalize z 0) = true.
Proof.
  intros Hz. rewrite <- (Z2Nat.id z) by lia.
  apply (proj1 (forallb_forall _ _) score_table). apply in_seq. lia.
Qed.

Lemma well_scored_spec r :
  well_scored r = true <-> (0 <= student_mastery_score r <= 100)%Z.
Proof.
  unfold well_scored. rewrite andb_true_iff, !Z.leb_le. tauto.
Qed.

Lemma response_clean r : well_scored r = true -> clean (response_value r) = true.
Proof.
  intros H. apply well_scored_spec in H.
  unfold response_value, state_value. cbn [clean map fst snd forallb].
  rewrite score_prints by exact H. reflexivity.
Qed.

(** The JSON text of a response reads back as the response. *)
Lemma response_text_parses r :
  well_scored r = true ->
  JSON_parse (stringify (response_value r)) = Some (response_value r).
Proof. intros H. apply JSON_parse_stringify, response_clean, H. Qed.

Lemma stringify_object_braced fields :
  clean (VObj fields) = true ->
  stringify (VObj fields) = 123%N :: join_with (js ",") (map member_text fields) ++ [125%N].
Proof. intros H. rewrite stringify_object by exact H. reflexivity. Qed.

Lemma clean_members fields :
  clean (VObj fields) = true -> forallb (fun kv => clean (snd kv)) fields = true.
Proof. cbn [clean]. intros H. apply andb_prop in H as [_ H]. exact H. Qed.

Lemma response_text_braced r :
  well_scored r = true ->
  exists body, stringify (response_value r) = 123%N :: body ++ [125%N].
Proof.
  intros H. pose proof (response_clean r H) as Hc.
  unfold response_value in *.
  eexists. apply stringify_object_braced. exact Hc.
Qed.

Lemma completion_body_parses content :
  JSON_parse (completionBody content) = Some (completionData content).
Proof. apply (JSON_parse_stringify (completionData content)). reflexivity. Qed.

Lemma completion_choices content :
  exists choices,
    get_prop (completionData content) (js "choices") = Some choices
    /\ firstChoiceContent choices = VStr content.
Proof. eexists. split; reflexivity. Qed.

Lemma JSON_parse_backtick t : JSON_parse (96%N :: t) = None.
Proof. reflexivity. Qed.

Lemma cleaned_delivery r text :
  well_scored r = true ->
  fence_free (stringify (response_value r)) = true ->
  delivers (stringify (response_value r)) text ->
  text <> [] /\ JSON_parse (cleanedJson text) = Some (response_value r).
Proof.
  intros Hscore Hfree Hd.
  destruct (response_text_braced r Hscore) as [body Hbody].
  pose proof (response_text_parses r Hscore) as Hparse.
  rewrite Hbody in *.
  destruct (cleaned_payload body Hfree) as [Hbare Hwrapped].
  destruct Hd as [|tagged newline_after newline_before].
  - split; [discriminate|]. rewrite Hbare. exact Hparse.
  - split; [destruct tagged, newline_after; discriminate|].
    rewrite Hwrapped. exact Hparse.
Qed.

End TypedRoundTrip.

(** X1.  Round trip through the local gateway.  When the endpoint
    answers with a success status and a completion that is the JSON text
    of a well-shaped response (score between 0 and 100), bare or inside
    code fences (with or without the json tag, with or without line
    breaks), and that text holds no run of three backticks,
    [sendMessageToLocalLLM] returns exactly that response. *)
Theorem local_gateway_round_trip :
  forall (env : Env) (endpoint modelName systemPrompt : jsstring)
         (history : list ChatMessage) (userMessage : jsstring)
         (status : Z) (statusText : jsstring) (r : StructuredAIResponse) (text : jsstring),
    well_scored r = true ->
    fence_free (stringify (response_value r)) = true ->
    delivers (stringify (response_value r)) text ->
    fetch env (localRequest endpoint modelName systemPrompt history userMessage)
      = FetchResolves status statusText (BodyText (completionBody text)) ->
    status_ok status = true ->
    sendMessageToLocalLLM env endpoint modelName systemPrompt history userMessage
    = Normal (response_value r).
Proof.
  intros env endpoint modelName systemPrompt history userMessage status statusText r text
         Hscore Hfree Hd Hfetch Hok.
  destruct (cleaned_delivery r text Hscore Hfree Hd) as [Hne Hparse].
  destruct text as [|c raw]; [contradiction|].
  destruct (completion_choices (c :: raw)) as (choices & Hchoices & Hcontent).
  rewrite (local_gateway_parses_cleaned_text env endpoint modelName systemPrompt history
             userMessage status statusText _ _ choices c raw Hfetch Hok
             (completion_body_parses (c :: raw)) Hchoices Hcontent).
  rewrite Hparse. reflexivity.
Qed.

Lemma local_gateway_round_trip_witness :
  sendMessageToLocalLLM
    (answering (wrapped true true true (stringify (response_value directAnswer))))
    (js "http://localhost:8000") (js "edu-32b-finetuned") (js "You are EduMind") []
    (js "What is 1/2 + 1/3?")
  = Normal (response_value directAnswer).
Proof.
  apply (local_gateway_round_trip
           (answering (wrapped true true true (stringify (response_value directAnswer))))
           _ _ _ _ _ 200%Z (js "OK") directAnswer
           (wrapped true true true (stringify (response_value directAnswer)))).
  - reflexivity.
  - vm_compute. reflexivity.
  - apply delivers_fenced.
  - reflexivity.
  - reflexivity.
Defined.

(** X2.  Round trip through the Gemini gateway.  When the client
    returns the JSON text of a well-shaped response,
    [sendMessageToEduMind] returns that response, whatever its strings
    hold (fence markers included, since the text is parsed before any
    cleaning); fenced text gives the response too, provided the payload
    has no run of three backticks. *)
Theorem gemini_gateway_round_trip :
  forall (env : Env)
         (generateContent : GeminiService.GenerateRequest -> GenerateResult)
         (systemPrompt : jsstring) (history : list ChatMessage) (userMessage : jsstring)
         (r : StructuredAIResponse) (text : jsstring),
    well_scored r = true ->
    delivers (stringify (response_value r)) text ->
    text = stringify (response_value r)
    \/ fence_free (stringify (response_value r)) = true ->
    generateContent (GeminiService.generateRequest systemPrompt history userMessage)
      = GenerateResolves (Some text) ->
    GeminiService.sendMessageToEduMind env (Some generateContent) systemPrompt history
      userMessage
    = Normal (response_value r).
Proof.
  intros env generateContent systemPrompt history userMessage r text Hscore Hd Hcase Hgen.
  pose proof (response_text_parses r Hscore) as Hparse.
  destruct (response_text_braced r Hscore) as [body Hbody].
  unfold GeminiService.sendMessageToEduMind. rewrite Hgen.
  assert (Hbare : text = stringify (response_value r) ->
                  try_catch match text with
                            | [] => Throw (new_Error (js "Empty response from model"))
                            | _ :: _ => GeminiService.parseText text
                            end
                            GeminiService.catchError
                  = Normal (response_value r)).
  { intros ->. rewrite Hbody at 1. unfold GeminiService.parseText.
    rewrite Hparse. reflexivity. }
  destruct Hd as [|tagged newline_after newline_before]; [apply Hbare; reflexivity|].
  destruct Hcase as [Heq|Hfree]; [apply Hbare; exact Heq|].
  destruct (cleaned_delivery r _ Hscore Hfree
              (delivers_fenced _ tagged newline_after newline_before)) as [_ Hclean].
  unfold cleanedJson in Hclean.
  assert (Hopen : exists t, wrapped tagged newline_after newline_before
                              (stringify (response_value r)) = 96%N :: t)
    by (unfold wrapped, fence_open; eexists; reflexivity).
  destruct Hopen as [t Ht]. rewrite Ht in *.
  unfold GeminiService.parseText. rewrite JSON_parse_backtick, Hclean. reflexivity.
Qed.

Lemma gemini_gateway_round_trip_witness :
  GeminiService.sendMessageToEduMind tutor (geminiAnswering fenceAnswerText)
    (js "You are EduMind") [] (js "What is a fence?")
  = Normal (response_value fenceAnswer).
Proof.
  apply (gemini_gateway_round_trip tutor _ _ _ _ fenceAnswer fenceAnswerText).
  - reflexivity.
  - apply delivers_bare.
  - left. reflexivity.
  - reflexivity.
Defined.

(** ** The request body *)

Section RequestBody.

Lemma clean_message m :
  clean (ApiMessage.content m) = true -> clean (ApiMessage_value m) = true.
Proof.
  intros H. unfold ApiMessage_value. cbn [clean map fst snd forallb].
  rewrite H. reflexivity.
Qed.

Lemma sendable_entry h :
  sendable h = true -> exists s, ApiMessage.content (historyEntry h) = VStr s.
Proof.
  unfold sendable, historyEntry. cbn [ApiMessage.content].
  destruct (Role_eqb (role h) assistant && truthy (metadata h)) eqn:E.
  - intros _. apply andb_prop in E as [_ E].
    destruct (metadata h); try discriminate E; eexists; reflexivity.
  - cbn [orb]. destruct (content h); try discriminate. intros _. eexists. reflexivity.
Qed.

Lemma clean_messages systemPrompt history userMessage :
  forallb sendable history = true ->
  forallb clean (map ApiMessage_value (apiMessages systemPrompt history userMessage)) = true.
Proof.
  intros H. unfold apiMessages. rewrite !map_app, !forallb_app.
  cbn [map forallb]. rewrite !clean_message by reflexivity. cbn [andb].
  rewrite andb_true_r.
  apply forallb_forall. intros v Hin.
  apply in_map_iff in Hin as (m & <- & Hin). apply in_map_iff in Hin as (h & <- & Hin).
  apply clean_message.
  destruct (sendable_entry h (proj1 (forallb_forall _ _) H h Hin)) as [s ->].
  reflexivity.
Qed.

Lemma clean_request modelName systemPrompt history userMessage :
  forallb sendable history = true ->
  clean (requestBody modelName (apiMessages systemPrompt history userMessage)) = true.
Proof.
  intros H. unfold requestBody. cbn [clean map fst snd forallb].
  rewrite (clean_messages systemPrompt history userMessage H). reflexivity.
Qed.

End RequestBody.

Section OutboundRequest.

Lemma stringify_entry (m : ApiMessage.t) : stringify (ApiMessage_value m) = entryText m.
Proof.
  unfold ApiMessage_value, entryText.
  rewrite stringify_ordered by (vm_compute; reflexivity).
  destruct (ApiMessage.content m); cbn [stringify join_with];
    rewrite <- ?app_assoc; reflexivity.
Qed.

Lemma printed_numbers :
  number_toString (Dec 7 (-1)) = js "0.7"
  /\ number_toString (normalize 2048 0) = js "2048".
Proof. vm_compute. split; reflexivity. Qed.

(** The body of a request, spelled out. *)
Lemma stringify_requestBody modelName (msgs : list ApiMessage.t) :
  stringify (requestBody modelName msgs) = requestText modelName msgs.
Proof.
  destruct printed_numbers as [Htemperature Htokens].
  unfold requestBody, requestText.
  rewrite stringify_ordered by (vm_compute; reflexivity).
  assert (Hformat : stringify (VObj [(js "type", VStr (js "json_object"))])
                    = js "{" ++ quote (js "type") ++ js ":" ++ quote (js "json_object")
                      ++ js "}")
    by (rewrite stringify_ordered by (vm_compute; reflexivity);
        cbn [stringify join_with]; rewrite <- ?app_assoc; reflexivity).
  cbn [join_with]. rewrite Hformat. cbn [stringify].
  rewrite Htemperature, Htokens, map_map, (map_ext _ _ stringify_entry).
  rewrite <- !app_assoc. reflexivity.
Qed.

(** The gateway looks at the environment only through the answer of
    [fetch] to the one request it makes and through the wording of the
    engine's errors. *)
Lemma gateway_reads_one_answer (env env' : Env) endpoint modelName systemPrompt history
    userMessage :
  fetch env' (localRequest endpoint modelName systemPrompt history userMessage)
  = fetch env (localRequest endpoint modelName systemPrompt history userMessage) ->
  json_syntax_error env' = json_syntax_error env ->
  null_read_error env' = null_read_error env ->
  not_a_function_error env' = not_a_function_error env ->
  sendMessageToLocalLLM env' endpoint modelName systemPrompt history userMessage
  = sendMessageToLocalLLM env endpoint modelName systemPrompt history userMessage.
Proof.
  intros Hfetch Hsyntax Hnull Hcall.
  unfold sendMessageToLocalLLM, requestAndParse, response_json, read, parseRawContent.
  rewrite Hfetch, Hsyntax, Hnull, Hcall. reflexivity.
Qed.

End OutboundRequest.

(** C8.  The one request [sendMessageToLocalLLM] hands to [fetch] is a
    POST to the endpoint whose body is the JSON text of the model name,
    the message sequence and the sampling settings; nothing else of the
    endpoint enters the outcome.  The sequence is: first the one and
    only system-role entry, carrying the instruction text; then one
    entry per prior turn, in order, where an assistant turn that carries
    a structured response goes out as the JSON text of the whole
    response (all six fields) and not as its displayed text, and any
    other turn goes out as its text; last, the new user message.  When
    every prior turn goes out as a string, [JSON.parse] reads the
    sequence back from the body. *)
Theorem outbound_message_sequence :
  forall (env : Env) (endpoint modelName systemPrompt : jsstring)
         (history : list ChatMessage) (userMessage : jsstring),
    let request := localRequest endpoint modelName systemPrompt history userMessage in
    let msgs :=
      systemEntry systemPrompt :: map historyEntry history ++ [userEntry userMessage] in
    (forall env',
       fetch env' request = fetch env request ->
       json_syntax_error env' = json_syntax_error env ->
       null_read_error env' = null_read_error env ->
       not_a_function_error env' = not_a_function_error env ->
       sendMessageToLocalLLM env' endpoint modelName systemPrompt history userMessage
       = sendMessageToLocalLLM env endpoint modelName systemPrompt history userMessage)
    /\ (forall e,
          fetch env request = FetchRejects e ->
          sendMessageToLocalLLM env endpoint modelName systemPrompt history userMessage
          = Normal (fallbackResponse endpoint e))
    /\ url request = endpoint
    /\ method request = js "POST"
    /\ body request = requestText modelName msgs
    /\ (forallb sendable history = true ->
        exists data,
          JSON_parse (body request) = Some data
          /\ field data "messages" = VArr (map ApiMessage_value msgs))
    /\ filter isSystemEntry msgs = [systemEntry systemPrompt]
    /\ (forall i h, nth_error history i = Some h ->
          nth_error msgs (S i) = Some (historyEntry h))
    /\ (forall h r, role h = assistant -> metadata h = response_value r ->
          historyEntry h =
          {| ApiMessage.role := js "assistant";
             ApiMessage.content := VStr (stringify (response_value r)) |}
          /\ stringify (response_value r) =
             js "{" ++ quote (js "content_for_user") ++ js ":" ++ quote (content_for_user r)
             ++ js "," ++ quote (js "internal_monologue") ++ js ":"
                       ++ quote (internal_monologue r)
             ++ js "," ++ quote (js "knowledge_point_id") ++ js ":"
                       ++ quote (knowledge_point_id r)
             ++ js "," ++ quote (js "student_mastery_score") ++ js ":"
                       ++ number_toString (normalize (student_mastery_score r) 0)
             ++ js "," ++ quote (js "suggested_next_state") ++ js ":"
                       ++ quote (PedagogicalState_text (suggested_next_state r))
             ++ js "," ++ quote (js "is_direct_answer_attempt") ++ js ":"
                       ++ (if is_direct_answer_attempt r then js "true" else js "false")
             ++ js "}")
    /\ (forall h, role h <> assistant \/ truthy (metadata h) = false ->
          ApiMessage.content (historyEntry h) = content h)
    /\ nth_error msgs (S (List.length history)) = Some (userEntry userMessage)
    /\ List.length msgs = S (S (List.length history)).
Proof.
  intros env endpoint modelName systemPrompt history userMessage request msgs.
  assert (Hmsgs : apiMessages systemPrompt history userMessage = msgs) by reflexivity.
  assert (Hbody : body request = requestText modelName msgs).
  { subst request. unfold localRequest. cbn [body]. rewrite Hmsgs.
    apply stringify_requestBody. }
  subst request.
  split; [intros env'; apply gateway_reads_one_answer|].
  split; [intros e Hfetch; apply gateway_catches; unfold requestAndParse;
          rewrite Hfetch; reflexivity|].
  split; [reflexivity|]. split; [reflexivity|]. split; [exact Hbody|].
  split.
  { intros Hsendable.
    exists (requestBody modelName (apiMessages systemPrompt history userMessage)).
    split.
    - unfold localRequest. cbn [body].
      apply JSON_parse_stringify, clean_request, Hsendable.
    - rewrite Hmsgs. reflexivity. }
  subst msgs. repeat apply conj.
  - cbn [filter]. change (isSystemEntry (systemEntry systemPrompt)) with true.
    cbv iota. rewrite filter_app, history_has_no_system. reflexivity.
  - intros i h Hi. cbn [nth_error].
    rewrite nth_error_app1 by (rewrite length_map; apply nth_error_Some; congruence).
    apply map_nth_error. exact Hi.
  - intros h r Hrole Hmeta. split.
    + apply historyEntry_structured; assumption.
    + apply stringify_response.
  - apply historyEntry_plain.
  - cbn [nth_error]. rewrite nth_error_app2 by (rewrite length_map; auto).
    rewrite length_map, Nat.sub_diag. reflexivity.
  - cbn [List.length]. rewrite length_app, length_map. cbn [List.length]. lia.
Qed.

(** On a history with a welcome turn, a question and a redirected reply,
    the body handed to [fetch] reads back as the sequence, whose fourth
    entry is the whole response of the redirected turn. *)
Lemma outbound_message_sequence_witness :
  (exists data,
     JSON_parse (body (localRequest (js "http://localhost:8000") (js "edu-32b-finetuned")
                         (js "You are EduMind") sampleHistory (js "Is it 2/5?")))
     = Some data
     /\ field data "messages"
        = VArr (map ApiMessage_value
                  (systemEntry (js "You are EduMind")
                   :: map historyEntry sampleHistory ++ [userEntry (js "Is it 2/5?")])))
  /\ nth_error (systemEntry (js "You are EduMind")
                :: map historyEntry sampleHistory ++ [userEntry (js "Is it 2/5?")]) 3
     = Some {| ApiMessage.role := js "assistant";
               ApiMessage.content := VStr (stringify (response_value directAnswer)) |}.
Proof.
  destruct (outbound_message_sequence tutor (js "http://localhost:8000")
              (js "edu-32b-finetuned") (js "You are EduMind") sampleHistory
              (js "Is it 2/5?"))
    as (_ & _ & _ & _ & _ & Hparse & _ & Hnth & Hstructured & _).
  split.
  - apply Hparse. reflexivity.
  - rewrite (Hnth 2 redirectedMsg eq_refl).
    destruct (Hstructured redirectedMsg directAnswer eq_refl eq_refl) as [-> _].
    reflexivity.
Defined.

(** X3.  The request [sendMessageToLocalLLM] hands to [fetch] is a POST
    to the endpoint with content type [application/json], and its body
    is well-formed JSON: whatever code units the instruction, the prior
    turns and the new message hold, [JSON.parse] reads the body back as
    the request object, with the model name, the message sequence,
    temperature 0.7, at most 2048 tokens and the JSON-object response
    format. *)
Theorem request_body_is_json :
  forall (endpoint modelName systemPrompt : jsstring) (history : list ChatMessage)
         (userMessage : jsstring),
    forallb sendable history = true ->
    let request := localRequest endpoint modelName systemPrompt history userMessage in
    url request = endpoint
    /\ method request = js "POST"
    /\ headers request = [(js "Content-Type", js "application/json")]
    /\ exists data,
         JSON_parse (body request) = Some data
         /\ field data "model" = VStr modelName
         /\ field data "messages"
            = VArr (map ApiMessage_value (apiMessages systemPrompt history userMessage))
         /\ stringify (field data "temperature") = js "0.7"
         /\ stringify (field data "max_tokens") = js "2048"
         /\ field (field data "response_format") "type" = VStr (js "json_object").
Proof.
  intros endpoint modelName systemPrompt history userMessage H request. subst request.
  repeat split.
  exists (requestBody modelName (apiMessages systemPrompt history userMessage)).
  split.
  - unfold localRequest. cbn [body].
    apply JSON_parse_stringify, clean_request, H.
  - repeat split; reflexivity.
Qed.

Lemma request_body_is_json_witness :
  exists data,
    JSON_parse (body (localRequest (js "http://localhost:8000") (js "edu-32b-finetuned")
                        (js "You are EduMind") sampleHistory question)) = Some data
    /\ field data "model" = VStr (js "edu-32b-finetuned").
Proof.
  destruct (request_body_is_json (js "http://localhost:8000") (js "edu-32b-finetuned")
              (js "You are EduMind") sampleHistory question)
    as (_ & _ & _ & data & Hparse & Hmodel & _).
  - reflexivity.
  - exists data. split; assumption.
Defined.

(** ** Mode and state in the instruction text *)

Section StateOfPrompt.

Lemma state_value_eq s s' :
  strict_eq (state_value s) (state_value s') = PedagogicalState_eqb s s'.
Proof. destruct s, s'; vm_compute; reflexivity. Qed.

Lemma behavioralDirectives_at student s :
  behavioralDirectives student (state_value s) =
  match s with
  | GUIDING => guidingDirectives
  | EXPLAINING => explainingDirectives student
  | QUIZZING => quizzingDirectives
  end.
Proof.
  unfold behavioralDirectives. rewrite !state_value_eq. destruct s; reflexivity.
Qed.

(** The [switch] looks at nothing of [currentState] but which of the
    three state strings it is, if any. *)
Lemma behavioralDirectives_cases student currentState :
  (existsb (fun s => strict_eq currentState (state_value s)) [GUIDING; EXPLAINING; QUIZZING]
     = false
   /\ behavioralDirectives student currentState = [])
  \/ exists s, strict_eq currentState (state_value s) = true
               /\ behavioralDirectives student currentState
                  = behavioralDirectives student (state_value s).
Proof.
  cbn [existsb].
  destruct (strict_eq currentState (state_value GUIDING)) eqn:E1.
  { right. exists GUIDING. split; [exact E1|].
    rewrite behavioralDirectives_at. unfold behavioralDirectives. rewrite E1. reflexivity. }
  destruct (strict_eq currentState (state_value EXPLAINING)) eqn:E2.
  { right. exists EXPLAINING. split; [exact E2|].
    rewrite behavioralDirectives_at. unfold behavioralDirectives. rewrite E1, E2.
    reflexivity. }
  destruct (strict_eq currentState (state_value QUIZZING)) eqn:E3.
  { right. exists QUIZZING. split; [exact E3|].
    rewrite behavioralDirectives_at. unfold behavioralDirectives. rewrite E1, E2, E3.
    reflexivity. }
  left. split; [reflexivity|].
  unfold behavioralDirectives. rewrite E1, E2, E3. reflexivity.
Qed.

End StateOfPrompt.

Section ModeAndState.

Lemma promptSuffix_cases g ml mode currentState :
  (existsb (fun s => strict_eq currentState (state_value s)) [GUIDING; EXPLAINING; QUIZZING]
     = false
   /\ promptSuffix g ml mode currentState = promptSuffix g ml mode VNull)
  \/ exists s, strict_eq currentState (state_value s) = true
               /\ promptSuffix g ml mode currentState
                  = promptSuffix g ml mode (state_value s).
Proof.
  unfold promptSuffix.
  destruct (behavioralDirectives_cases (bare g ml) currentState) as [[H ->]|(s & H & ->)].
  - left. split; [exact H|].
    replace (behavioralDirectives (bare g ml) VNull) with (@nil jschar)
      by (vm_compute; reflexivity).
    reflexivity.
  - right. exists s. split; [exact H|reflexivity].
Qed.

Lemma prefix_has_no_mode subject g :
  includes (promptPrefix subject g)
    (js "You are analyzing a mistake. Find the root cause of the error.") = false
  /\ includes (promptPrefix subject g) (js "You are explaining a new concept.") = false
  /\ includes (promptPrefix subject g) (js "CURRENT STATE") = false.
Proof. destruct subject, g; vm_compute; repeat split; reflexivity. Qed.

Lemma suffix_mode_at_state g ml mode s :
  includes (promptSuffix g ml mode (state_value s))
    (js "You are analyzing a mistake. Find the root cause of the error.")
  = TaskMode_eqb mode MISTAKE_ANALYSIS
  /\ includes (promptSuffix g ml mode (state_value s)) (js "You are explaining a new concept.")
     = negb (TaskMode_eqb mode MISTAKE_ANALYSIS)
  /\ includes (promptSuffix g ml mode (state_value s)) (js "CURRENT STATE") = true.
Proof. destruct g, ml, mode, s; vm_compute; repeat split; reflexivity. Qed.

Lemma suffix_mode_without_state g ml mode :
  includes (promptSuffix g ml mode VNull)
    (js "You are analyzing a mistake. Find the root cause of the error.")
  = TaskMode_eqb mode MISTAKE_ANALYSIS
  /\ includes (promptSuffix g ml mode VNull) (js "You are explaining a new concept.")
     = negb (TaskMode_eqb mode MISTAKE_ANALYSIS)
  /\ includes (promptSuffix g ml mode VNull) (js "CURRENT STATE") = false.
Proof. destruct g, ml, mode; vm_compute; repeat split; reflexivity. Qed.

Lemma suffix_without_state_has_no_directive g ml mode g' s' :
  forallb (fun kw => negb (includes (promptSuffix g ml mode VNull) kw)) (directives g' s')
  = true.
Proof. destruct g, ml, mode, g', s'; vm_compute; reflexivity. Qed.

Lemma mode_words_plain :
  plain (js "You are analyzing a mistake. Find the root cause of the error.") = true
  /\ plain (js "You are explaining a new concept.") = true
  /\ plain (js "CURRENT STATE") = true.
Proof. vm_compute. repeat split; reflexivity. Qed.

End ModeAndState.

(** X4.  The task mode enters the instruction text as one of two
    sentences only: the text says that a mistake is being analysed
    exactly when the mode is MISTAKE_ANALYSIS, and that a new concept is
    being explained in the two other modes; HOMEWORK_HELP and
    CONCEPT_EXPLANATION give the same text, letter for letter.  This
    holds for every subject, profile and state value. *)
Theorem mode_directive_is_binary :
  forall (subject : Subject) (student : StudentProfile) (mode : TaskMode)
         (currentState : value),
    let p := constructSystemPrompt subject student mode currentState in
    includes p (js "You are analyzing a mistake. Find the root cause of the error.")
      = TaskMode_eqb mode MISTAKE_ANALYSIS
    /\ includes p (js "You are explaining a new concept.")
       = negb (TaskMode_eqb mode MISTAKE_ANALYSIS)
    /\ constructSystemPrompt subject student HOMEWORK_HELP currentState
       = constructSystemPrompt subject student CONCEPT_EXPLANATION currentState.
Proof.
  intros subject student mode currentState p. subst p.
  destruct mode_words_plain as (Hp1 & Hp2 & _).
  destruct (plain_spec _ Hp1) as [Hd1 Hn1]. destruct (plain_spec _ Hp2) as [Hd2 Hn2].
  destruct (prefix_has_no_mode subject (grade student)) as (Hpre1 & Hpre2 & _).
  rewrite !includes_prompt by assumption. rewrite Hpre1, Hpre2. cbn [orb].
  split; [|split].
  - destruct (promptSuffix_cases (grade student) (masteryLevel student) mode currentState)
      as [[_ ->]|(s & _ & ->)].
    + destruct (suffix_mode_without_state (grade student) (masteryLevel student) mode)
        as (H & _ & _). exact H.
    + destruct (suffix_mode_at_state (grade student) (masteryLevel student) mode s)
        as (H & _ & _). exact H.
  - destruct (promptSuffix_cases (grade student) (masteryLevel student) mode currentState)
      as [[_ ->]|(s & _ & ->)].
    + destruct (suffix_mode_without_state (grade student) (masteryLevel student) mode)
        as (_ & H & _). exact H.
    + destruct (suffix_mode_at_state (grade student) (masteryLevel student) mode s)
        as (_ & H & _). exact H.
  - unfold constructSystemPrompt, modeDirectives. cbn [TaskMode_eqb]. reflexivity.
Qed.

(** X5.  The [switch] on the current state has no default branch: the
    instruction text carries a CURRENT STATE block exactly when the
    state value is one of the three state strings; for any other value
    (a string the model made up, [null], a number) it carries no state
    block and none of the directives of any state. *)
Theorem state_block_needs_known_state :
  forall (subject : Subject) (student : StudentProfile) (mode : TaskMode)
         (currentState : value),
    let p := constructSystemPrompt subject student mode currentState in
    let known :=
      existsb (fun s => strict_eq currentState (state_value s))
              [GUIDING; EXPLAINING; QUIZZING] in
    includes p (js "CURRENT STATE") = known
    /\ (known = false ->
        forall (g : Grade) (s : PedagogicalState),
          forallb (fun kw => negb (includes p kw)) (directives g s) = true).
Proof.
  intros subject student mode currentState p known. subst p known.
  destruct mode_words_plain as (_ & _ & Hp).
  destruct (plain_spec _ Hp) as [Hd Hn].
  destruct (prefix_has_no_mode subject (grade student)) as (_ & _ & Hpre).
  split.
  - rewrite includes_prompt by assumption. rewrite Hpre. cbn [orb].
    destruct (promptSuffix_cases (grade student) (masteryLevel student) mode currentState)
      as [[Hk ->]|(s & Hk & ->)].
    + rewrite Hk.
      destruct (suffix_mode_without_state (grade student) (masteryLevel student) mode)
        as (_ & _ & H). exact H.
    + replace (existsb _ _) with true.
      * destruct (suffix_mode_at_state (grade student) (masteryLevel student) mode s)
          as (_ & _ & H). exact H.
      * symmetry. apply existsb_exists. exists s. split; [|exact Hk].
        destruct s; simpl; auto.
  - intros Hunknown g s. apply forallb_forall. intros kw Hin.
    destruct (plain_spec kw) as [Hkd Hkn].
    { exact (proj1 (forallb_forall _ _) (directives_plain _ _) kw Hin). }
    rewrite includes_prompt by assumption.
    pose proof (proj1 (forallb_forall _ _)
                  (prefix_has_no_directive subject (grade student) g s) kw Hin) as H1.
    cbv beta in H1. apply negb_true_iff in H1. rewrite H1. cbn [orb].
    destruct (promptSuffix_cases (grade student) (masteryLevel student) mode currentState)
      as [[_ ->]|(s' & Hk & _)].
    + exact (proj1 (forallb_forall _ _)
               (suffix_without_state_has_no_directive _ _ _ g s) kw Hin).
    + assert (Hex : existsb (fun s => strict_eq currentState (state_value s))
                      [GUIDING; EXPLAINING; QUIZZING] = true).
      { apply existsb_exists. exists s'. split; [|exact Hk]. destruct s'; simpl; auto. }
      rewrite Hex in Hunknown. discriminate.
Qed.

Lemma state_block_needs_known_state_witness :
  forallb (fun kw => negb (includes (constructSystemPrompt MATH (student initialAppState)
                                       HOMEWORK_HELP (VStr (js "RECESS"))) kw))
          (directives MIDDLE GUIDING) = true.
Proof.
  destruct (state_block_needs_known_state MATH (student initialAppState) HOMEWORK_HELP
              (VStr (js "RECESS"))) as [_ H].
  apply H. vm_compute. reflexivity.
Defined.

(** ** The paths of one turn *)

Ltac settle :=
  repeat match goal with
  | |- _ /\ _ => split
  | |- ?a = ?a => reflexivity
  | |- ?a <> ?b -> _ =>
      let H := fresh in intros H; try solve [exfalso; apply H; reflexivity]
  | |- (_ -> _) -> _ =>
      let H := fresh in intros H; try solve [specialize (H eq_refl); discriminate H]
  | |- ?a = ?b -> _ => let H := fresh in intros H; try discriminate H
  | |- exists t, _ => eexists
  | |- map _ (skipn _ _) = _ =>
      rewrite ?skipn_transcript, ?skipn_transcript3; reflexivity
  | |- _ = _ => reflexivity
  end.

Lemma turn_paths env st d response x :
  trim (input st) <> [] -> isLoading st = false ->
  inference env st = Normal response ->
  get_prop response (js "suggested_next_state") = Some x ->
  let w := turn env st d in
  let recording :=
    if TaskMode_eqb (mode st) MISTAKE_ANALYSIS
    then if truthy (field response "knowledge_point_id")
         then truthy (field response "internal_monologue") else false
    else false in
  let record :=
    {| MistakeRecord.userEmail := email (student st);
       MistakeRecord.subject := subject st;
       MistakeRecord.question := substring0 100 (input st);
       MistakeRecord.analysis := field response "internal_monologue";
       MistakeRecord.knowledgePoint := field response "knowledge_point_id";
       MistakeRecord.timestamp := now env 2 |} in
  let display :=
    if truthy (field response "is_direct_answer_attempt")
       && strict_eq (currentState st) (state_value GUIDING)
    then VStr redirectMessage else field response "content_for_user" in
  let archived := if recording then store_add record d else d in
  input (react w) = []
  /\ isLoading (react w) = false
  /\ (recording = true -> db_fault env 0 <> NoFault ->
      map content (appended st w) = [VStr (input st); VStr systemErrorMessage]
      /\ map metadata (appended st w) = [VUndefined; VUndefined]
      /\ map role (appended st w) = [user; assistant]
      /\ db w = d
      /\ calls w = [AddMistake record])
  /\ ((recording = true -> db_fault env 0 = NoFault) ->
      (db_fault env (if recording then 1 else 0) = NoFault ->
       map content (appended st w) = [VStr (input st); display]
       /\ map metadata (appended st w) = [VUndefined; response]
       /\ map role (appended st w) = [user; assistant]
       /\ (exists t, db w = store_put (email (student st)) (messages (react w), t) archived)
       /\ calls w = (if recording then [AddMistake record] else [])
                    ++ [SaveChatHistory (email (student st)) (messages (react w))])
      /\ (db_fault env (if recording then 1 else 0) <> NoFault ->
          map content (appended st w)
          = [VStr (input st); display; VStr systemErrorMessage]
          /\ map metadata (appended st w) = [VUndefined; response; VUndefined]
          /\ map role (appended st w) = [user; assistant; assistant]
          /\ db w = archived)).
Proof.
  intros Hin Hload Hsend Hs w.
  assert (Hw : w = turn env st d) by reflexivity. clearbody w. revert Hw.
  pose proof (@read_total env _ _ _ Hs) as Hread.
  unfold inference in Hsend.
  exec. rewrite (@truthy_nonempty _ Hin), Hload. exec. rewrite Hsend. exec.
  rewrite !Hread.
  crunch.
  all: intros ->; unfold mistakeRecords, appended;
    cbn [snd fst react db clock_reads db_ops calls mistakes mistake_key chats
         subject mode student apiUrl modelName messages input isLoading currentState
         lastMetadata flat_map app].
  all: settle.
Qed.

Section Blank.

Lemma trim_start_blank s : forallb is_js_space s = true -> trim_start s = [].
Proof.
  induction s as [|c s IH]; [reflexivity|]. cbn [forallb trim_start].
  intros H. apply andb_prop in H as [Hc Hs]. rewrite Hc. exact (IH Hs).
Qed.

Lemma trim_start_nil s : trim_start s = [] -> forallb is_js_space s = true.
Proof.
  induction s as [|c s IH]; [reflexivity|]. cbn [forallb trim_start].
  destruct (is_js_space c); [exact IH|discriminate].
Qed.

Lemma trim_start_head s c t : trim_start s = c :: t -> is_js_space c = false.
Proof.
  induction s as [|x s IH]; [discriminate|]. cbn [trim_start].
  destruct (is_js_space x) eqn:E; [exact IH|]. intros H. injection H as -> _. exact E.
Qed.

(** [trim] leaves nothing exactly of the strings made of white space. *)
Lemma trim_blank s : trim s = [] <-> forallb is_js_space s = true.
Proof.
  unfold trim, trim_end. split.
  - intros H. apply (f_equal (@rev jschar)) in H. rewrite rev_involutive in H.
    cbn [rev] in H. apply trim_start_nil in H.
    destruct (trim_start s) as [|c t] eqn:E; [apply trim_start_nil; exact E|].
    apply trim_start_head in E.
    assert (Hc : is_js_space c = true).
    { apply (proj1 (forallb_forall _ _) H). apply in_rev. rewrite rev_involutive.
      left. reflexivity. }
    congruence.
  - intros H. rewrite (trim_start_blank s H). reflexivity.
Qed.

End Blank.

Section TurnEdges.

Lemma handleSend_guard env st w :
  trim (input st) = [] \/ isLoading st = true ->
  handleSend env st w = (Normal tt, w).
Proof.
  intros H. unfold handleSend.
  destruct H as [->| ->]; [reflexivity|]. rewrite orb_true_r. reflexivity.
Qed.

Lemma handleSend_returns env st w : fst (handleSend env st w) = Normal tt.
Proof.
  unfold handleSend.
  destruct (negb (truthy (VStr (trim (input st)))) || isLoading st); [reflexivity|].
  cbv beta iota delta [bindM Date_now setMessages setInput setIsLoading update_react
                       finallyM catchM reportError].
  cbn [fst snd react db clock_reads db_ops calls].
  match goal with
  | |- context [exchange ?e ?s ?u ?t ?m ?w0] => destruct (exchange e s u t m w0) as [[[]|err] w1]
  end; reflexivity.
Qed.

Lemma read_null env response k0 :
  get_prop response k0 = None ->
  forall k, read env response k = Throw (null_read_error env k).
Proof.
  intros H k. unfold read. destruct response; try discriminate H; reflexivity.
Qed.

(** A turn whose response is [null]: the first read of the response
    throws, and the [catch] block reports. *)
Lemma turn_on_null env st d response :
  trim (input st) <> [] -> isLoading st = false ->
  inference env st = Normal response ->
  get_prop response (js "suggested_next_state") = None ->
  let w := turn env st d in
  map content (appended st w) = [VStr (input st); VStr systemErrorMessage]
  /\ map metadata (appended st w) = [VUndefined; VUndefined]
  /\ map role (appended st w) = [user; assistant]
  /\ lastMetadata (react w) = response
  /\ currentState (react w) = currentState st
  /\ input (react w) = []
  /\ isLoading (react w) = false
  /\ db w = d
  /\ calls w = [].
Proof.
  intros Hin Hload Hsend Hs w.
  assert (Hw : w = turn env st d) by reflexivity. clearbody w. revert Hw.
  pose proof (read_null env _ _ Hs) as Hread.
  unfold inference in Hsend.
  exec. rewrite (@truthy_nonempty _ Hin), Hload. exec. rewrite Hsend. exec.
  rewrite !Hread. exec.
  intros ->; unfold mistakeRecords, appended;
    cbn [snd fst react db clock_reads db_ops calls mistakes mistake_key chats
         subject mode student apiUrl modelName messages input isLoading currentState
         lastMetadata flat_map app].
  settle.
Qed.

End TurnEdges.

Section TypedTurns.

Lemma nested_if_and (a b c : bool) :
  (if a then if b then c else false else false) = a && b && c.
Proof. destruct a, b, c; reflexivity. Qed.

(** The paths of a turn, for a well-shaped response. *)
Lemma turn_typed env st d r :
  trim (input st) <> [] -> isLoading st = false ->
  inference env st = Normal (response_value r) ->
  let w := turn env st d in
  let archived := if archives st r then store_add (archivedRecord env st r) d else d in
  input (react w) = []
  /\ isLoading (react w) = false
  /\ (archives st r = true -> db_fault env 0 <> NoFault ->
      map content (appended st w) = [VStr (input st); VStr systemErrorMessage]
      /\ map metadata (appended st w) = [VUndefined; VUndefined]
      /\ map role (appended st w) = [user; assistant]
      /\ db w = d
      /\ calls w = [AddMistake (archivedRecord env st r)])
  /\ ((archives st r = true -> db_fault env 0 = NoFault) ->
      (db_fault env (saveOperation st r) = NoFault ->
       map content (appended st w) = [VStr (input st); displayed st r]
       /\ map metadata (appended st w) = [VUndefined; response_value r]
       /\ map role (appended st w) = [user; assistant]
       /\ (exists t, db w = store_put (email (student st)) (messages (react w), t) archived)
       /\ calls w = (if archives st r then [AddMistake (archivedRecord env st r)] else [])
                    ++ [SaveChatHistory (email (student st)) (messages (react w))])
      /\ (db_fault env (saveOperation st r) <> NoFault ->
          map content (appended st w)
          = [VStr (input st); displayed st r; VStr systemErrorMessage]
          /\ map metadata (appended st w) = [VUndefined; response_value r; VUndefined]
          /\ map role (appended st w) = [user; assistant; assistant]
          /\ db w = archived)).
Proof.
  intros Hin Hload Hsend.
  pose proof (turn_paths env st d _ _ Hin Hload Hsend (response_not_null r)) as H.
  cbv zeta in H |- *.
  rewrite nested_if_and in H.
  rewrite (field_knowledge_point r), (field_monologue r), (field_flag r),
    (field_content r) in H.
  cbn [truthy] in H.
  exact H.
Qed.

End TypedTurns.

(** ** The stores of the database *)

Section Stores.

Lemma store_get_put_same (A : Type) key (entry : A) store :
  store_get key ((key, entry) :: store) = Some entry.
Proof. cbn [store_get]. rewrite jsstring_eqb_refl. reflexivity. Qed.

Lemma store_get_filter_other (A : Type) key other (store : list (jsstring * A)) :
  other <> key ->
  store_get other (filter (fun kv => negb (jsstring_eqb (fst kv) key)) store)
  = store_get other store.
Proof.
  intros Hne. induction store as [|[k a] store IH]; [reflexivity|].
  cbn [filter fst store_get].
  destruct (jsstring_eqb k key) eqn:E; cbn [negb].
  - apply jsstring_eqb_eq in E. subst k.
    rewrite (jsstring_eqb_neq key other) by congruence. exact IH.
  - cbn [store_get]. rewrite IH. reflexivity.
Qed.

Lemma chats_after_put userEmail entry d :
  store_get userEmail (chats (store_put userEmail entry d)) = Some entry
  /\ (forall other, other <> userEmail ->
        store_get other (chats (store_put userEmail entry d)) = store_get other (chats d))
  /\ mistakes (store_put userEmail entry d) = mistakes d
  /\ mistake_key (store_put userEmail entry d) = mistake_key d.
Proof.
  unfold store_put. cbn [chats mistakes mistake_key]. repeat split.
  - apply store_get_put_same.
  - intros other Hne. cbn [store_get].
    rewrite (jsstring_eqb_neq userEmail other) by congruence.
    apply store_get_filter_other. exact Hne.
Qed.

End Stores.

(** X6.  A click on send does nothing at all when the input holds
    nothing but white space (or nothing), or while a request is in
    flight: no message is appended, the database is not touched, the
    clock is not read, and the handler returns normally. *)
Theorem handleSend_ignores_blank_input :
  forall (env : Env) (st : AppState) (w : World),
    forallb is_js_space (input st) = true \/ isLoading st = true ->
    handleSend env st w = (Normal tt, w).
Proof.
  intros env st w [H|H]; apply handleSend_guard.
  - left. apply trim_blank. exact H.
  - right. exact H.
Qed.

Lemma handleSend_ignores_blank_input_witness :
  handleSend tutor blankTurn (world_of blankTurn emptyDatabase)
  = (Normal tt, world_of blankTurn emptyDatabase).
Proof.
  apply (handleSend_ignores_blank_input tutor blankTurn).
  left. vm_compute. reflexivity.
Defined.

Section Settling.

Lemma turn_shape env st d :
  trim (input st) <> [] -> isLoading st = false ->
  let w := turn env st d in
  isLoading (react w) = false
  /\ input (react w) = []
  /\ hd_error (map content (appended st w)) = Some (VStr (input st))
  /\ (map role (appended st w) = [user; assistant]
      \/ map role (appended st w) = [user; assistant; assistant]).
Proof.
  intros Hin Hload w.
  destruct (gateway_returns env (apiUrl st) (modelName st)
              (constructSystemPrompt (subject st) (student st) (mode st) (currentState st))
              (messages st) (input st)) as [response Hsend].
  change (inference env st = Normal response) in Hsend.
  destruct (get_prop response (js "suggested_next_state")) as [x|] eqn:Hs.
  - pose proof (turn_paths env st d response x Hin Hload Hsend Hs) as H.
    cbv zeta in H. fold w in H.
    destruct H as (Hinput & Hloading & Herr & Hok).
    split; [exact Hloading|]. split; [exact Hinput|].
    destruct (if TaskMode_eqb (mode st) MISTAKE_ANALYSIS
              then if truthy (field response "knowledge_point_id")
                   then truthy (field response "internal_monologue") else false
              else false) eqn:Hrec.
    + destruct (db_fault env 0) eqn:F0.
      * destruct (Hok (fun _ => eq_refl)) as [Hsave Hfail]. cbv iota in Hsave, Hfail.
        destruct (db_fault env 1) eqn:F1.
        -- destruct (Hsave eq_refl) as (Hc & _ & Hr & _). rewrite Hc, Hr.
           split; [reflexivity|left; reflexivity].
        -- destruct Hfail as (Hc & _ & Hr & _); [discriminate|]. rewrite Hc, Hr.
           split; [reflexivity|right; reflexivity].
        -- destruct Hfail as (Hc & _ & Hr & _); [discriminate|]. rewrite Hc, Hr.
           split; [reflexivity|right; reflexivity].
      * destruct (Herr eq_refl) as (Hc & _ & Hr & _); [discriminate|]. rewrite Hc, Hr.
        split; [reflexivity|left; reflexivity].
      * destruct (Herr eq_refl) as (Hc & _ & Hr & _); [discriminate|]. rewrite Hc, Hr.
        split; [reflexivity|left; reflexivity].
    + destruct Hok as [Hsave Hfail]; [discriminate|]. cbv iota in Hsave, Hfail.
      destruct (db_fault env 0) eqn:F0.
      * destruct (Hsave eq_refl) as (Hc & _ & Hr & _). rewrite Hc, Hr.
        split; [reflexivity|left; reflexivity].
      * destruct Hfail as (Hc & _ & Hr & _); [discriminate|]. rewrite Hc, Hr.
        split; [reflexivity|right; reflexivity].
      * destruct Hfail as (Hc & _ & Hr & _); [discriminate|]. rewrite Hc, Hr.
        split; [reflexivity|right; reflexivity].
  - pose proof (turn_on_null env st d response Hin Hload Hsend Hs) as H.
    cbv zeta in H. fold w in H.
    destruct H as (Hc & _ & Hr & _ & _ & Hinput & Hloading & _).
    rewrite Hc, Hr. repeat split; auto.
Qed.

End Settling.

(** X7.  [handleSend] never throws: whatever the endpoint, the model
    and the database do, the handler returns normally.  A click that
    passes the guard always clears the input and the loading flag again,
    and appends the user's message followed by one or two assistant
    messages (the reply, the error report, or both). *)
Theorem handleSend_always_settles :
  forall (env : Env) (st : AppState) (d : Database),
    fst (handleSend env st (world_of st d)) = Normal tt
    /\ (trim (input st) <> [] -> isLoading st = false ->
        isLoading (react (turn env st d)) = false
        /\ input (react (turn env st d)) = []
        /\ hd_error (map content (appended st (turn env st d))) = Some (VStr (input st))
        /\ (map role (appended st (turn env st d)) = [user; assistant]
            \/ map role (appended st (turn env st d)) = [user; assistant; assistant])).
Proof.
  intros env st d. split.
  - apply handleSend_returns.
  - intros Hin Hload. exact (turn_shape env st d Hin Hload).
Qed.

Lemma handleSend_always_settles_witness :
  fst (handleSend failingStore guidingTurn (world_of guidingTurn emptyDatabase)) = Normal tt
  /\ isLoading (react (turn failingStore guidingTurn emptyDatabase)) = false.
Proof.
  destruct (handleSend_always_settles failingStore guidingTurn emptyDatabase) as [Hret H].
  split; [exact Hret|].
  destruct H as (H & _).
  - vm_compute. discriminate.
  - reflexivity.
  - exact H.
Defined.

(** X8.  A model that answers with the JSON text [null] sends the turn
    to the [catch] block: the response is stored as the last metadata,
    the first read of a field of it throws, the transcript gains the
    user's message and the system-error message, the state stays as it
    was and the database is not touched. *)
Theorem null_response_reports_error :
  forall (env : Env) (st : AppState) (d : Database),
    trim (input st) <> [] -> isLoading st = false ->
    inference env st = Normal VNull ->
    map content (appended st (turn env st d))
    = [VStr (input st); VStr systemErrorMessage]
    /\ map metadata (appended st (turn env st d)) = [VUndefined; VUndefined]
    /\ lastMetadata (react (turn env st d)) = VNull
    /\ currentState (react (turn env st d)) = currentState st
    /\ db (turn env st d) = d
    /\ calls (turn env st d) = [].
Proof.
  intros env st d Hin Hload Hsend.
  pose proof (turn_on_null env st d VNull Hin Hload Hsend eq_refl) as H.
  cbv zeta in H.
  destruct H as (Hc & Hm & _ & Hlast & Hstate & _ & _ & Hdb & Hcalls).
  repeat split; assumption.
Qed.

Lemma null_response_reports_error_witness :
  map content (appended explainingTurn (turn nullModel explainingTurn emptyDatabase))
  = [VStr (input explainingTurn); VStr systemErrorMessage]
  /\ currentState (react (turn nullModel explainingTurn emptyDatabase))
     = currentState explainingTurn.
Proof.
  destruct (null_response_reports_error nullModel explainingTurn emptyDatabase)
    as (Hc & _ & _ & Hs & _).
  - vm_compute. discriminate.
  - reflexivity.
  - vm_compute. reflexivity.
  - split; [exact Hc|exact Hs].
Defined.

Section Mounting.

Lemma mount_restores env st d msgs t :
  email (student st) <> [] -> db_fault env 0 = NoFault ->
  store_get (email (student st)) (chats d) = Some (msgs, t) -> msgs <> [] ->
  messages (react (mount env st d)) = msgs.
Proof.
  intros Hemail Hfault Hget Hne.
  unfold mount, loadHistory. rewrite (truthy_nonempty _ Hemail).
  cbv beta iota delta [getChatHistory bindM next_fault world_of read_db ret].
  cbn [db_ops react db clock_reads calls]. rewrite Hfault.
  cbv beta iota. cbn [db]. rewrite Hget.
  destruct msgs as [|m msgs]; [contradiction|]. reflexivity.
Qed.

Lemma appended_nonempty st w (l : list value) :
  map content (appended st w) = l -> l <> [] -> messages (react w) <> [].
Proof.
  unfold appended. intros H Hl Hnil. rewrite Hnil in H.
  rewrite skipn_nil in H. simpl in H. congruence.
Qed.

End Mounting.

(** X9.  When the write of the transcript fails after the reply was
    built, the reply stays on screen, followed by the system-error
    message; the [chats] store is left as it was, and a mistake record
    written earlier in the turn stays in the mistake book. *)
Theorem failed_save_shows_reply_then_error :
  forall (env : Env) (st : AppState) (d : Database) (r : StructuredAIResponse),
    trim (input st) <> [] -> isLoading st = false ->
    inference env st = Normal (response_value r) ->
    (archives st r = true -> db_fault env 0 = NoFault) ->
    db_fault env (saveOperation st r) <> NoFault ->
    map content (appended st (turn env st d))
    = [VStr (input st); displayed st r; VStr systemErrorMessage]
    /\ map metadata (appended st (turn env st d))
       = [VUndefined; response_value r; VUndefined]
    /\ chats (db (turn env st d)) = chats d
    /\ mistakes (db (turn env st d))
       = mistakes d ++ (if archives st r
                        then [(mistake_key d, archivedRecord env st r)] else []).
Proof.
  intros env st d r Hin Hload Hsend Hmistake Hsave.
  pose proof (turn_typed env st d r Hin Hload Hsend) as H. cbv zeta in H.
  destruct H as (_ & _ & _ & H). destruct (H Hmistake) as [_ Hfail].
  destruct (Hfail Hsave) as (Hc & Hm & _ & Hdb).
  rewrite Hc, Hm, Hdb.
  destruct (archives st r); cbn [store_add chats mistakes];
    rewrite ?app_nil_r; repeat split; reflexivity.
Qed.

Lemma failed_save_shows_reply_then_error_witness :
  map content (appended guidingTurn (turn failingSave guidingTurn emptyDatabase))
  = [VStr (input guidingTurn); displayed guidingTurn directAnswer; VStr systemErrorMessage]
  /\ chats (db (turn failingSave guidingTurn emptyDatabase)) = chats emptyDatabase.
Proof.
  destruct (failed_save_shows_reply_then_error failingSave guidingTurn emptyDatabase
              directAnswer) as (Hc & _ & Hchats & _).
  - vm_compute. discriminate.
  - reflexivity.
  - vm_compute. reflexivity.
  - intros _. reflexivity.
  - vm_compute. discriminate.
  - split; [exact Hc|exact Hchats].
Defined.

(** X10.  A turn whose database writes succeed is persisted: the
    [chats] store then holds, under the learner's e-mail, exactly the
    transcript on screen, the entries of other users are untouched, and
    mounting the component again over that database (for a profile with
    the same, non-empty e-mail) shows the same transcript. *)
Theorem turn_is_persisted_and_restored :
  forall (env : Env) (st : AppState) (d : Database) (r : StructuredAIResponse),
    trim (input st) <> [] -> isLoading st = false ->
    inference env st = Normal (response_value r) ->
    (archives st r = true -> db_fault env 0 = NoFault) ->
    db_fault env (saveOperation st r) = NoFault ->
    (exists t, store_get (email (student st)) (chats (db (turn env st d)))
               = Some (messages (react (turn env st d)), t))
    /\ (forall other, other <> email (student st) ->
          store_get other (chats (db (turn env st d))) = store_get other (chats d))
    /\ (forall (env' : Env) (st' : AppState),
          email (student st') = email (student st) -> email (student st) <> [] ->
          db_fault env' 0 = NoFault ->
          messages (react (mount env' st' (db (turn env st d))))
          = messages (react (turn env st d))).
Proof.
  intros env st d r Hin Hload Hsend Hmistake Hsave.
  pose proof (turn_typed env st d r Hin Hload Hsend) as H. cbv zeta in H.
  destruct H as (_ & _ & _ & H). destruct (H Hmistake) as [Hok _].
  destruct (Hok Hsave) as (Hc & _ & _ & (t & Hdb) & _).
  destruct (chats_after_put (email (student st)) (messages (react (turn env st d)), t)
              (if archives st r then store_add (archivedRecord env st r) d else d))
    as (Hget & Hother & _).
  rewrite <- Hdb in Hget, Hother.
  split; [exists t; exact Hget|]. split.
  - intros other Hne. rewrite (Hother other Hne).
    destruct (archives st r); reflexivity.
  - intros env' st' Hsame Hemail Hfault.
    apply (mount_restores env' st' _ _ t).
    + rewrite Hsame. exact Hemail.
    + exact Hfault.
    + rewrite Hsame. exact Hget.
    + apply (appended_nonempty st _ _ Hc). discriminate.
Qed.

Lemma turn_is_persisted_and_restored_witness :
  messages (react (mount tutor initialAppState (db (turn tutor guidingTurn emptyDatabase))))
  = messages (react (turn tutor guidingTurn emptyDatabase)).
Proof.
  destruct (turn_is_persisted_and_restored tutor guidingTurn emptyDatabase directAnswer)
    as (_ & _ & H).
  - vm_compute. discriminate.
  - reflexivity.
  - vm_compute. reflexivity.
  - intros _. reflexivity.
  - reflexivity.
  - apply (H tutor initialAppState).
    + reflexivity.
    + vm_compute. discriminate.
    + reflexivity.
Defined.

Section FailedInference.

Lemma strict_eq_string a v : strict_eq (VStr a) v = true -> v = VStr a.
Proof.
  destruct v; simpl; try discriminate. intros H. apply jsstring_eqb_eq in H. congruence.
Qed.

Lemma fallback_archives st endpoint diagnostic :
  archives st (fallbackRecord endpoint diagnostic) = TaskMode_eqb (mode st) MISTAKE_ANALYSIS.
Proof.
  unfold archives. rewrite fallback_knowledge_point, fallback_monologue.
  replace (truthy (VStr (js "ERR_CONN"))) with true by (vm_compute; reflexivity).
  replace (truthy (VStr (js "Connection failed to " ++ endpoint ++ js ". Error: "
                         ++ diagnostic))) with true by reflexivity.
  rewrite !andb_true_r. reflexivity.
Qed.

Lemma fallback_displayed st endpoint diagnostic :
  displayed st (fallbackRecord endpoint diagnostic)
  = VStr (content_for_user (fallbackRecord endpoint diagnostic)).
Proof. unfold displayed, fallbackRecord. cbn [is_direct_answer_attempt andb]. reflexivity. Qed.

End FailedInference.

(** X11.  A turn whose inference call goes wrong sends the controller
    back to GUIDING, whatever state it was in: the fallback record the
    gateway returns suggests GUIDING, and the suggestion is adopted like
    any other.  The fallback is stored as the last metadata, and, unless
    a write to the mistake book fails, its connection-error text is what
    the assistant turn displays. *)
Theorem failed_inference_returns_to_guiding :
  forall (env : Env) (st : AppState) (d : Database),
    trim (input st) <> [] -> isLoading st = false ->
    goesWrong env (inferenceRequest st) ->
    currentState (react (turn env st d)) = state_value GUIDING
    /\ exists diagnostic : jsstring,
         lastMetadata (react (turn env st d))
         = response_value (fallbackRecord (apiUrl st) diagnostic)
         /\ ((mode st = MISTAKE_ANALYSIS -> db_fault env 0 = NoFault) ->
             nth_error (map content (appended st (turn env st d))) 1
             = Some (VStr (content_for_user (fallbackRecord (apiUrl st) diagnostic)))).
Proof.
  intros env st d Hin Hload Hwrong.
  destruct (failure_throws _ _ _ _ _ _ Hwrong) as [error Herr].
  pose proof (gateway_catches _ _ _ _ _ _ _ Herr) as Hsend.
  rewrite fallback_is_record in Hsend.
  change (inference env st
          = Normal (response_value (fallbackRecord (apiUrl st) (thrown_toString error))))
    in Hsend.
  set (r := fallbackRecord (apiUrl st) (thrown_toString error)) in *.
  destruct (turn_outcome env st d _ _ Hin Hload Hsend (response_not_null r))
    as (Hstate & Hmeta & _).
  split.
  - rewrite Hstate, (field_next_state r).
    replace (suggested_next_state r) with GUIDING by reflexivity.
    replace (truthy (state_value GUIDING)) with true by (vm_compute; reflexivity).
    cbn [andb].
    destruct (strict_eq (state_value GUIDING) (currentState st)) eqn:E; cbn [negb].
    + apply strict_eq_string in E. exact E.
    + reflexivity.
  - exists (thrown_toString error). fold r. split; [exact Hmeta|].
    intros Hdb.
    pose proof (turn_typed env st d r Hin Hload Hsend) as H. cbv zeta in H.
    destruct H as (_ & _ & _ & H).
    assert (Hmistake : archives st r = true -> db_fault env 0 = NoFault).
    { unfold r. rewrite fallback_archives. intros Hm. apply Hdb.
      apply TaskMode_eqb_eq. exact Hm. }
    destruct (H Hmistake) as [Hok Hfail].
    assert (Hd : displayed st r = VStr (content_for_user r)) by apply fallback_displayed.
    destruct (db_fault env (saveOperation st r)) eqn:F.
    + destruct (Hok eq_refl) as (Hc & _). rewrite Hc, Hd. reflexivity.
    + destruct Hfail as (Hc & _); [discriminate|]. rewrite Hc, Hd. reflexivity.
    + destruct Hfail as (Hc & _); [discriminate|]. rewrite Hc, Hd. reflexivity.
Qed.

Lemma failed_inference_returns_to_guiding_witness :
  currentState (react (turn unreachable explainingTurn emptyDatabase)) = state_value GUIDING.
Proof.
  destruct (failed_inference_returns_to_guiding unreachable explainingTurn emptyDatabase)
    as (H & _).
  - vm_compute. discriminate.
  - reflexivity.
  - exact I.
  - exact H.
Defined.

(** Unfolds a handler of the component and the database calls it makes. *)
Ltac run :=
  cbv beta iota delta
    [reset mount handleResetSession loadHistory getChatHistory getUserMistakes
     saveChatHistory addMistake read_db
     bindM ret raise lift catchM finallyM setMessages setInput setIsLoading
     setCurrentState setLastMetadata update_react update_db Date_now log_call next_fault
     world_of store_add store_put];
  cbn [snd fst react db clock_reads db_ops calls mistakes mistake_key chats
     subject mode student apiUrl modelName messages input isLoading currentState lastMetadata
     map app].

(** X12.  Resetting the session replaces the transcript by one
    assistant message that names the grade and the subject, puts the
    controller back in GUIDING and forgets the last metadata; it never
    touches the mistake book.  With a working database the reset
    transcript replaces the stored one (so that mounting the component
    again shows the reset message, not the welcome); when the database
    fails the screen is reset all the same, the store is unchanged and
    the rejection escapes the handler, which has no [catch]. *)
Theorem reset_clears_session_not_mistakes :
  forall (env : Env) (st : AppState) (d : Database),
    map content (messages (react (snd (reset env st d))))
    = [VStr (js "Session reset. Ready for " ++ Grade_text (grade (student st))
             ++ js " " ++ Subject_text (subject st) ++ js ".")]
    /\ map role (messages (react (snd (reset env st d)))) = [assistant]
    /\ currentState (react (snd (reset env st d))) = state_value GUIDING
    /\ lastMetadata (react (snd (reset env st d))) = VUndefined
    /\ mistakes (db (snd (reset env st d))) = mistakes d
    /\ mistake_key (db (snd (reset env st d))) = mistake_key d
    /\ (db_fault env 0 = NoFault ->
        fst (reset env st d) = Normal tt
        /\ (exists t, store_get (email (student st)) (chats (db (snd (reset env st d))))
                      = Some (messages (react (snd (reset env st d))), t))
        /\ forall (env' : Env) (st' : AppState),
             email (student st') = email (student st) -> email (student st) <> [] ->
             db_fault env' 0 = NoFault ->
             messages (react (mount env' st' (db (snd (reset env st d)))))
             = messages (react (snd (reset env st d))))
    /\ (db_fault env 0 <> NoFault ->
        (exists e, fst (reset env st d) = Throw e) /\ db (snd (reset env st d)) = d).
Proof.
  intros env st d.
  assert (Hrun : exists out, out = reset env st d) by (eexists; reflexivity).
  destruct Hrun as [out Hout]. rewrite <- Hout. revert Hout.
  run. destruct (db_fault env 0) eqn:F; run; intros ->; cbn [fst snd react db messages
    currentState lastMetadata mistakes mistake_key chats map content role].
  - repeat (split; [reflexivity|]). split.
    + intros _. split; [reflexivity|]. split.
      * eexists. apply store_get_put_same.
      * intros env' st' Hsame Hemail Hfault.
        apply (mount_restores env' st' _ _ (now env 1)).
        -- rewrite Hsame. exact Hemail.
        -- exact Hfault.
        -- cbn [chats]. rewrite Hsame. apply store_get_put_same.
        -- discriminate.
    + intros H. exfalso. apply H. reflexivity.
  - repeat (split; [reflexivity|]). split.
    + intros H. discriminate H.
    + intros _. split; [eexists; reflexivity|]. destruct d; reflexivity.
  - repeat (split; [reflexivity|]). split.
    + intros H. discriminate H.
    + intros _. split; [eexists; reflexivity|]. destruct d; reflexivity.
Qed.

Lemma reset_clears_session_not_mistakes_witness :
  fst (reset tutor guidingTurn (db (turn tutor guidingTurn emptyDatabase))) = Normal tt
  /\ mistakes (db (snd (reset tutor guidingTurn (db (turn tutor guidingTurn emptyDatabase)))))
     = mistakes (db (turn tutor guidingTurn emptyDatabase)).
Proof.
  destruct (reset_clears_session_not_mistakes tutor guidingTurn
              (db (turn tutor guidingTurn emptyDatabase)))
    as (_ & _ & _ & _ & Hmistakes & _ & Hok & _).
  destruct (Hok eq_refl) as (Hret & _).
  split; [exact Hret|exact Hmistakes].
Defined.

(** X13.  When the component mounts, [loadHistory] shows the stored
    transcript of the learner if there is a non-empty one; with no
    stored transcript, an empty one, or a read request that fails, it
    shows a single welcome message naming the grade and the subject;
    with an empty e-mail it does nothing; and a failure to open the
    database escapes as a rejection and leaves the screen as it was. *)
Theorem loadHistory_restores_or_welcomes :
  forall (env : Env) (st : AppState) (d : Database),
    (email (student st) = [] ->
     loadHistory env st (world_of st d) = (Normal tt, world_of st d))
    /\ (email (student st) <> [] ->
        (forall m msgs t,
           db_fault env 0 = NoFault ->
           store_get (email (student st)) (chats d) = Some (m :: msgs, t) ->
           messages (react (mount env st d)) = m :: msgs)
        /\ (db_fault env 0 = RequestFails
            \/ db_fault env 0 = NoFault
               /\ (store_get (email (student st)) (chats d) = None
                   \/ exists t, store_get (email (student st)) (chats d) = Some ([], t)) ->
            messages (react (mount env st d)) = [welcomeMessage st (now env 0)])
        /\ (forall errorCode,
              db_fault env 0 = OpenFails errorCode ->
              fst (loadHistory env st (world_of st d))
              = Throw (ThrownString (js "Database error: " ++ errorCode))
              /\ messages (react (mount env st d)) = messages st)).
Proof.
  intros env st d. split.
  - intros Hemail. unfold loadHistory. rewrite Hemail. reflexivity.
  - intros Hemail. split; [|split].
    + intros m msgs t Hfault Hget.
      apply (mount_restores env st d _ t Hemail Hfault Hget). discriminate.
    + intros H. unfold mount, loadHistory. rewrite (truthy_nonempty _ Hemail). run.
      destruct H as [->|[-> [Hget|[t Hget]]]]; run; rewrite ?Hget; reflexivity.
    + intros errorCode Hfault. unfold mount, loadHistory.
      rewrite (truthy_nonempty _ Hemail). run. rewrite Hfault. split; reflexivity.
Qed.

Lemma loadHistory_restores_or_welcomes_witness :
  messages (react (mount tutor initialAppState emptyDatabase))
  = [welcomeMessage initialAppState (now tutor 0)].
Proof.
  destruct (loadHistory_restores_or_welcomes tutor initialAppState emptyDatabase)
    as [_ H].
  destruct H as (_ & H & _).
  - vm_compute. discriminate.
  - apply H. right. split; [reflexivity|]. left. reflexivity.
Defined.

(** X14.  [saveChatHistory] and [getChatHistory] are a round trip on
    the [chats] store: after a successful save, a read for the same
    e-mail gives back the saved messages (so a later save replaces an
    earlier one), and a read for any other e-mail gives what it gave
    before.  A read whose request fails resolves to the empty array
    instead of rejecting; a save that fails rejects and stores nothing. *)
Theorem chat_history_round_trip :
  forall (env : Env) (w : World) (userEmail : jsstring) (msgs : list ChatMessage),
    let saved := saveChatHistory env userEmail msgs w in
    (db_fault env (db_ops w) = NoFault ->
     fst saved = Normal tt
     /\ (db_fault env (S (db_ops w)) = NoFault ->
         fst (getChatHistory env userEmail (snd saved)) = Normal msgs
         /\ forall other, other <> userEmail ->
              fst (getChatHistory env other (snd saved))
              = Normal match store_get other (chats (db w)) with
                       | Some (stored, _) => stored
                       | None => []
                       end)
     /\ (db_fault env (S (db_ops w)) = RequestFails ->
         fst (getChatHistory env userEmail (snd saved)) = Normal []))
    /\ (db_fault env (db_ops w) <> NoFault ->
        (exists e, fst saved = Throw e) /\ db (snd saved) = db w).
Proof.
  intros env w userEmail msgs saved. subst saved. split.
  - intros F0. run. rewrite F0. run. split; [reflexivity|]. split.
    + intros F1. rewrite F1. run. split.
      * cbn [store_get]. rewrite jsstring_eqb_refl. reflexivity.
      * intros other Hne. cbn [store_get].
        rewrite (jsstring_eqb_neq userEmail other) by congruence.
        rewrite store_get_filter_other by exact Hne. reflexivity.
    + intros F1. rewrite F1. reflexivity.
  - intros F0. run. destruct (db_fault env (db_ops w)); [contradiction| |];
      run; (split; [eexists; reflexivity|reflexivity]).
Qed.

Lemma chat_history_round_trip_witness :
  fst (getChatHistory tutor (js "guest@edumind.ai")
         (snd (saveChatHistory tutor (js "guest@edumind.ai") sampleHistory
                 (world_of initialAppState emptyDatabase))))
  = Normal sampleHistory.
Proof.
  destruct (chat_history_round_trip tutor (world_of initialAppState emptyDatabase)
              (js "guest@edumind.ai") sampleHistory) as [H _].
  destruct (H eq_refl) as (_ & Hread & _).
  destruct (Hread eq_refl) as [Hsame _]. exact Hsame.
Defined.

Section MistakeKeys.

Lemma sorted_snoc l k :
  StronglySorted Z.lt l -> Forall (fun x => (x < k)%Z) l -> StronglySorted Z.lt (l ++ [k]).
Proof.
  induction l as [|x l IH]; intros Hs Hk; simpl.
  - constructor; constructor.
  - inversion Hs as [|? ? Hl Hx]; subst. inversion Hk as [|? ? Hxk Hlk]; subst.
    constructor; [apply IH; assumption|].
    apply Forall_app. split; [exact Hx|]. constructor; [exact Hxk|constructor].
Qed.

Lemma sorted_NoDup l : StronglySorted Z.lt l -> NoDup l.
Proof.
  induction 1 as [|x l Hs IH Hx]; constructor; [|exact IH].
  intros Hin. pose proof (proj1 (Forall_forall _ _) Hx x Hin). lia.
Qed.

Lemma keys_in_order_add record d : keys_in_order d -> keys_in_order (store_add record d).
Proof.
  unfold keys_in_order, store_add. cbn [mistakes mistake_key].
  intros [Hs Hk]. rewrite map_app. cbn [map fst]. split.
  - apply sorted_snoc; assumption.
  - apply Forall_app. split.
    + apply Forall_forall. intros x Hin.
      pose proof (proj1 (Forall_forall _ _) Hk x Hin). cbv beta in *. lia.
    + constructor; [lia|constructor].
Qed.

Lemma keys_in_order_put userEmail entry d :
  keys_in_order d -> keys_in_order (store_put userEmail entry d).
Proof. unfold keys_in_order, store_put. cbn [mistakes mistake_key]. tauto. Qed.

Lemma key_is_fresh d : keys_in_order d -> ~ In (mistake_key d) (map fst (mistakes d)).
Proof.
  intros [_ Hk] Hin. pose proof (proj1 (Forall_forall _ _) Hk _ Hin). cbv beta in *. lia.
Qed.

Lemma index_getAll_app userEmail a b :
  index_getAll userEmail (a ++ b) = index_getAll userEmail a ++ index_getAll userEmail b.
Proof. unfold index_getAll. apply filter_app. Qed.

End MistakeKeys.

(** X15.  [addMistake] gives the record the next key of the generator,
    a key no record of the store has; the keys stay unique and in
    growing order.  [getUserMistakes] then lists, for the e-mail of the
    record, what it listed before followed by the new record with its
    key, and for any other e-mail exactly what it listed before. *)
Theorem added_mistake_gets_fresh_key :
  forall (env : Env) (w : World) (record : MistakeRecord.t),
    keys_in_order (db w) ->
    db_fault env (db_ops w) = NoFault ->
    let added := addMistake env record w in
    fst added = Normal tt
    /\ mistakes (db (snd added)) = mistakes (db w) ++ [(mistake_key (db w), record)]
    /\ ~ In (mistake_key (db w)) (map fst (mistakes (db w)))
    /\ keys_in_order (db (snd added))
    /\ NoDup (map fst (mistakes (db (snd added))))
    /\ (db_fault env (S (db_ops w)) = NoFault ->
        fst (getUserMistakes env (MistakeRecord.userEmail record) (snd added))
        = Normal (index_getAll (MistakeRecord.userEmail record) (mistakes (db w))
                  ++ [(mistake_key (db w), record)])
        /\ forall other, other <> MistakeRecord.userEmail record ->
             fst (getUserMistakes env other (snd added))
             = Normal (index_getAll other (mistakes (db w)))).
Proof.
  intros env w record Hkeys F0 added. subst added.
  pose proof (keys_in_order_add record (db w) Hkeys) as Hkeys'.
  run. rewrite F0. run.
  split; [reflexivity|]. split; [reflexivity|]. split; [apply key_is_fresh; exact Hkeys|].
  split; [exact Hkeys'|]. split; [apply sorted_NoDup; exact (proj1 Hkeys')|].
  intros F1. rewrite F1. run. split.
  - rewrite index_getAll_app. unfold index_getAll at 2. cbn [filter snd].
    rewrite jsstring_eqb_refl. reflexivity.
  - intros other Hne. rewrite index_getAll_app. unfold index_getAll at 2. cbn [filter snd].
    rewrite (jsstring_eqb_neq (MistakeRecord.userEmail record) other) by congruence.
    rewrite app_nil_r. reflexivity.
Qed.

Lemma added_mistake_gets_fresh_key_witness :
  mistakes (db (snd (addMistake tutor (archivedRecord tutor guidingTurn directAnswer)
                       (world_of guidingTurn emptyDatabase))))
  = mistakes (db (world_of guidingTurn emptyDatabase))
    ++ [(mistake_key (db (world_of guidingTurn emptyDatabase)),
         archivedRecord tutor guidingTurn directAnswer)].
Proof.
  destruct (added_mistake_gets_fresh_key tutor (world_of guidingTurn emptyDatabase)
              (archivedRecord tutor guidingTurn directAnswer)) as (_ & H & _).
  - split; constructor.
  - reflexivity.
  - exact H.
Defined.

Section TurnAndDatabase.

(** What a turn can do to the database: add one record to the mistake
    book, or none, and then replace the transcript stored under the
    learner's e-mail, or not. *)
Lemma turn_db env st d :
  exists d1,
    (d1 = d \/ exists record, d1 = store_add record d)
    /\ (db (turn env st d) = d1
        \/ exists entry, db (turn env st d) = store_put (email (student st)) entry d1).
Proof.
  destruct (trim (input st)) as [|c0 t0] eqn:Hin.
  { exists d. split; [left; reflexivity|left].
    unfold turn. rewrite handleSend_guard by (left; exact Hin). reflexivity. }
  assert (Hne : trim (input st) <> []) by (rewrite Hin; discriminate). clear Hin.
  destruct (isLoading st) eqn:Hload.
  { exists d. split; [left; reflexivity|left].
    unfold turn. rewrite handleSend_guard by (right; exact Hload). reflexivity. }
  destruct (gateway_returns env (apiUrl st) (modelName st)
              (constructSystemPrompt (subject st) (student st) (mode st) (currentState st))
              (messages st) (input st)) as [response Hsend].
  change (inference env st = Normal response) in Hsend.
  destruct (get_prop response (js "suggested_next_state")) as [x|] eqn:Hs.
  - pose proof (turn_paths env st d response x Hne Hload Hsend Hs) as H.
    cbv zeta in H. destruct H as (_ & _ & Herr & Hok).
    destruct (if TaskMode_eqb (mode st) MISTAKE_ANALYSIS
              then if truthy (field response "knowledge_point_id")
                   then truthy (field response "internal_monologue") else false
              else false) eqn:Hrec.
    + destruct (db_fault env 0) eqn:F0.
      * destruct (Hok (fun _ => eq_refl)) as [Hsave Hfail]. cbv iota in Hsave, Hfail.
        eexists. split; [right; eexists; reflexivity|].
        destruct (db_fault env 1) eqn:F1.
        -- destruct (Hsave eq_refl) as (_ & _ & _ & (t & Hdb) & _).
           right. eexists. exact Hdb.
        -- destruct Hfail as (_ & _ & _ & Hdb); [discriminate|]. left. exact Hdb.
        -- destruct Hfail as (_ & _ & _ & Hdb); [discriminate|]. left. exact Hdb.
      * destruct (Herr eq_refl) as (_ & _ & _ & Hdb & _); [discriminate|].
        exists d. split; [left; reflexivity|left; exact Hdb].
      * destruct (Herr eq_refl) as (_ & _ & _ & Hdb & _); [discriminate|].
        exists d. split; [left; reflexivity|left; exact Hdb].
    + destruct Hok as [Hsave Hfail]; [discriminate|]. cbv iota in Hsave, Hfail.
      exists d. split; [left; reflexivity|].
      destruct (db_fault env 0) eqn:F0.
      * destruct (Hsave eq_refl) as (_ & _ & _ & (t & Hdb) & _).
        right. eexists. exact Hdb.
      * destruct Hfail as (_ & _ & _ & Hdb); [discriminate|]. left. exact Hdb.
      * destruct Hfail as (_ & _ & _ & Hdb); [discriminate|]. left. exact Hdb.
  - pose proof (turn_on_null env st d response Hne Hload Hsend Hs) as H.
    cbv zeta in H. destruct H as (_ & _ & _ & _ & _ & _ & _ & Hdb & _).
    exists d. split; [left; reflexivity|left; exact Hdb].
Qed.

End TurnAndDatabase.

(** X16.  Whatever the endpoint, the model and the database do, a click
    on send touches only the learner's own data: the mistake book keeps
    every record it had and gains at most one, at the end; its keys stay
    unique and in order; and the transcript stored for any other e-mail
    is what it was. *)
Theorem turn_touches_only_own_data :
  forall (env : Env) (st : AppState) (d : Database),
    (mistakes (db (turn env st d)) = mistakes d
     \/ exists record,
          mistakes (db (turn env st d)) = mistakes d ++ [(mistake_key d, record)])
    /\ (keys_in_order d ->
        keys_in_order (db (turn env st d))
        /\ NoDup (map fst (mistakes (db (turn env st d)))))
    /\ (forall other, other <> email (student st) ->
          store_get other (chats (db (turn env st d))) = store_get other (chats d)).
Proof.
  intros env st d.
  destruct (turn_db env st d) as (d1 & Hd1 & Hdb).
  assert (H1 : (mistakes d1 = mistakes d
                \/ exists record, mistakes d1 = mistakes d ++ [(mistake_key d, record)])
               /\ (keys_in_order d -> keys_in_order d1)
               /\ chats d1 = chats d).
  { destruct Hd1 as [->|[record ->]].
    - split; [left; reflexivity|]. split; [tauto|reflexivity].
    - split; [right; exists record; reflexivity|].
      split; [apply keys_in_order_add|reflexivity]. }
  destruct H1 as (Hm & Hk & Hc).
  destruct Hdb as [->|[entry ->]].
  - split; [exact Hm|]. split.
    + intros Hd. split; [exact (Hk Hd)|]. apply sorted_NoDup. exact (proj1 (Hk Hd)).
    + intros other _. rewrite Hc. reflexivity.
  - destruct (chats_after_put (email (student st)) entry d1) as (_ & Hother & Hmist & _).
    rewrite Hmist. split; [exact Hm|]. split.
    + intros Hd. split; [apply keys_in_order_put; exact (Hk Hd)|].
      apply sorted_NoDup. exact (proj1 (Hk Hd)).
    + intros other Hne. rewrite (Hother other Hne), Hc. reflexivity.
Qed.

Lemma turn_touches_only_own_data_witness :
  keys_in_order (db (turn tutor guidingTurn emptyDatabase)).
Proof.
  destruct (turn_touches_only_own_data tutor guidingTurn emptyDatabase) as (_ & H & _).
  apply H. split; constructor.
Defined.

(** ** The mistake book *)

Section NewestFirst.

Let stamp (kv : Z * MistakeRecord.t) : Z := MistakeRecord.timestamp (snd kv).

Lemma insert_sorted_permutation x l :
  Permutation (JsArray.insert_sorted MistakeBook.newestFirst x l) (x :: l).
Proof.
  induction l as [|y l IH]; cbn [JsArray.insert_sorted]; [reflexivity|].
  destruct (MistakeBook.newestFirst x y <=? 0)%Z; [reflexivity|].
  rewrite IH. apply perm_swap.
Qed.

Lemma sort_permutation l : Permutation (JsArray.sort MistakeBook.newestFirst l) l.
Proof.
  induction l as [|x l IH]; [reflexivity|].
  unfold JsArray.sort in *. cbn [fold_right].
  rewrite insert_sorted_permutation. constructor. exact IH.
Qed.

Lemma insert_sorted_sorted x l :
  StronglySorted (fun a b => (stamp b <= stamp a)%Z) l ->
  StronglySorted (fun a b => (stamp b <= stamp a)%Z)
    (JsArray.insert_sorted MistakeBook.newestFirst x l).
Proof.
  induction l as [|y l IH]; intros Hs; cbn [JsArray.insert_sorted].
  - constructor; constructor.
  - inversion Hs as [|? ? Hl Hy]; subst.
    unfold MistakeBook.newestFirst at 1. fold (stamp x) (stamp y).
    destruct (Z.leb_spec (stamp y - stamp x) 0) as [Hle|Hgt].
    + constructor; [exact Hs|]. constructor; [lia|].
      apply Forall_forall. intros z Hz.
      pose proof (proj1 (Forall_forall _ _) Hy z Hz). cbv beta in *. lia.
    + constructor; [apply IH; exact Hl|].
      apply Forall_forall. intros z Hz.
      apply (Permutation_in _ (insert_sorted_permutation x l)) in Hz.
      destruct Hz as [<-|Hz]; [lia|].
      exact (proj1 (Forall_forall _ _) Hy z Hz).
Qed.

Lemma sort_sorted l :
  StronglySorted (fun a b => (stamp b <= stamp a)%Z) (JsArray.sort MistakeBook.newestFirst l).
Proof.
  induction l as [|x l IH]; [constructor|].
  unfold JsArray.sort in *. cbn [fold_right]. apply insert_sorted_sorted. exact IH.
Qed.

Lemma insert_sorted_stable t x l :
  filter (fun kv => (stamp kv =? t)%Z) (JsArray.insert_sorted MistakeBook.newestFirst x l)
  = filter (fun kv => (stamp kv =? t)%Z) (x :: l).
Proof.
  induction l as [|y l IH]; cbn [JsArray.insert_sorted]; [reflexivity|].
  unfold MistakeBook.newestFirst at 1. fold (stamp x) (stamp y).
  destruct (Z.leb_spec (stamp y - stamp x) 0) as [Hle|Hgt]; [reflexivity|].
  cbn [filter] in IH |- *. rewrite IH.
  destruct (Z.eqb_spec (stamp x) t) as [Hx|Hx]; [|reflexivity].
  destruct (Z.eqb_spec (stamp y) t) as [Hy|Hy]; [lia|reflexivity].
Qed.

Lemma sort_stable t l :
  filter (fun kv => (stamp kv =? t)%Z) (JsArray.sort MistakeBook.newestFirst l)
  = filter (fun kv => (stamp kv =? t)%Z) l.
Proof.
  induction l as [|x l IH]; [reflexivity|].
  unfold JsArray.sort in *. cbn [fold_right]. rewrite insert_sorted_stable.
  cbn [filter]. rewrite IH. reflexivity.
Qed.

Lemma shown_value env userEmail d :
  MistakeBook.shown env userEmail d =
  match db_fault env 0 with
  | NoFault =>
      {| MistakeBook.mistakes :=
           JsArray.sort MistakeBook.newestFirst (index_getAll userEmail (mistakes d));
         MistakeBook.loading := false |}
  | OpenFails _ => {| MistakeBook.mistakes := []; MistakeBook.loading := false |}
  | RequestFails => {| MistakeBook.mistakes := []; MistakeBook.loading := false |}
  end.
Proof.
  unfold MistakeBook.shown, MistakeBook.loadMistakes. run.
  destruct (db_fault env 0); reflexivity.
Qed.

Lemma shown_members (env : Env) (userEmail : jsstring) (d : Database)
    (kv : Z * MistakeRecord.t) :
  db_fault env 0 = NoFault ->
  In kv (MistakeBook.mistakes (MistakeBook.shown env userEmail d))
  <-> In kv (mistakes d) /\ MistakeRecord.userEmail (snd kv) = userEmail.
Proof.
  intros F. rewrite shown_value, F. cbn [MistakeBook.mistakes]. split.
  - intros Hin. apply (Permutation_in _ (sort_permutation _)) in Hin.
    unfold index_getAll in Hin. apply filter_In in Hin as [Hin Hu].
    apply jsstring_eqb_eq in Hu. split; assumption.
  - intros [Hin Hu].
    apply (Permutation_in _ (Permutation_sym (sort_permutation _))).
    unfold index_getAll. apply filter_In. split; [exact Hin|].
    apply jsstring_eqb_eq. exact Hu.
Qed.

End NewestFirst.

(** X17.  The mistake book shows exactly the records stored for the
    given e-mail, each with its key, newest first; records of the same
    instant keep their key order (the sort is stable).  When the
    database fails, the book stays empty; in every case the loading flag
    is cleared. *)
Theorem mistake_book_lists_newest_first :
  forall (env : Env) (userEmail : jsstring) (d : Database),
    MistakeBook.loading (MistakeBook.shown env userEmail d) = false
    /\ (db_fault env 0 <> NoFault ->
        MistakeBook.mistakes (MistakeBook.shown env userEmail d) = [])
    /\ (db_fault env 0 = NoFault ->
        Permutation (MistakeBook.mistakes (MistakeBook.shown env userEmail d))
                    (index_getAll userEmail (mistakes d))
        /\ (forall kv,
              In kv (MistakeBook.mistakes (MistakeBook.shown env userEmail d))
              <-> In kv (mistakes d) /\ MistakeRecord.userEmail (snd kv) = userEmail)
        /\ StronglySorted
             (fun a b => (MistakeRecord.timestamp (snd b)
                          <= MistakeRecord.timestamp (snd a))%Z)
             (MistakeBook.mistakes (MistakeBook.shown env userEmail d))
        /\ forall t,
             filter (fun kv => (MistakeRecord.timestamp (snd kv) =? t)%Z)
                    (MistakeBook.mistakes (MistakeBook.shown env userEmail d))
             = filter (fun kv => (MistakeRecord.timestamp (snd kv) =? t)%Z)
                      (index_getAll userEmail (mistakes d))).
Proof.
  intros env userEmail d.
  split; [rewrite shown_value; destruct (db_fault env 0); reflexivity|].
  split.
  - intros H. rewrite shown_value.
    destruct (db_fault env 0); [exfalso; apply H| |]; reflexivity.
  - intros F. split; [|split; [|split]].
    + rewrite shown_value, F. apply sort_permutation.
    + intros kv. apply shown_members. exact F.
    + rewrite shown_value, F. apply sort_sorted.
    + intros t. rewrite shown_value, F. apply sort_stable.
Qed.

Lemma mistake_book_lists_newest_first_witness :
  Permutation
    (MistakeBook.mistakes
       (MistakeBook.shown tutor (js "guest@edumind.ai")
          (db (turn tutor guidingTurn emptyDatabase))))
    (index_getAll (js "guest@edumind.ai")
       (mistakes (db (turn tutor guidingTurn emptyDatabase)))).
Proof.
  destruct (mistake_book_lists_newest_first tutor (js "guest@edumind.ai")
              (db (turn tutor guidingTurn emptyDatabase))) as (_ & _ & H).
  destruct (H eq_refl) as (Hperm & _). exact Hperm.
Defined.

(** X18.  A mistake archived in a turn shows in the learner's mistake
    book: after a turn in mode MISTAKE_ANALYSIS whose response carries a
    knowledge point and a monologue, and whose write to the mistake book
    succeeds, the book of the learner's e-mail lists the new record under
    the key the store gave it, and the book of any other e-mail does
    not. *)
Theorem archived_mistake_shows_in_book :
  forall (env env' : Env) (st : AppState) (d : Database) (r : StructuredAIResponse),
    trim (input st) <> [] -> isLoading st = false ->
    inference env st = Normal (response_value r) ->
    archives st r = true ->
    db_fault env 0 = NoFault ->
    db_fault env' 0 = NoFault ->
    In (mistake_key d, archivedRecord env st r)
       (MistakeBook.mistakes
          (MistakeBook.shown env' (email (student st)) (db (turn env st d))))
    /\ forall other, other <> email (student st) ->
         ~ In (mistake_key d, archivedRecord env st r)
              (MistakeBook.mistakes (MistakeBook.shown env' other (db (turn env st d)))).
Proof.
  intros env env' st d r Hin Hload Hsend Harch F0 F0'.
  destruct (turn_outcome env st d _ _ Hin Hload Hsend (response_not_null r))
    as (_ & _ & _ & _ & Hdb & _).
  specialize (Hdb F0).
  rewrite nested_if_and, (field_knowledge_point r), (field_monologue r) in Hdb.
  change (TaskMode_eqb (mode st) MISTAKE_ANALYSIS && truthy (VStr (knowledge_point_id r))
          && truthy (VStr (internal_monologue r))) with (archives st r) in Hdb.
  rewrite Harch in Hdb.
  change (mistakes (db (turn env st d))
          = mistakes d ++ [(mistake_key d, archivedRecord env st r)]) in Hdb.
  split.
  - apply (shown_members env' _ _ _ F0'). split.
    + rewrite Hdb. apply in_or_app. right. left. reflexivity.
    + reflexivity.
  - intros other Hne Hshown.
    apply (shown_members env' _ _ _ F0') in Hshown as [_ Hu].
    cbn [snd archivedRecord MistakeRecord.userEmail] in Hu. congruence.
Qed.

Lemma archived_mistake_shows_in_book_witness :
  In (mistake_key emptyDatabase, archivedRecord tutor guidingTurn directAnswer)
     (MistakeBook.mistakes
        (MistakeBook.shown tutor (email (student guidingTurn))
           (db (turn tutor guidingTurn emptyDatabase)))).
Proof.
  destruct (archived_mistake_shows_in_book tutor tutor guidingTurn emptyDatabase
              directAnswer) as [H _].
  - vm_compute. discriminate.
  - reflexivity.
  - vm_compute. reflexivity.
  - reflexivity.
  - reflexivity.
  - reflexivity.
  - exact H.
Defined.

(** ** What the gateways report *)

Section Diagnostics.

Lemma new_Error_text (a b : jsstring) :
  a <> [] -> thrown_toString (new_Error (a ++ b)) = js "Error: " ++ a ++ b.
Proof. destruct a as [|c a]; [contradiction|]. intros _. reflexivity. Qed.

Variables (env : Env) (endpoint modelName systemPrompt : jsstring)
          (history : list ChatMessage) (userMessage : jsstring).

Lemma gateway_reports error :
  requestAndParse env endpoint modelName systemPrompt history userMessage = Throw error ->
  sendMessageToLocalLLM env endpoint modelName systemPrompt history userMessage
  = Normal (response_value (fallbackRecord endpoint (thrown_toString error))).
Proof.
  intros H. rewrite (gateway_catches _ _ _ _ _ _ _ H), fallback_is_record. reflexivity.
Qed.

Lemma gateway_reports_as diagnostic error :
  requestAndParse env endpoint modelName systemPrompt history userMessage = Throw error ->
  thrown_toString error = diagnostic ->
  sendMessageToLocalLLM env endpoint modelName systemPrompt history userMessage
  = Normal (response_value (fallbackRecord endpoint diagnostic)).
Proof. intros H <-. apply gateway_reports, H. Qed.

Lemma parseRawContent_throws raw :
  (forall s, raw = VStr s -> JSON_parse (cleanedJson s) = None) ->
  parseRawContent env raw
  = Throw (new_Error (js "Failed to parse structured output from Local LLM")).
Proof.
  intros H. unfold parseRawContent.
  destruct raw as [| |b|n|s|items|fields]; try reflexivity.
  rewrite (H s eq_refl). reflexivity.
Qed.

End Diagnostics.

(** X19.  What the diagnostic of the local gateway says.  When [fetch]
    rejects, the fallback's [internal_monologue] carries the text of the
    rejection; on a status outside 200..299 it reads "Error: Local API
    Error: <status> <statusText>"; when the completion has no usable
    first content it reads "Error: Empty response from local model"; and
    when the content is there but cannot be parsed after cleaning (or is
    not a string) it reads "Error: Failed to parse structured output from
    Local LLM", the parser's own error being dropped. *)
Theorem local_gateway_names_the_failure :
  forall (env : Env) (endpoint modelName systemPrompt : jsstring)
         (history : list ChatMessage) (userMessage : jsstring),
    let request := localRequest endpoint modelName systemPrompt history userMessage in
    let reports (diagnostic : jsstring) :=
      sendMessageToLocalLLM env endpoint modelName systemPrompt history userMessage
      = Normal (response_value (fallbackRecord endpoint diagnostic)) in
    (forall e, fetch env request = FetchRejects e -> reports (thrown_toString e))
    /\ (forall status statusText payload,
          fetch env request = FetchResolves status statusText payload ->
          status_ok status = false ->
          reports (js "Error: " ++ js "Local API Error: " ++ Z_toString status
                   ++ js " " ++ statusText))
    /\ (forall status statusText text data choices,
          fetch env request = FetchResolves status statusText (BodyText text) ->
          status_ok status = true ->
          JSON_parse text = Some data ->
          get_prop data (js "choices") = Some choices ->
          (truthy (firstChoiceContent choices) = false ->
           reports (js "Error: " ++ js "Empty response from local model"))
          /\ (truthy (firstChoiceContent choices) = true ->
              (forall raw, firstChoiceContent choices = VStr raw ->
                           JSON_parse (cleanedJson raw) = None) ->
              reports (js "Error: "
                       ++ js "Failed to parse structured output from Local LLM"))).
Proof.
  intros env endpoint modelName systemPrompt history userMessage request reports.
  subst reports request. cbv beta.
  split; [|split].
  - intros e Hfetch. apply gateway_reports.
    unfold requestAndParse. rewrite Hfetch. reflexivity.
  - intros status statusText payload Hfetch Hok.
    apply (gateway_reports_as env endpoint modelName systemPrompt history userMessage _
             (new_Error (js "Local API Error: " ++ Z_toString status
                         ++ js " " ++ statusText))).
    + unfold requestAndParse. rewrite Hfetch, Hok. reflexivity.
    + apply new_Error_text. discriminate.
  - intros status statusText text data choices Hfetch Hok Hdata Hchoices.
    assert (Hrun : requestAndParse env endpoint modelName systemPrompt history userMessage
                   = if negb (truthy (firstChoiceContent choices))
                     then Throw (new_Error (js "Empty response from local model"))
                     else parseRawContent env (firstChoiceContent choices)).
    { unfold requestAndParse. rewrite Hfetch, Hok. cbn [negb response_json].
      rewrite Hdata. cbn [bind]. unfold read. rewrite Hchoices. reflexivity. }
    split.
    + intros Hempty. rewrite Hempty in Hrun.
      apply (gateway_reports_as _ _ _ _ _ _ _ _ Hrun).
      rewrite <- (app_nil_r (js "Empty response from local model")) at 1.
      rewrite new_Error_text by discriminate. rewrite app_nil_r. reflexivity.
    + intros Hfull Hbad. rewrite Hfull, (parseRawContent_throws env _ Hbad) in Hrun.
      apply (gateway_reports_as _ _ _ _ _ _ _ _ Hrun).
      rewrite <- (app_nil_r (js "Failed to parse structured output from Local LLM")) at 1.
      rewrite new_Error_text by discriminate. rewrite app_nil_r. reflexivity.
Qed.

Lemma local_gateway_names_the_failure_witness :
  sendMessageToLocalLLM unreachable (js "http://localhost:8000") (js "edu-32b")
    (js "You are EduMind") [] (js "What is 1/2 + 1/3?")
  = Normal (response_value
              (fallbackRecord (js "http://localhost:8000")
                 (thrown_toString (JsError (js "TypeError") (js "Failed to fetch")))))
  /\ sendMessageToLocalLLM serverError (js "http://localhost:8000") (js "edu-32b")
       (js "You are EduMind") [] (js "What is 1/2 + 1/3?")
     = Normal (response_value
                 (fallbackRecord (js "http://localhost:8000")
                    (js "Error: " ++ js "Local API Error: " ++ Z_toString 500
                     ++ js " " ++ js "Internal Server Error")))
  /\ sendMessageToLocalLLM (answering proseText) (js "http://localhost:8000") (js "edu-32b")
       (js "You are EduMind") [] (js "What is 1/2 + 1/3?")
     = Normal (response_value
                 (fallbackRecord (js "http://localhost:8000")
                    (js "Error: "
                     ++ js "Failed to parse structured output from Local LLM"))).
Proof.
  split; [|split].
  - destruct (local_gateway_names_the_failure unreachable (js "http://localhost:8000")
                (js "edu-32b") (js "You are EduMind") [] (js "What is 1/2 + 1/3?"))
      as (H & _ & _).
    apply H. reflexivity.
  - destruct (local_gateway_names_the_failure serverError (js "http://localhost:8000")
                (js "edu-32b") (js "You are EduMind") [] (js "What is 1/2 + 1/3?"))
      as (_ & H & _).
    apply (H 500%Z (js "Internal Server Error") (BodyText [])); reflexivity.
  - destruct (local_gateway_names_the_failure (answering proseText)
                (js "http://localhost:8000")
                (js "edu-32b") (js "You are EduMind") [] (js "What is 1/2 + 1/3?"))
      as (_ & _ & H).
    assert (Hbody : JSON_parse (completionBody proseText)
                    = Some (VObj [(js "choices",
                                   VArr [VObj [(js "message",
                                                VObj [(js "content", VStr proseText)])]])]))
      by (vm_compute; reflexivity).
    assert (Hchoices : get_prop
                         (VObj [(js "choices",
                                 VArr [VObj [(js "message",
                                              VObj [(js "content", VStr proseText)])]])])
                         (js "choices")
                       = Some (VArr [VObj [(js "message",
                                            VObj [(js "content", VStr proseText)])]]))
      by (vm_compute; reflexivity).
    destruct (H 200%Z (js "OK") _ _ _ eq_refl eq_refl Hbody Hchoices) as [_ Hparse].
    apply Hparse; [vm_compute; reflexivity|].
    intros raw Hraw. vm_compute in Hraw. injection Hraw as <-. vm_compute. reflexivity.
Defined.

Section GeminiFailures.

Lemma GeminiObserve_nullish (reason : value) :
  (reason = VNull \/ reason = VUndefined) \/ (reason <> VNull /\ reason <> VUndefined).
Proof.
  destruct reason; try (right; split; discriminate);
    left; [right|left]; reflexivity.
Qed.

Lemma own_errors_are_generic :
  GeminiService.is_404 (new_Error (js "Empty response from model")) = false
  /\ GeminiService.is_429 (new_Error (js "Empty response from model")) = false
  /\ GeminiService.is_404 (new_Error (js "Failed to parse model response as JSON")) = false
  /\ GeminiService.is_429 (new_Error (js "Failed to parse model response as JSON")) = false.
Proof. vm_compute. repeat split. Qed.

Lemma status_404 (m : jsstring) : GeminiService.is_404 (ApiError 404 m) = true.
Proof. reflexivity. Qed.

Lemma message_404 (e : thrown) (m : jsstring) :
  thrown_message e = VStr m -> includes m (js "404") = true ->
  GeminiService.is_404 e = true.
Proof.
  intros Hm Hin. unfold GeminiService.is_404. rewrite Hm, Hin.
  destruct m as [|c m]; [discriminate Hin|].
  cbn [truthy andb]. apply orb_true_r.
Qed.

Lemma status_429 (m : jsstring) :
  includes m (js "404") = false ->
  GeminiService.is_404 (ApiError 429 m) = false
  /\ GeminiService.is_429 (ApiError 429 m) = true.
Proof.
  intros Hin. unfold GeminiService.is_404, GeminiService.is_429.
  cbn [thrown_message]. rewrite Hin, andb_false_r. split; reflexivity.
Qed.

Lemma read_examinable env reason k :
  reason <> VNull -> reason <> VUndefined ->
  read env reason k = Normal (opt_prop reason k).
Proof.
  intros Hnull Hundef. unfold read, opt_prop.
  destruct reason; try contradiction; reflexivity.
Qed.

(** The block returns a fallback for every value it can examine. *)
Lemma catchValue_examined env reason :
  unexaminable reason = false ->
  exists is404 is429,
    GeminiService.catchValue env reason = Normal (GeminiService.fallbackFor is404 is429).
Proof.
  intros H. unfold GeminiService.catchValue.
  assert (Hnull : reason <> VNull) by (intros ->; discriminate H).
  assert (Hundef : reason <> VUndefined) by (intros ->; discriminate H).
  rewrite !(read_examinable env reason) by assumption. cbn [bind].
  assert (Hrest :
    negb (strict_eq (opt_prop reason (js "status")) (VNum (Dec 404 0)))
    && truthy (opt_prop reason (js "message"))
    && match opt_prop reason (js "message") with
       | VStr _ | VArr _ => false
       | _ => true
       end = false) by (destruct reason; try contradiction; exact H).
  destruct (strict_eq (opt_prop reason (js "status")) (VNum (Dec 404 0)));
    cbn [bind]; [eauto|].
  cbn [negb andb] in Hrest.
  destruct (truthy (opt_prop reason (js "message"))); cbn [bind]; [|eauto].
  cbn [andb] in Hrest.
  destruct (opt_prop reason (js "message")); try discriminate Hrest; cbn; eauto.
Qed.

(** It raises a [TypeError] itself on the other values. *)
Lemma catchValue_throws env reason :
  unexaminable reason = true ->
  exists error, GeminiService.catchValue env reason = Throw error.
Proof.
  intros H. unfold GeminiService.catchValue.
  destruct (GeminiObserve_nullish reason) as [Hnullish | [Hnull Hundef]].
  - destruct Hnullish as [-> | ->]; eexists; reflexivity.
  - rewrite !(read_examinable env reason) by assumption. cbn [bind].
    assert (Hrest :
      negb (strict_eq (opt_prop reason (js "status")) (VNum (Dec 404 0)))
      && truthy (opt_prop reason (js "message"))
      && match opt_prop reason (js "message") with
         | VStr _ | VArr _ => false
         | _ => true
         end = true) by (destruct reason; try contradiction; exact H).
    apply andb_prop in Hrest as [Hrest Hshape]. apply andb_prop in Hrest as [H404 Htruthy].
    apply negb_true_iff in H404. rewrite H404. cbn [bind]. rewrite Htruthy.
    destruct (opt_prop reason (js "message")); try discriminate Hshape;
      eexists; reflexivity.
Qed.

(** A rejection with a string is handled like a string thrown. *)
Lemma catchValue_string env s :
  GeminiService.catchValue env (VStr s)
  = Normal (GeminiService.fallbackResponse (ThrownString s)).
Proof.
  unfold GeminiService.catchValue.
  rewrite !(read_examinable env (VStr s)) by discriminate.
  assert (Hstatus : opt_prop (VStr s) (js "status") = VUndefined)
    by (unfold opt_prop, get_prop; vm_compute; reflexivity).
  assert (Hmessage : opt_prop (VStr s) (js "message") = VUndefined)
    by (unfold opt_prop, get_prop; vm_compute; reflexivity).
  rewrite Hstatus, Hmessage. reflexivity.
Qed.

End GeminiFailures.

(** X20.  The failure paths of the Gemini gateway.  Without an API key
    (absent or empty) and with no client made earlier,
    [sendMessageToEduMind] throws "API Key missing" and no client is
    made; a client once made is kept.  With a client, a call rejected
    with an error, an absent or empty text and a text that is not JSON
    even after cleaning each come back as the fallback record of the
    error concerned.  A call rejected with a value that is no error
    object comes back as a fallback record too, unless the [catch] block
    cannot examine the value: on [null] or [undefined], and on a value
    whose status is not 404 and whose message is truthy without being a
    string or an array, the block itself raises a [TypeError] and the
    gateway throws instead of falling back. *)
Theorem gemini_gateway_failure_paths :
  forall (env : Env) (rt : GeminiClient.Runtime) (systemPrompt : jsstring)
         (history : list ChatMessage) (userMessage : jsstring),
    let request := GeminiService.generateRequest systemPrompt history userMessage in
    let send genAI := GeminiClient.send env rt genAI systemPrompt history userMessage in
    (GeminiClient.API_KEY rt = None \/ GeminiClient.API_KEY rt = Some [] ->
     send None = (Throw (new_Error (js "API Key missing")), None))
    /\ (forall key, GeminiClient.API_KEY rt = Some key -> key <> [] ->
        send None = send (Some (GeminiClient.connect rt key)))
    /\ (forall client,
          snd (send (Some client)) = Some client
          /\ (forall error, client request = GenerateRejects error ->
              fst (send (Some client)) = Normal (GeminiService.fallbackResponse error))
          /\ (client request = GenerateResolves None
              \/ client request = GenerateResolves (Some []) ->
              fst (send (Some client))
              = Normal (GeminiService.fallbackResponse
                          (new_Error (js "Empty response from model"))))
          /\ (forall text, client request = GenerateResolves (Some text) ->
              text <> [] ->
              JSON_parse text = None ->
              JSON_parse (trim (strip_fences text)) = None ->
              fst (send (Some client))
              = Normal (GeminiService.fallbackResponse
                          (new_Error (js "Failed to parse model response as JSON"))))
          /\ (forall reason, client request = GenerateRejectsWith reason ->
              (unexaminable reason = false ->
               exists is404 is429,
                 fst (send (Some client)) = Normal (GeminiService.fallbackFor is404 is429))
              /\ (unexaminable reason = true ->
                  exists error, fst (send (Some client)) = Throw error)
              /\ (reason = VNull \/ reason = VUndefined ->
                  fst (send (Some client)) = Throw (null_read_error env (js "status")))
              /\ (forall fields message,
                    reason = VObj fields ->
                    lookup (js "status") fields = None ->
                    lookup (js "message") fields = Some message ->
                    truthy message = true ->
                    match message with VStr _ | VArr _ => False | _ => True end ->
                    fst (send (Some client))
                    = Throw (not_a_function_error env (js "error.message.includes")))
              /\ (forall s, reason = VStr s ->
                    fst (send (Some client))
                    = Normal (GeminiService.fallbackResponse (ThrownString s))))).
Proof.
  intros env rt systemPrompt history userMessage request send. subst send request.
  cbv beta. unfold GeminiClient.send, GeminiClient.initializeGemini.
  split; [|split].
  - intros [-> | ->]; reflexivity.
  - intros key -> Hkey. destruct key as [|c key]; [contradiction|]. reflexivity.
  - intros client. cbn [fst snd]. unfold GeminiService.sendMessageToEduMind.
    split; [reflexivity|]. split; [|split; [|split]].
    + intros error ->. reflexivity.
    + intros [-> | ->]; reflexivity.
    + intros text -> Htext Hraw Hclean. destruct text as [|c text]; [contradiction|].
      unfold GeminiService.parseText. rewrite Hraw, Hclean. reflexivity.
    + intros reason ->. split; [|split; [|split; [|split]]].
      * apply catchValue_examined.
      * apply catchValue_throws.
      * intros [-> | ->]; reflexivity.
      * intros fields message -> Hstatus Hmessage Htruthy Hshape.
        unfold GeminiService.catchValue, read, get_prop. rewrite Hstatus, Hmessage.
        cbn [bind strict_eq]. rewrite Htruthy.
        destruct message; try contradiction; reflexivity.
      * intros s ->. apply catchValue_string.
Qed.

Lemma gemini_gateway_failure_paths_witness :
  GeminiClient.send tutor keyless None (js "You are EduMind") [] (js "What is a fence?")
  = (Throw (new_Error (js "API Key missing")), None)
  /\ fst (GeminiClient.send tutor keyed (Some (replying (Some proseText)))
            (js "You are EduMind") [] (js "What is a fence?"))
     = Normal (GeminiService.fallbackResponse
                 (new_Error (js "Failed to parse model response as JSON")))
  /\ fst (GeminiClient.send tutor keyed (Some (rejectingWith VNull))
            (js "You are EduMind") [] (js "What is a fence?"))
     = Throw (null_read_error tutor (js "status")).
Proof.
  split; [|split].
  - destruct (gemini_gateway_failure_paths tutor keyless (js "You are EduMind") []
                (js "What is a fence?")) as (H & _ & _).
    apply H. left. reflexivity.
  - destruct (gemini_gateway_failure_paths tutor keyed (js "You are EduMind") []
                (js "What is a fence?")) as (_ & _ & H).
    destruct (H (replying (Some proseText))) as (_ & _ & _ & Hparse & _).
    apply (Hparse proseText).
    + reflexivity.
    + discriminate.
    + vm_compute. reflexivity.
    + vm_compute. reflexivity.
  - destruct (gemini_gateway_failure_paths tutor keyed (js "You are EduMind") []
                (js "What is a fence?")) as (_ & _ & H).
    destruct (H (rejectingWith VNull)) as (_ & _ & _ & _ & Hvalue).
    destruct (Hvalue VNull eq_refl) as (_ & _ & Hnull & _).
    apply Hnull. left. reflexivity.
Defined.

(** X21.  How the Gemini fallback words a failure.  Every fallback has
    knowledge point ERR_SYS, score 0, next state GUIDING and no guardrail
    flag.  An error with status 404, or whose message contains "404"
    whatever its status, is reported as the model not being available; an
    error with status 429 whose message has no "404" as a rate limit; and
    the gateway's own two errors (empty response, unparsable response) as
    the generic "System Error." with the invitation to try again. *)
Theorem gemini_fallback_wording :
  (forall error,
     field (GeminiService.fallbackResponse error) "knowledge_point_id"
       = VStr (js "ERR_SYS")
     /\ field (GeminiService.fallbackResponse error) "student_mastery_score"
        = VNum (Dec 0 0)
     /\ field (GeminiService.fallbackResponse error) "suggested_next_state"
        = state_value GUIDING
     /\ field (GeminiService.fallbackResponse error) "is_direct_answer_attempt"
        = VBool false)
  /\ (forall error m,
        error = ApiError 404 m
        \/ (thrown_message error = VStr m /\ includes m (js "404") = true) ->
        GeminiService.internalLog error
          = js "API Error 404: The model '" ++ GeminiService.model_name
            ++ js "' is not available."
        /\ GeminiService.errorMessage error
           = js "Model not found (" ++ GeminiService.model_name
             ++ js "). Please check if the API key has access to this model.")
  /\ (forall m,
        includes m (js "404") = false ->
        GeminiService.internalLog (ApiError 429 m) = js "Rate limit exceeded."
        /\ GeminiService.errorMessage (ApiError 429 m)
           = js "I'm a bit overwhelmed right now. Please give me a moment.")
  /\ (forall error,
        error = new_Error (js "Empty response from model")
        \/ error = new_Error (js "Failed to parse model response as JSON") ->
        GeminiService.internalLog error = js "System Error."
        /\ GeminiService.errorMessage error
           = js "I'm having trouble connecting to my knowledge base. Let's try that again.").
Proof.
  split; [|split; [|split]].
  - intros error. repeat split; vm_compute; reflexivity.
  - intros error m H.
    assert (H404 : GeminiService.is_404 error = true).
    { destruct H as [-> | [Hm Hin]]; [apply status_404 | exact (message_404 _ _ Hm Hin)]. }
    unfold GeminiService.internalLog, GeminiService.errorMessage. rewrite H404.
    split; reflexivity.
  - intros m Hin. destruct (status_429 m Hin) as [H404 H429].
    unfold GeminiService.internalLog, GeminiService.errorMessage. rewrite H404, H429.
    split; reflexivity.
  - destruct own_errors_are_generic as (E4 & E9 & P4 & P9).
    intros error [-> | ->];
      unfold GeminiService.internalLog, GeminiService.errorMessage;
      rewrite ?E4, ?E9, ?P4, ?P9; split; reflexivity.
Qed.

Lemma gemini_fallback_wording_witness :
  GeminiService.internalLog (ApiError 429 (js "models/x returned 404"))
  = js "API Error 404: The model '" ++ GeminiService.model_name
    ++ js "' is not available."
  /\ GeminiService.internalLog (ApiError 429 (js "quota exceeded"))
     = js "Rate limit exceeded.".
Proof.
  split.
  - destruct gemini_fallback_wording as (_ & H & _).
    destruct (H (ApiError 429 (js "models/x returned 404")) (js "models/x returned 404"))
      as [Hlog _].
    + right. split; [reflexivity | vm_compute; reflexivity].
    + exact Hlog.
  - destruct gemini_fallback_wording as (_ & _ & H & _).
    destruct (H (js "quota exceeded")) as [Hlog _].
    + vm_compute. reflexivity.
    + exact Hlog.
Defined.

(** ** The sign-in page *)

Section EmailPattern.

Lemma nonspaces_then_spec (k : jsstring -> bool) (s : jsstring) :
  AuthPage.nonspaces_then k s = true <->
  exists part rest, s = part ++ rest /\ part <> [] /\ space_free part = true
                    /\ k rest = true.
Proof.
  induction s as [|c s IH]; cbn [AuthPage.nonspaces_then].
  - split; [discriminate|].
    intros (part & rest & Hs & Hne & _). destruct part; [contradiction|discriminate Hs].
  - rewrite andb_true_iff, orb_true_iff, IH. split.
    + intros [Hc [(part & rest & -> & Hne & Hfree & Hk) | Hk]].
      * exists (c :: part), rest. repeat split; [discriminate| |exact Hk].
        cbn [space_free forallb]. fold (space_free part). rewrite Hc, Hfree. reflexivity.
      * exists [c], s. repeat split; [discriminate| |exact Hk].
        cbn [space_free forallb]. rewrite Hc. reflexivity.
    + intros (part & rest & Hs & Hne & Hfree & Hk).
      destruct part as [|c' part]; [contradiction|].
      cbn [app] in Hs. injection Hs as <- ->.
      cbn [space_free forallb] in Hfree. fold (space_free part) in Hfree.
      apply andb_true_iff in Hfree as [Hc Hfree]. split; [exact Hc|].
      destruct part as [|c2 part].
      * right. exact Hk.
      * left. exists (c2 :: part), rest. repeat split; [discriminate|exact Hfree|exact Hk].
Qed.

Lemma test_spec (pattern : jsstring -> bool) (s : jsstring) :
  AuthPage.test pattern s = true <->
  exists before rest, s = before ++ rest /\ pattern rest = true.
Proof.
  induction s as [|c s IH]; cbn [AuthPage.test].
  - rewrite orb_false_r. split.
    + intros H. exists [], []. split; [reflexivity|exact H].
    + intros (before & rest & Hs & H).
      symmetry in Hs. apply app_eq_nil in Hs as [_ ->]. exact H.
  - rewrite orb_true_iff, IH. split.
    + intros [H | (before & rest & -> & H)].
      * exists [], (c :: s). split; [reflexivity|exact H].
      * exists (c :: before), rest. split; [reflexivity|exact H].
    + intros (before & rest & Hs & H). destruct before as [|c' before].
      * left. cbn [app] in Hs. subst rest. exact H.
      * right. cbn [app] in Hs. injection Hs as <- ->. exists before, rest.
        split; [reflexivity|exact H].
Qed.

Lemma email_pattern_spec (s : jsstring) :
  AuthPage.email_pattern s = true <->
  exists user_part domain_part top_part rest,
    s = user_part ++ [64%N] ++ domain_part ++ [46%N] ++ top_part ++ rest
    /\ user_part <> [] /\ domain_part <> [] /\ top_part <> []
    /\ space_free user_part = true
    /\ space_free domain_part = true
    /\ space_free top_part = true.
Proof.
  unfold AuthPage.email_pattern. rewrite nonspaces_then_spec. split.
  - intros (u & r1 & -> & Hu & Hfu & Hk).
    destruct r1 as [|c r1]; [discriminate Hk|].
    apply andb_true_iff in Hk as [Hat Hk]. apply N.eqb_eq in Hat. subst c.
    apply nonspaces_then_spec in Hk as (d & r2 & -> & Hd & Hfd & Hk).
    destruct r2 as [|c r2]; [discriminate Hk|].
    apply andb_true_iff in Hk as [Hdot Hk]. apply N.eqb_eq in Hdot. subst c.
    apply nonspaces_then_spec in Hk as (t & r3 & -> & Ht & Hft & _).
    exists u, d, t, r3. repeat split; assumption.
  - intros (u & d & t & r & -> & Hu & Hd & Ht & Hfu & Hfd & Hft).
    exists u, ([64%N] ++ d ++ [46%N] ++ t ++ r). repeat split; try assumption.
    cbn [app]. rewrite N.eqb_refl. cbn [andb].
    apply nonspaces_then_spec. exists d, ([46%N] ++ t ++ r). repeat split; try assumption.
    cbn [app]. rewrite N.eqb_refl. cbn [andb].
    apply nonspaces_then_spec. exists t, r. repeat split; assumption.
Qed.

End EmailPattern.

(** X22.  [validateEmail] accepts exactly the texts that hold, somewhere,
    a non-empty part, an at sign, a non-empty part, a dot and a non-empty
    part, the three parts free of white space; what stands before and
    after that is not looked at. *)
Theorem validateEmail_accepts_address_shapes :
  forall s : jsstring, AuthPage.validateEmail s = true <-> address_like s.
Proof.
  intros s. unfold AuthPage.validateEmail, address_like. rewrite test_spec. split.
  - intros (before & rest & -> & H).
    apply email_pattern_spec in H as (u & d & t & r & -> & H).
    exists before, u, d, t, r. split; [reflexivity|exact H].
  - intros (before & u & d & t & r & -> & H).
    exists before, (u ++ [64%N] ++ d ++ [46%N] ++ t ++ r). split; [reflexivity|].
    apply email_pattern_spec. exists u, d, t, r. split; [reflexivity|exact H].
Qed.

Ltac auth :=
  cbv beta delta [AuthPage.submitted AuthPage.handleSubmit AuthPage.submit Users.catch
                  Users.then_ Users.unit_ Users.fail Users.getUser Users.createUser
                  Users.next_fault];
  cbn [Users.users Users.operations fst snd].

Section SignIn.

Lemma errorText_Error (message : jsstring) :
  message <> [] -> AuthPage.errorText (new_Error message) = message.
Proof. destruct message; [contradiction|reflexivity]. Qed.

Lemma errorText_string (reason : jsstring) :
  AuthPage.errorText (ThrownString reason) = js "An unexpected error occurred.".
Proof. reflexivity. Qed.

Lemma users_get_put (profile : StudentProfile) (store : list (jsstring * StudentProfile)) :
  store_get (email profile) (Users.put profile store) = Some profile.
Proof. unfold Users.put. cbn [store_get]. rewrite jsstring_eqb_refl. reflexivity. Qed.

Lemma passes_validation_spec (form : AuthPage.Form.t) :
  passes_validation form = true ->
  AuthPage.blank (AuthPage.Form.email form) || AuthPage.blank (AuthPage.Form.password form)
  = false
  /\ (List.length (AuthPage.Form.password form) <? 6) = false
  /\ AuthPage.validateEmail (AuthPage.Form.email form) = true.
Proof.
  unfold passes_validation.
  destruct (AuthPage.blank (AuthPage.Form.email form)),
           (AuthPage.blank (AuthPage.Form.password form)),
           (List.length (AuthPage.Form.password form) <? 6),
           (AuthPage.validateEmail (AuthPage.Form.email form));
    cbn; intros H; try discriminate H; repeat split.
Qed.

End SignIn.

(** X23.  A form that fails one of the three checks is refused before
    the database is used: the page shows the message of the first check
    that fails (required fields, then password length, then the shape of
    the address), and neither the [users] store nor the count of database
    operations changes. *)
Theorem invalid_form_never_reaches_database :
  forall (env : Env) (form : AuthPage.Form.t) (s : Users.Store),
    passes_validation form = false ->
    AuthPage.handleSubmit env form s
    = (Normal (AuthPage.Refused
                 (if AuthPage.blank (AuthPage.Form.email form)
                     || AuthPage.blank (AuthPage.Form.password form)
                  then js "Please fill in all required fields."
                  else if List.length (AuthPage.Form.password form) <? 6
                  then js "Password must be at least 6 characters long."
                  else js "Please enter a valid email address.")),
       s).
Proof.
  intros env form s. unfold passes_validation. auth.
  destruct (AuthPage.blank (AuthPage.Form.email form)),
           (AuthPage.blank (AuthPage.Form.password form)),
           (List.length (AuthPage.Form.password form) <? 6),
           (AuthPage.validateEmail (AuthPage.Form.email form));
    cbn [negb andb orb]; intros H; try discriminate H;
    rewrite errorText_Error by discriminate; reflexivity.
Qed.

Lemma invalid_form_never_reaches_database_witness :
  AuthPage.handleSubmit healthy badAddress {| Users.users := []; Users.operations := 0 |}
  = (Normal (AuthPage.Refused
               (if AuthPage.blank (AuthPage.Form.email badAddress)
                   || AuthPage.blank (AuthPage.Form.password badAddress)
                then js "Please fill in all required fields."
                else if List.length (AuthPage.Form.password badAddress) <? 6
                then js "Password must be at least 6 characters long."
                else js "Please enter a valid email address.")),
     {| Users.users := []; Users.operations := 0 |}).
Proof.
  apply (invalid_form_never_reaches_database healthy badAddress). vm_compute. reflexivity.
Defined.

Ltac validated H :=
  let Hblank := fresh "Hblank" in
  let Hlong := fresh "Hlong" in
  let Hshape := fresh "Hshape" in
  destruct (passes_validation_spec _ H) as (Hblank & Hlong & Hshape);
  auth; rewrite ?Hblank, ?Hlong, ?Hshape; cbn [negb]; cbv beta iota.

Ltac settled_by H :=
  repeat (progress (rewrite ?H; cbv beta iota; cbn [Users.users Users.operations])).

(** X24.  Registration, then sign-in.  On a database without faults, a
    valid registration form with a name and an address not yet in the
    store logs the new profile in (novice, age 10 for the primary grade
    and 14 otherwise) and stores it under its address; signing in
    afterwards with the same address and password logs the same profile
    in and leaves the store as it is. *)
Theorem registration_then_sign_in :
  forall (env : Env) (form : AuthPage.Form.t) (store : list (jsstring * StudentProfile)),
    (forall k, db_fault env k = NoFault) ->
    AuthPage.Form.isLogin form = false ->
    passes_validation form = true ->
    AuthPage.blank (AuthPage.Form.name form) = false ->
    store_get (AuthPage.Form.email form) store = None ->
    let profile := AuthPage.newProfile form in
    let stored := Users.put profile store in
    AuthPage.submitted env form store = (AuthPage.LoggedIn profile, stored)
    /\ AuthPage.submitted env (signing_in form) stored = (AuthPage.LoggedIn profile, stored)
    /\ masteryLevel profile = Novice
    /\ grade profile = AuthPage.Form.grade form
    /\ age profile = match AuthPage.Form.grade form with PRIMARY => 10%N | MIDDLE => 14%N end.
Proof.
  intros env form store Hdb Hreg Hvalid Hname Hnew profile stored.
  split; [|split].
  - validated Hvalid. rewrite Hreg, Hname. settled_by Hdb. rewrite Hnew.
    settled_by Hdb. reflexivity.
  - assert (Hvalid' : passes_validation (signing_in form) = true) by exact Hvalid.
    assert (Hget : store_get (AuthPage.Form.email form) stored = Some profile)
      by apply (users_get_put profile store).
    assert (Hpw : AuthPage.password_differs profile (AuthPage.Form.password form) = false).
    { unfold AuthPage.password_differs. cbn [profile AuthPage.newProfile password].
      rewrite jsstring_eqb_refl. reflexivity. }
    validated Hvalid'. cbn [signing_in AuthPage.Form.isLogin AuthPage.Form.email
                            AuthPage.Form.password].
    destruct (jsstring_eqb (AuthPage.Form.email form) AuthPage.demoEmail);
      settled_by Hdb; rewrite ?Hget; settled_by Hdb; rewrite ?Hget; settled_by Hdb;
      rewrite Hpw; reflexivity.
  - subst profile. unfold AuthPage.newProfile. cbn [masteryLevel grade age]. rewrite Hreg.
    repeat split.
Qed.

Lemma registration_then_sign_in_witness :
  AuthPage.submitted healthy registration []
  = (AuthPage.LoggedIn (AuthPage.newProfile registration),
     Users.put (AuthPage.newProfile registration) [])
  /\ AuthPage.submitted healthy (signing_in registration)
       (Users.put (AuthPage.newProfile registration) [])
     = (AuthPage.LoggedIn (AuthPage.newProfile registration),
        Users.put (AuthPage.newProfile registration) []).
Proof.
  destruct (registration_then_sign_in healthy registration []) as (H1 & H2 & _).
  - intros k. reflexivity.
  - reflexivity.
  - vm_compute. reflexivity.
  - vm_compute. reflexivity.
  - reflexivity.
  - split; [exact H1|exact H2].
Defined.

(** X25.  Registration never overwrites an account.  When the address of
    a valid registration form is already in the [users] store, the page
    shows "This email is already registered." and the store is left as it
    was, whatever the password typed. *)
Theorem registration_never_overwrites :
  forall (env : Env) (form : AuthPage.Form.t) (store : list (jsstring * StudentProfile))
         (existing : StudentProfile),
    db_fault env 0 = NoFault ->
    AuthPage.Form.isLogin form = false ->
    passes_validation form = true ->
    AuthPage.blank (AuthPage.Form.name form) = false ->
    store_get (AuthPage.Form.email form) store = Some existing ->
    AuthPage.submitted env form store
    = (AuthPage.Refused (js "This email is already registered."), store).
Proof.
  intros env form store existing Hdb Hreg Hvalid Hname Hold.
  validated Hvalid. rewrite Hreg, Hname. settled_by Hdb. rewrite Hold. cbv beta iota.
  rewrite errorText_Error by discriminate. reflexivity.
Qed.

Lemma registration_never_overwrites_witness :
  AuthPage.submitted healthy registration (Users.put (AuthPage.newProfile signIn) [])
  = (AuthPage.Refused (js "This email is already registered."),
     Users.put (AuthPage.newProfile signIn) []).
Proof.
  apply (registration_never_overwrites healthy registration _ (AuthPage.newProfile signIn)).
  - reflexivity.
  - reflexivity.
  - vm_compute. reflexivity.
  - vm_compute. reflexivity.
  - vm_compute. reflexivity.
Defined.

Ltac branch :=
  match goal with
  | |- context [match db_fault ?env ?k with _ => _ end] =>
      let E := fresh "Hfault" in destruct (db_fault env k) eqn:E
  | |- context [match store_get ?k ?s with _ => _ end] =>
      let E := fresh "Hget" in destruct (store_get k s) eqn:E
  | |- context [if AuthPage.password_differs ?u ?p then _ else _] =>
      let E := fresh "Hpw" in destruct (AuthPage.password_differs u p) eqn:E
  end; cbv beta iota; cbn [Users.users Users.operations].

Section Accounts.

Lemma password_matches (account : StudentProfile) (typed : jsstring) :
  AuthPage.password_differs account typed = false -> password account = Some typed.
Proof.
  unfold AuthPage.password_differs. destruct (password account) as [p|]; [|discriminate].
  intros H. apply negb_false_iff, jsstring_eqb_eq in H. subst p. reflexivity.
Qed.

End Accounts.

(** X26.  Sign-in is sound, whatever the database does.  If a sign-in
    ends with [onLogin(profile)], the form passed the three checks, the
    profile is the one the [users] store holds under the address typed,
    its password is the one typed, and the store is the one from before,
    or, for the demo address not yet in the store, that store with the
    demo account added. *)
Theorem sign_in_is_sound :
  forall (env : Env) (form : AuthPage.Form.t)
         (store store' : list (jsstring * StudentProfile)) (profile : StudentProfile),
    AuthPage.Form.isLogin form = true ->
    AuthPage.submitted env form store = (AuthPage.LoggedIn profile, store') ->
    passes_validation form = true
    /\ store_get (AuthPage.Form.email form) store' = Some profile
    /\ password profile = Some (AuthPage.Form.password form)
    /\ (store' = store
        \/ (AuthPage.Form.email form = AuthPage.demoEmail
            /\ store_get (AuthPage.Form.email form) store = None
            /\ store' = Users.put (AuthPage.demoUser (AuthPage.Form.email form)) store)).
Proof.
  intros env form store store' profile Hlogin.
  unfold passes_validation. auth.
  destruct (AuthPage.blank (AuthPage.Form.email form)),
           (AuthPage.blank (AuthPage.Form.password form)),
           (List.length (AuthPage.Form.password form) <? 6),
           (AuthPage.validateEmail (AuthPage.Form.email form));
    cbn [negb andb orb]; cbv beta iota; try (intros H; discriminate H).
  rewrite Hlogin.
  destruct (jsstring_eqb (AuthPage.Form.email form) AuthPage.demoEmail) eqn:Hdemo;
    cbv beta iota; cbn [Users.users Users.operations]; repeat branch;
    intros H; try discriminate H; injection H as <- <-.
  all: split; [reflexivity|]; split; [assumption|];
    split; [apply password_matches; assumption|].
  1, 3: left; reflexivity.
  right. split; [apply jsstring_eqb_eq; exact Hdemo|]. split; reflexivity.
Qed.

Lemma sign_in_is_sound_witness :
  store_get (AuthPage.Form.email demoSignIn)
    (Users.put (AuthPage.demoUser (AuthPage.Form.email demoSignIn)) [])
  = Some (AuthPage.demoUser (AuthPage.Form.email demoSignIn)).
Proof.
  destruct (sign_in_is_sound healthy demoSignIn []
              (Users.put (AuthPage.demoUser (AuthPage.Form.email demoSignIn)) [])
              (AuthPage.demoUser (AuthPage.Form.email demoSignIn)))
    as (_ & H & _).
  - reflexivity.
  - vm_compute. reflexivity.
  - exact H.
Defined.

(** X27.  A fault of the database is reported without its text.  When a
    form passes the checks (and, for a registration, has a name) and the
    first operation on the database fails, to open or in the request, the
    page shows "An unexpected error occurred." and the store is left as
    it was: the rejection is a string, which has no [message]. *)
Theorem database_fault_shows_generic_error :
  forall (env : Env) (form : AuthPage.Form.t) (store : list (jsstring * StudentProfile)),
    passes_validation form = true ->
    AuthPage.Form.isLogin form = true \/ AuthPage.blank (AuthPage.Form.name form) = false ->
    db_fault env 0 <> NoFault ->
    AuthPage.submitted env form store
    = (AuthPage.Refused (js "An unexpected error occurred."), store).
Proof.
  intros env form store Hvalid Hform Hfault.
  validated Hvalid.
  destruct (AuthPage.Form.isLogin form) eqn:Hlogin.
  - destruct (jsstring_eqb (AuthPage.Form.email form) AuthPage.demoEmail);
      cbv beta iota; cbn [Users.users Users.operations];
      destruct (db_fault env 0); try contradiction; reflexivity.
  - destruct Hform as [Hform | Hname]; [discriminate Hform|]. rewrite Hname.
    cbv beta iota; cbn [Users.users Users.operations].
    destruct (db_fault env 0); try contradiction; reflexivity.
Qed.

Lemma database_fault_shows_generic_error_witness :
  AuthPage.submitted closedDatabase signIn []
  = (AuthPage.Refused (js "An unexpected error occurred."), []).
Proof.
  apply (database_fault_shows_generic_error closedDatabase signIn []).
  - vm_compute. reflexivity.
  - left. reflexivity.
  - discriminate.
Defined.

(** X28.  The demo account is seeded by the sign-in itself.  On a
    database without faults whose store has no demo account, a sign-in
    with the demo address that passes the checks stores the demo account
    (Demo Student, middle grade, password "password123") whatever
    password was typed: with that password the demo student is logged
    in, with another one the page shows "Incorrect password." and the
    account stays stored. *)
Theorem demo_account_is_seeded_on_sign_in :
  forall (env : Env) (form : AuthPage.Form.t) (store : list (jsstring * StudentProfile)),
    (forall k, db_fault env k = NoFault) ->
    AuthPage.Form.isLogin form = true ->
    AuthPage.Form.email form = AuthPage.demoEmail ->
    passes_validation form = true ->
    store_get AuthPage.demoEmail store = None ->
    AuthPage.submitted env form store
    = (if jsstring_eqb (js "password123") (AuthPage.Form.password form)
       then AuthPage.LoggedIn (AuthPage.demoUser AuthPage.demoEmail)
       else AuthPage.Refused (js "Incorrect password."),
       Users.put (AuthPage.demoUser AuthPage.demoEmail) store).
Proof.
  intros env form store Hdb Hlogin Hdemo Hvalid Hnew.
  assert (Hseeded : store_get AuthPage.demoEmail
                      (Users.put (AuthPage.demoUser AuthPage.demoEmail) store)
                    = Some (AuthPage.demoUser AuthPage.demoEmail))
    by apply (users_get_put (AuthPage.demoUser AuthPage.demoEmail) store).
  validated Hvalid. rewrite Hlogin, Hdemo, jsstring_eqb_refl.
  settled_by Hdb. rewrite Hnew. settled_by Hdb. rewrite Hseeded. cbv beta iota.
  unfold AuthPage.password_differs. cbn [AuthPage.demoUser password].
  destruct (jsstring_eqb (js "password123") (AuthPage.Form.password form));
    cbn [negb]; cbv beta iota; [reflexivity|].
  rewrite errorText_Error by discriminate. reflexivity.
Qed.

Lemma demo_account_is_seeded_on_sign_in_witness :
  AuthPage.submitted healthy demoSignIn []
  = (if jsstring_eqb (js "password123") (AuthPage.Form.password demoSignIn)
     then AuthPage.LoggedIn (AuthPage.demoUser AuthPage.demoEmail)
     else AuthPage.Refused (js "Incorrect password."),
     Users.put (AuthPage.demoUser AuthPage.demoEmail) []).
Proof.
  apply (demo_account_is_seeded_on_sign_in healthy demoSignIn []).
  - intros k. reflexivity.
  - reflexivity.
  - vm_compute. reflexivity.
  - vm_compute. reflexivity.
  - reflexivity.
Defined.

